(** * Audio pipeline of the text-to-speech front end (src/App.tsx and the
    speech service): a shallow embedding and its verification.

    JavaScript values are modelled as follows.
    - integers held in a [number] (lengths, offsets, sample rates, samples):
      [Z];
    - bytes of an [ArrayBuffer] / [Uint8Array]: [list Z] with entries in
      [0, 256); an [Int16Array]: [list Z] with entries in [-32768, 32768);
    - strings: lists of UTF-16 code units ([jsstring]);
    - exceptions: the [result] type, [Throw e] for a thrown value;
    - IEEE 754 numbers stored in a [Float32Array]: [spec_float]. *)

From Stdlib Require Import ZArith QArith Qround List String Ascii Lia Bool.
From Stdlib Require Import Floats.SpecFloat.
From stdpp Require Import base list gmap.

Local Open Scope Z_scope.

(* ================================================================= *)
(** ** JavaScript strings and thrown values *)

Definition jsstring := list Z.

(** An ASCII literal as a sequence of code units. *)
Definition lit (s : string) : jsstring :=
  map (fun a => Z.of_N (N_of_ascii a)) (list_ascii_of_string s).

(** The places where the platform itself raises. *)
Inductive Fault :=
  | InvalidCharacterError   (* atob on a malformed string *)
  | RangeErrorTypedArray    (* new Int16Array over a buffer of odd length *)
  | RangeErrorDataView      (* DataView setter outside the buffer *)
  | IndexSizeError          (* getChannelData with a channel out of range *)
  | NotSupportedError.      (* createBuffer outside its nominal ranges *)

(** A thrown value: an exception object of the platform, [new Error(msg)],
    or any other value (for which [e instanceof Error] is false). *)
Inductive Thrown :=
  | PlatformError (f : Fault)
  | ErrorObject (message : jsstring)
  | NonError.

Inductive result (A : Type) :=
  | Ok (a : A)
  | Throw (e : Thrown).
Arguments Ok {A} a.
Arguments Throw {A} e.

(** Sequencing of statements that may throw: [x ← r; k] runs [k] on the
    value of [r] and propagates what [r] throws. *)
#[global] Instance result_bind : MBind result := fun A B k r =>
  match r with
  | Ok a => k a
  | Throw e => Throw e
  end.

(** [for (let i = 0; i < n; i++) body], the body possibly throwing. *)
Fixpoint forRange {S} (idx : list nat) (body : nat -> S -> result S) (s : S)
  : result S :=
  match idx with
  | [] => Ok s
  | i :: rest => s' ← body i s; forRange rest body s'
  end.

(* ================================================================= *)
(** ** Integer conversions and little-endian byte order *)

(** The [k]-th byte of the two's complement representation of [w]. *)
Definition byteOf (w : Z) (k : Z) : Z := Z.land (Z.shiftr w (8 * k)) 255.

(** ToUint8: the conversion applied by a [Uint8Array] store. *)
Definition toUint8 (w : Z) : Z := Z.land w 255.

Definition le16 (w : Z) : list Z := [byteOf w 0; byteOf w 1].
Definition le32 (w : Z) : list Z := [byteOf w 0; byteOf w 1; byteOf w 2; byteOf w 3].

(** Reading back an unsigned little-endian integer. *)
Fixpoint leCombine (bs : list Z) : Z :=
  match bs with
  | [] => 0
  | b :: rest => Z.lor b (Z.shiftl (leCombine rest) 8)
  end.

(** Reinterpreting a 16-bit pattern as a signed sample. *)
Definition toInt16 (u : Z) : Z := if u <? 32768 then u else u - 65536.

(* ================================================================= *)
(** ** DataView over an ArrayBuffer *)

(** [new ArrayBuffer(n)]: [n] zero bytes. *)
Definition newArrayBuffer (n : Z) : list Z := replicate (Z.to_nat n) 0.

(** Every setter checks the whole range first and raises a RangeError
    when it does not fit, writing nothing. *)
Definition setBytes (view : list Z) (offset : Z) (bs : list Z) : result (list Z) :=
  if (0 <=? offset) && (offset + Z.of_nat (length bs) <=? Z.of_nat (length view))
  then Ok (take (Z.to_nat offset) view ++ bs
             ++ drop (Z.to_nat offset + length bs) view)
  else Throw (PlatformError RangeErrorDataView).

Definition setUint8 (view : list Z) (offset value : Z) : result (list Z) :=
  setBytes view offset [toUint8 value].

(** The source always passes [littleEndian = true]. *)
Definition setUint16 (view : list Z) (offset value : Z) : result (list Z) :=
  setBytes view offset (le16 value).

Definition setInt16 (view : list Z) (offset value : Z) : result (list Z) :=
  setBytes view offset (le16 value).

Definition setUint32 (view : list Z) (offset value : Z) : result (list Z) :=
  setBytes view offset (le32 value).

Definition getUint16 (view : list Z) (offset : Z) : Z :=
  leCombine (take 2 (drop (Z.to_nat offset) view)).

Definition getUint32 (view : list Z) (offset : Z) : Z :=
  leCombine (take 4 (drop (Z.to_nat offset) view)).

(* ================================================================= *)
(** ** WAV file generation utilities (App.tsx, lines 37-72) *)

(** [string.charCodeAt(i)] for [i] inside the string. *)
Definition charCodeAt (s : jsstring) (i : nat) : Z := default 0 (s !! i).

Definition writeString (view : list Z) (offset : Z) (s : jsstring)
  : result (list Z) :=
  forRange (seq 0 (length s))
    (fun i v => setUint8 v (offset + Z.of_nat i) (charCodeAt s i)) view.

Record Blob := { blobBytes : list Z; blobType : string }.

Definition createWavBlob (pcmData : list Z) (sampleRate : Z) : result Blob :=
  let numChannels := 1 in
  let bitsPerSample := 16 in
  let dataSize := Z.of_nat (length pcmData) * 2 in
  let blockAlign := (numChannels * bitsPerSample) / 8 in
  let byteRate := sampleRate * blockAlign in
  let view := newArrayBuffer (44 + dataSize) in
  view ← writeString view 0 (lit "RIFF");
  view ← setUint32 view 4 (36 + dataSize);
  view ← writeString view 8 (lit "WAVE");
  view ← writeString view 12 (lit "fmt ");
  view ← setUint32 view 16 16;
  view ← setUint16 view 20 1;
  view ← setUint16 view 22 numChannels;
  view ← setUint32 view 24 sampleRate;
  view ← setUint32 view 28 byteRate;
  view ← setUint16 view 32 blockAlign;
  view ← setUint16 view 34 bitsPerSample;
  view ← writeString view 36 (lit "data");
  view ← setUint32 view 40 dataSize;
  view ← forRange (seq 0 (length pcmData))
            (fun i v => setInt16 v (44 + Z.of_nat i * 2)
                          (default 0 (pcmData !! i))) view;
  Ok {| blobBytes := view; blobType := "audio/wav" |}.

(** The reader the round-trip property of the specification speaks of: it
    takes [dataSize] from offset 40 and that many bytes of samples, 16 bits
    each and little-endian, from offset 44 on. *)
Definition getInt16 (view : list Z) (offset : Z) : Z :=
  toInt16 (getUint16 view offset).

Definition decodeWav (wav : list Z) : list Z :=
  let dataSize := getUint32 wav 40 in
  map (fun i => getInt16 wav (44 + Z.of_nat i * 2))
      (seq 0 (Z.to_nat (dataSize / 2))).

(* ================================================================= *)
(** ** Audio decoding utilities (App.tsx, lines 7-35) *)

(** *** [atob]: the forgiving base64 decoder of the HTML standard *)

Definition isAsciiWhitespace (c : Z) : bool :=
  (c =? 9) || (c =? 10) || (c =? 12) || (c =? 13) || (c =? 32).

Definition base64Value (c : Z) : option Z :=
  if (65 <=? c) && (c <=? 90) then Some (c - 65)
  else if (97 <=? c) && (c <=? 122) then Some (c - 71)
  else if (48 <=? c) && (c <=? 57) then Some (c + 4)
  else if c =? 43 then Some 62
  else if c =? 47 then Some 63
  else None.

(** One or two trailing [=] are removed when the length is a multiple of 4. *)
Definition stripPadding (d : jsstring) : jsstring :=
  if (length d mod 4 =? 0)%nat then
    match reverse d with
    | 61 :: 61 :: r => reverse r
    | 61 :: r => reverse r
    | _ => d
    end
  else d.

(** 24 bits give three bytes; a rest of 18 bits gives two and a rest of 12
    bits one, the superfluous low bits being discarded. *)
Fixpoint sextetsToBytes (fuel : nat) (vs : list Z) : list Z :=
  match fuel with
  | O => []
  | S fuel =>
    match vs with
    | a :: b :: c :: d :: rest =>
        let n := Z.lor (Z.shiftl a 18) (Z.lor (Z.shiftl b 12) (Z.lor (Z.shiftl c 6) d)) in
        byteOf n 2 :: byteOf n 1 :: byteOf n 0 :: sextetsToBytes fuel rest
    | [a; b; c] =>
        let n := Z.shiftr (Z.lor (Z.shiftl a 12) (Z.lor (Z.shiftl b 6) c)) 2 in
        [byteOf n 1; byteOf n 0]
    | [a; b] =>
        let n := Z.shiftr (Z.lor (Z.shiftl a 6) b) 4 in
        [byteOf n 0]
    | _ => []
    end
  end.

Definition atob (data : jsstring) : result jsstring :=
  let data := filter (fun c => isAsciiWhitespace c = false) data in
  let data := stripPadding data in
  if (length data mod 4 =? 1)%nat then Throw (PlatformError InvalidCharacterError)
  else
    match mapM base64Value data with
    | None => Throw (PlatformError InvalidCharacterError)
    | Some vs => Ok (sextetsToBytes (length vs) vs)
    end.

(** *** [decode] (lines 8-16) *)

Definition decode (base64 : jsstring) : result (list Z) :=
  binaryString ← atob base64;
  let len := length binaryString in
  let bytes := replicate len 0 in
  Ok (fold_left (fun bytes i => <[i := toUint8 (charCodeAt binaryString i)]> bytes)
                (seq 0 len) bytes).

(** *** [new Int16Array(buffer)] *)

(** The elements of the view, in the byte order of the platform, which is
    little-endian on every platform a browser runs on. *)
Fixpoint int16Elements (buffer : list Z) : list Z :=
  match buffer with
  | lo :: hi :: rest => toInt16 (Z.lor lo (Z.shiftl hi 8)) :: int16Elements rest
  | _ => []
  end.

(** The constructor raises a RangeError when the byte length of the buffer
    is not a multiple of the element size. *)
Definition newInt16Array (buffer : list Z) : result (list Z) :=
  if Z.of_nat (length buffer) mod 2 =? 0 then Ok (int16Elements buffer)
  else Throw (PlatformError RangeErrorTypedArray).

(** *** Numbers: IEEE 754 binary64, and binary32 in a [Float32Array] *)

Definition numberOfZ (z : Z) : spec_float := binary_normalize 53 1024 z 0 false.

Definition divide (x y : spec_float) : spec_float := SFdiv 53 1024 x y.

(** The rounding a [Float32Array] store applies to the number it is given. *)
Definition fround (x : spec_float) : spec_float :=
  match x with
  | S754_finite s m e => binary_round 24 128 s m e
  | _ => x
  end.

(** The rational a finite float stands for. *)
Definition floatValue (x : spec_float) : option Q :=
  match x with
  | S754_zero _ => Some 0%Q
  | S754_finite s m e => Some (inject_Z (cond_Zopp s (Z.pos m)) * Qpower 2 e)%Q
  | _ => None
  end.

(** An element read from a typed array as a number; reading outside the
    array gives [undefined], which arithmetic turns into NaN. *)
Definition elementNumber (o : option Z) : spec_float :=
  match o with
  | Some v => numberOfZ v
  | None => S754_nan
  end.

(** *** Audio buffers and the audio context *)

Record AudioBuffer := {
  bufferSampleRate : Z;
  channels : list (list spec_float);   (* one Float32Array per channel *)
}.

Record AudioContext := {
  ctxId : nat;            (* identity of the instance *)
  ctxSampleRate : Z;
}.

(** What the browser decides: whether [createBuffer] allocates a buffer for
    the channel count, length and rate it is given or raises, and the text
    of the messages of the exceptions it raises itself. *)
Record Platform := {
  createBuffer : AudioContext -> Z -> Q -> Z -> result AudioBuffer;
  faultMessage : Fault -> jsstring;
}.

(** [buffer.getChannelData(channel)] *)
Definition getChannelData (buffer : AudioBuffer) (channel : nat)
  : result (list spec_float) :=
  match channels buffer !! channel with
  | Some channelData => Ok channelData
  | None => Throw (PlatformError IndexSizeError)
  end.

(** The array [getChannelData] returns is the storage of the buffer itself:
    a store into it is a store into the buffer. *)
Definition storeChannelData (buffer : AudioBuffer) (channel : nat)
    (channelData : list spec_float) : AudioBuffer :=
  {| bufferSampleRate := bufferSampleRate buffer;
     channels := <[channel := channelData]> (channels buffer) |}.

(** The number of rounds of [for (let i = 0; i < bound; i++)]: the number
    of naturals below [bound].  The quotient of two integers below 2^53
    and its double compare alike with every integer, so the bound is kept
    as an exact rational. *)
Definition rounds (bound : Q) : nat := Z.to_nat (Qceiling bound).

(** *** [decodeAudioData] (lines 18-35), for [numChannels >= 1] *)

Definition pcmFrameCount (dataInt16 : list Z) (numChannels : Z) : Q :=
  (inject_Z (Z.of_nat (length dataInt16)) / inject_Z numChannels)%Q.

Definition decodeAudioData (host : Platform) (data : list Z) (ctx : AudioContext)
    (sampleRate numChannels : Z) : result AudioBuffer :=
  dataInt16 ← newInt16Array data;
  let frameCount := pcmFrameCount dataInt16 numChannels in
  buffer ← createBuffer host ctx numChannels frameCount sampleRate;
  forRange (seq 0 (Z.to_nat numChannels))
    (fun channel buffer =>
       channelData ← getChannelData buffer channel;
       let channelData :=
         fold_left
           (fun channelData i =>
              <[i := fround (divide
                       (elementNumber
                          (dataInt16 !! Z.to_nat (Z.of_nat i * numChannels + Z.of_nat channel)))
                       (numberOfZ 32768))]> channelData)
           (seq 0 (rounds frameCount)) channelData in
       Ok (storeChannelData buffer channel channelData))
    buffer.

(** A browser that follows the Web Audio standard with the smallest
    nominal ranges it allows: up to 32 channels, at least one frame, rates
    from 8000 to 96000 Hz.  The length goes through the conversion to
    [unsigned long], which truncates. *)
Definition silentBuffer (numChannels length sampleRate : Z) : AudioBuffer :=
  {| bufferSampleRate := sampleRate;
     channels := replicate (Z.to_nat numChannels)
                   (replicate (Z.to_nat length) (S754_zero false)) |}.

Definition standardCreateBuffer (ctx : AudioContext) (numChannels : Z)
    (length : Q) (sampleRate : Z) : result AudioBuffer :=
  let length := Qfloor length in
  if (1 <=? numChannels) && (numChannels <=? 32) && (1 <=? length)
     && (8000 <=? sampleRate) && (sampleRate <=? 96000)
  then Ok (silentBuffer numChannels length sampleRate)
  else Throw (PlatformError NotSupportedError).

Definition standardBrowser : Platform :=
  {| createBuffer := standardCreateBuffer;
     faultMessage := fun f =>
       match f with
       | InvalidCharacterError => lit "The string to be decoded is not correctly encoded."
       | RangeErrorTypedArray => lit "byte length of Int16Array should be a multiple of 2"
       | RangeErrorDataView => lit "Offset is outside the bounds of the DataView"
       | IndexSizeError => lit "channel index is out of range"
       | NotSupportedError => lit "The number of frames provided is not supported"
       end |}.

(* ================================================================= *)
(** ** The speech service (services/geminiService.ts, [generateSpeech]) *)

(** Modelled from the spec: the enum [VoiceOption] of the module ./types,
    which is not part of the sources at hand: six named voices.
    [UnknownVoice] stands for any other value met at run time, which the
    switch sends to its default branch. *)
Inductive VoiceOption := ADAM | LAYLA | YUSUF | NORA | OMAR | HAMZA | UnknownVoice.

Record SpeechRequest := {
  reqModel : string;
  reqText : jsstring;
  reqVoiceName : string;
}.

(** The remote call [ai.models.generateContent]: it raises, or answers with
    a response of which only
    [candidates?.[0]?.content?.parts?.[0]?.inlineData?.data] is read,
    [None] when that path is undefined. *)
Definition Network := SpeechRequest -> result (option jsstring).

Definition voicePreset (voice : VoiceOption) (text : jsstring) : string * jsstring :=
  match voice with
  | ADAM => ("Kore"%string,
      lit "Speak as a man with a confident, natural, and high-quality human-like voice, at a conversational pace: " ++ text)
  | LAYLA => ("Zephyr"%string,
      lit "Speak as a woman with a warm, natural, and high-quality human-like voice, at a conversational pace: " ++ text)
  | YUSUF => ("Fenrir"%string,
      lit "As a young man, speak with a bright, friendly, energetic, and clear voice. Your voice should be high-quality and human-like, at a natural, conversational pace: " ++ text)
  | NORA => ("Puck"%string,
      lit "Speak naturally as a young girl with a clear, high-quality, and human-like voice, at a conversational pace: " ++ text)
  | OMAR => ("Charon"%string,
      lit "Speak as a young man with a calm, friendly, and high-quality human-like voice, at a conversational pace: " ++ text)
  | HAMZA => ("Fenrir"%string,
      lit "As a mature man, speak with a very deep, resonant, charismatic, and high-quality human-like voice. Your tone should be calm and commanding, and your pace should be natural and conversational: " ++ text)
  | UnknownVoice => ("Puck"%string,
      lit "Speak in a friendly, natural, high-quality, and human-like voice, at a conversational pace: " ++ text)
  end.

(** The result of the call together with what it wrote with
    [console.error].  Whatever is thrown inside the [try] is logged and
    replaced by one fixed [Error]. *)
Definition generateSpeech (net : Network) (text : jsstring) (voice : VoiceOption)
  : result jsstring * list Thrown :=
  let '(effectiveVoice, processedText) := voicePreset voice text in
  let attempt :=
    response ← net {| reqModel := "gemini-2.5-flash-preview-tts";
                      reqText := processedText;
                      reqVoiceName := effectiveVoice |};
    match response with
    | Some (c :: rest) => Ok (c :: rest)
    | _ => Throw (ErrorObject (lit "Could not generate audio data."))
    end in
  match attempt with
  | Ok base64Audio => (Ok base64Audio, [])
  | Throw error => (Throw (ErrorObject (lit "Failed to generate speech.")), [error])
  end.

(* ================================================================= *)
(** ** The component [App] (App.tsx, lines 76-185) *)

Inductive Language := Ar | En.

(** Modelled from the spec: the keys of the table ./translations that the
    handlers below look up; the table itself is a parameter. *)
Inductive TKey := errorEnterText | errorPrefix | errorUnknown.

Definition keyName (key : TKey) : jsstring :=
  match key with
  | errorEnterText => lit "errorEnterText"
  | errorPrefix => lit "errorPrefix"
  | errorUnknown => lit "errorUnknown"
  end.

Definition Translations := Language -> TKey -> jsstring.

(** [translations[language][key] || key] *)
Definition t (translations : Translations) (language : Language) (key : TKey)
  : jsstring :=
  match translations language key with
  | [] => keyName key
  | s => s
  end.

(** White space and line terminators of ECMAScript, which [trim] strips. *)
Definition isWhiteSpace (c : Z) : bool :=
  ((9 <=? c) && (c <=? 13)) || (c =? 32) || (c =? 160) || (c =? 5760)
  || ((8192 <=? c) && (c <=? 8202)) || (c =? 8232) || (c =? 8233)
  || (c =? 8239) || (c =? 8287) || (c =? 12288) || (c =? 65279).

Fixpoint trimStart (s : jsstring) : jsstring :=
  match s with
  | c :: rest => if isWhiteSpace c then trimStart rest else s
  | [] => []
  end.

Definition trim (s : jsstring) : jsstring :=
  reverse (trimStart (reverse (trimStart s))).

(** [!s] for a string [s] *)
Definition isEmpty (s : jsstring) : bool :=
  match s with [] => true | _ => false end.

(** The state of the component: the [useState] cells the audio handlers
    read and write, and the [useRef] cell holding the audio context. *)
Record AppState := {
  text : jsstring;
  selectedVoice : VoiceOption;
  isLoading : bool;
  error : option jsstring;
  language : Language;
  audioUrl : option nat;
  audioBuffer : option AudioBuffer;
  audioContextRef : option AudioContext;
}.

(** Object URLs are numbered; what was done with them is kept in order. *)
Inductive UrlOp :=
  | Create (url : nat) (blob : Blob)
  | Revoke (url : nat).

(** The browser around the component. *)
Record World := {
  urlLog : list UrlOp;                  (* createObjectURL / revokeObjectURL *)
  contexts : list AudioContext;         (* every AudioContext constructed *)
  suspended : gset nat;                 (* contexts whose state is 'suspended' *)
  resumed : list nat;                   (* calls of resume(), by context *)
  started : list (nat * AudioBuffer);   (* sources started: context, buffer *)
  console : list Thrown;                (* console.error *)
}.

(** The URLs registered and not revoked after a sequence of operations. *)
Definition liveUrls (log : list UrlOp) : gset nat :=
  fold_left (fun live op =>
               match op with
               | Create url _ => {[url]} ∪ live
               | Revoke url => live ∖ {[url]}
               end) log ∅.

(** A handler runs on the state and the world and ends normally or by
    throwing; what it changed before throwing stays changed. *)
Definition Handler (A : Type) : Type :=
  AppState * World -> result A * (AppState * World).

#[global] Instance handler_ret : MRet Handler := fun A a σ => (Ok a, σ).

#[global] Instance handler_bind : MBind Handler := fun A B k m σ =>
  match m σ with
  | (Ok a, σ') => k a σ'
  | (Throw e, σ') => (Throw e, σ')
  end.

Definition liftResult {A} (r : result A) : Handler A := fun σ => (r, σ).

Definition readState : Handler AppState := fun σ => (Ok σ.1, σ).

Definition readWorld : Handler World := fun σ => (Ok σ.2, σ).

Definition modifyState (f : AppState -> AppState) : Handler unit :=
  fun σ => (Ok tt, (f σ.1, σ.2)).

Definition modifyWorld (f : World -> World) : Handler unit :=
  fun σ => (Ok tt, (σ.1, f σ.2)).

(** [try { body } catch (e) { handler e } finally { final }] *)
Definition tryCatchFinally (body : Handler unit) (handler : Thrown -> Handler unit)
    (final : Handler unit) : Handler unit := fun σ =>
  let '(r, σ) := match body σ with
                 | (Ok a, σ') => (Ok a, σ')
                 | (Throw e, σ') => handler e σ'
                 end in
  match final σ with
  | (Ok _, σ') => (r, σ')
  | (Throw e, σ') => (Throw e, σ')
  end.

(** *** The browser operations the handlers use *)

Definition revokeObjectURL (url : nat) : Handler unit :=
  modifyWorld (fun w =>
    {| urlLog := urlLog w ++ [Revoke url]; contexts := contexts w;
       suspended := suspended w; resumed := resumed w; started := started w;
       console := console w |}).

(** Every URL made is new: it is numbered by the operations before it. *)
Definition createObjectURL (blob : Blob) : Handler nat := fun σ =>
  let w := σ.2 in
  let url := length (urlLog w) in
  (Ok url,
   (σ.1, {| urlLog := urlLog w ++ [Create url blob]; contexts := contexts w;
            suspended := suspended w; resumed := resumed w; started := started w;
            console := console w |})).

Definition consoleError (entries : list Thrown) : Handler unit :=
  modifyWorld (fun w =>
    {| urlLog := urlLog w; contexts := contexts w;
       suspended := suspended w; resumed := resumed w; started := started w;
       console := console w ++ entries |}).

(** [new AudioContext({ sampleRate })]: a new instance, whose state is
    'suspended' until the browser lets it run. *)
Definition newAudioContext (sampleRate : Z) : Handler AudioContext := fun σ =>
  let w := σ.2 in
  let ctx := {| ctxId := length (contexts w); ctxSampleRate := sampleRate |} in
  (Ok ctx,
   (σ.1, {| urlLog := urlLog w; contexts := contexts w ++ [ctx];
            suspended := {[ctxId ctx]} ∪ suspended w; resumed := resumed w;
            started := started w; console := console w |})).

Definition resume (ctx : AudioContext) : Handler unit :=
  modifyWorld (fun w =>
    {| urlLog := urlLog w; contexts := contexts w;
       suspended := suspended w; resumed := resumed w ++ [ctxId ctx];
       started := started w; console := console w |}).

(** [createBufferSource], [source.buffer = buffer], [connect], [start] *)
Definition startSource (ctx : AudioContext) (buffer : AudioBuffer) : Handler unit :=
  modifyWorld (fun w =>
    {| urlLog := urlLog w; contexts := contexts w;
       suspended := suspended w; resumed := resumed w;
       started := started w ++ [(ctxId ctx, buffer)]; console := console w |}).

(** *** The state setters *)

Definition setIsLoading (v : bool) : Handler unit :=
  modifyState (fun s =>
    {| text := text s; selectedVoice := selectedVoice s; isLoading := v;
       error := error s; language := language s; audioUrl := audioUrl s;
       audioBuffer := audioBuffer s; audioContextRef := audioContextRef s |}).

Definition setError (v : option jsstring) : Handler unit :=
  modifyState (fun s =>
    {| text := text s; selectedVoice := selectedVoice s; isLoading := isLoading s;
       error := v; language := language s; audioUrl := audioUrl s;
       audioBuffer := audioBuffer s; audioContextRef := audioContextRef s |}).

Definition setAudioBuffer (v : option AudioBuffer) : Handler unit :=
  modifyState (fun s =>
    {| text := text s; selectedVoice := selectedVoice s; isLoading := isLoading s;
       error := error s; language := language s; audioUrl := audioUrl s;
       audioBuffer := v; audioContextRef := audioContextRef s |}).

Definition setAudioContextRef (v : option AudioContext) : Handler unit :=
  modifyState (fun s =>
    {| text := text s; selectedVoice := selectedVoice s; isLoading := isLoading s;
       error := error s; language := language s; audioUrl := audioUrl s;
       audioBuffer := audioBuffer s; audioContextRef := v |}).

(** [setAudioUrl], with the effect of lines 100-106 that depends on
    [audioUrl]: once the value has changed, the cleanup of the previous
    render revokes the previous URL. *)
Definition setAudioUrl (v : option nat) : Handler unit :=
  previous ← readState;
  modifyState (fun s =>
    {| text := text s; selectedVoice := selectedVoice s; isLoading := isLoading s;
       error := error s; language := language s; audioUrl := v;
       audioBuffer := audioBuffer s; audioContextRef := audioContextRef s |});;
  match audioUrl previous with
  | Some url =>
      if bool_decide (audioUrl previous = v) then mret tt else revokeObjectURL url
  | None => mret tt
  end.

(** [e instanceof Error ? `${t('errorPrefix')} ${e.message}` : t('errorUnknown')] *)
Definition errorText (host : Platform) (tr : Translations) (lang : Language)
    (e : Thrown) : jsstring :=
  match e with
  | PlatformError f => t tr lang errorPrefix ++ lit " " ++ faultMessage host f
  | ErrorObject message => t tr lang errorPrefix ++ lit " " ++ message
  | NonError => t tr lang errorUnknown
  end.

(** *** [handleGenerate] (lines 130-171) *)

(** The callback reads [text], [selectedVoice], [language] and [audioUrl]
    as they were rendered when it is called; one call runs from the click
    to the end of [finally], the answer of the remote service being the
    argument [net].  (The button is disabled while [isLoading] holds, so
    calls do not overlap.)  The two parts of a call, before and after the
    [await] of line 151, are [handleGenerateRequest] and
    [handleGenerateAnswer] below. *)
Definition handleGenerate (host : Platform) (tr : Translations) (net : Network)
  : Handler unit :=
  rendered ← readState;
  if isEmpty (trim (text rendered)) then
    setError (Some (t tr (language rendered) errorEnterText))
  else
    setIsLoading true;;
    setError None;;
    match audioUrl rendered with
    | Some url => revokeObjectURL url
    | None => mret tt
    end;;
    setAudioUrl None;;
    setAudioBuffer None;;
    tryCatchFinally
      (audioContext ←
         (current ← readState;
          match audioContextRef current with
          | Some ctx => mret ctx
          | None => ctx ← newAudioContext 24000;
                    setAudioContextRef (Some ctx);;
                    mret ctx
          end);
       base64Audio ←
         (let '(r, logged) :=
            generateSpeech net (text rendered) (selectedVoice rendered) in
          consoleError logged;; liftResult r);
       audioBytes ← liftResult (decode base64Audio);
       dataInt16 ← liftResult (newInt16Array audioBytes);
       wavBlob ← liftResult (createWavBlob dataInt16 24000);
       url ← createObjectURL wavBlob;
       setAudioUrl (Some url);;
       buffer ← liftResult (decodeAudioData host audioBytes audioContext 24000 1);
       setAudioBuffer (Some buffer))
      (fun e =>
         consoleError [e];;
         setError (Some (errorText host tr (language rendered) e)))
      (setIsLoading false).

(** *** [handlePlay] (lines 173-185) *)

Definition handlePlay : Handler unit :=
  rendered ← readState;
  match audioBuffer rendered, audioContextRef rendered with
  | Some audioBuffer, Some audioContext =>
      world ← readWorld;
      (if bool_decide (ctxId audioContext ∈ suspended world)
       then resume audioContext else mret tt);;
      startSource audioContext audioBuffer
  | _, _ => mret tt
  end.

(** *** The component when it is mounted *)

Definition initialState : AppState :=
  {| text := []; selectedVoice := NORA; isLoading := false; error := None;
     language := Ar; audioUrl := None; audioBuffer := None;
     audioContextRef := None |}.

Definition initialWorld : World :=
  {| urlLog := []; contexts := []; suspended := ∅; resumed := [];
     started := []; console := [] |}.

(** A table of messages and a remote service, for concrete runs. *)
Definition english : Translations := fun _ key =>
  match key with
  | errorEnterText => lit "Please enter some text."
  | errorPrefix => lit "Error:"
  | errorUnknown => lit "An unknown error occurred."
  end.

Definition answering (base64 : string) : Network := fun _ => Ok (Some (lit base64)).

(* ================================================================= *)
(** ** Notions the properties are stated with *)

(** The 44 bytes [createWavBlob] writes in front of the samples. *)
Definition wavHeader (dataSize sampleRate : Z) : list Z :=
  lit "RIFF" ++ le32 (36 + dataSize) ++ lit "WAVE" ++ lit "fmt "
  ++ le32 16 ++ le16 1 ++ le16 1 ++ le32 sampleRate ++ le32 (sampleRate * 2)
  ++ le16 2 ++ le16 16 ++ lit "data" ++ le32 dataSize.

(** The header of section 4.3 of the specification, field by field. *)
Definition wavHeaderFields (bytes : list Z) (numChannels sampleRate dataSize : Z)
  : Prop :=
  take 4 bytes = lit "RIFF"
  /\ getUint32 bytes 4 = 36 + dataSize
  /\ take 4 (drop 8 bytes) = lit "WAVE"
  /\ take 4 (drop 12 bytes) = lit "fmt "
  /\ getUint32 bytes 16 = 16
  /\ getUint16 bytes 20 = 1
  /\ getUint16 bytes 22 = numChannels
  /\ getUint32 bytes 24 = sampleRate
  /\ getUint32 bytes 28 = sampleRate * numChannels * 2
  /\ getUint16 bytes 32 = numChannels * 2
  /\ getUint16 bytes 34 = 16
  /\ take 4 (drop 36 bytes) = lit "data"
  /\ getUint32 bytes 40 = dataSize.

(** An [Int16Array] holds signed 16-bit integers. *)
Definition validPcm (pcmData : list Z) : Prop :=
  Forall (fun v => -32768 <= v < 32768) pcmData.

(** [n] samples of silence. *)
Definition silence (n : Z) : list Z := replicate (Z.to_nat n) 0.

(** A [Uint8Array] holds bytes. *)
Definition validBytes (data : list Z) : Prop :=
  Forall (fun b => 0 <= b < 256) data.

(** The float a sample becomes in a channel: the quotient by 32768.0,
    rounded to binary32 by the store. *)
Definition sampleFloat (v : Z) : spec_float :=
  fround (divide (numberOfZ v) (numberOfZ 32768)).

(** 1.0 and -1.0 in binary32. *)
Definition float32One : spec_float := S754_finite false 8388608 (-23).
Definition float32MinusOne : spec_float := S754_finite true 8388608 (-23).

(** A sample becomes exactly its quotient by 32768, a float from -1.0
    on and below 1.0. *)
Definition sampleExact (v : Z) : bool :=
  match floatValue (sampleFloat v) with
  | Some q => Qeq_bool q (v # 32768)
  | None => false
  end
  && SFleb float32MinusOne (sampleFloat v)
  && SFltb (sampleFloat v) float32One.

(** [p] on the [n] integers from [lo] on. *)
Fixpoint allFrom (n : nat) (lo : Z) (p : Z -> bool) : bool :=
  match n with
  | O => true
  | S n => p lo && allFrom n (lo + 1) p
  end.

(** The steps of [handleGenerate] from the remote call to the conversion
    (lines 151-162), without the state they set: the blob encoded, if the
    steps got that far, and the outcome of [decodeAudioData]. *)
Definition audioChain (host : Platform) (net : Network) (text : jsstring)
    (voice : VoiceOption) (ctx : AudioContext)
  : result (Blob * result AudioBuffer) :=
  base64Audio ← (generateSpeech net text voice).1;
  audioBytes ← decode base64Audio;
  dataInt16 ← newInt16Array audioBytes;
  wavBlob ← createWavBlob dataInt16 24000;
  Ok (wavBlob, decodeAudioData host audioBytes ctx 24000 1).

(** What made the steps fail, if anything did. *)
Definition chainFailure (chain : result (Blob * result AudioBuffer))
  : option Thrown :=
  match chain with
  | Throw e => Some e
  | Ok (_, Throw e) => Some e
  | Ok (_, Ok _) => None
  end.

(** The audio context a call of [handleGenerate] works with: the one the
    ref holds or, when it holds none, the one the call constructs. *)
Definition contextInUse (s : AppState) (w : World) : AudioContext :=
  match audioContextRef s with
  | Some ctx => ctx
  | None => {| ctxId := length (contexts w); ctxSampleRate := 24000 |}
  end.

(** At no moment of a history of URL operations were two URLs live. *)
Definition neverTwoLive (log : list UrlOp) : Prop :=
  forall k, (size (liveUrls (take k log)) <= 1)%nat.

(** The URL the state holds is the one live URL, and a URL made later is
    a different one. *)
Definition urlsHeld (σ : AppState * World) : Prop :=
  liveUrls (urlLog σ.2) = match audioUrl σ.1 with
                           | Some url => {[url]}
                           | None => ∅
                           end
  /\ neverTwoLive (urlLog σ.2)
  /\ (forall url, audioUrl σ.1 = Some url -> (url < length (urlLog σ.2))%nat).

(** The audio contexts constructed so far are the one the ref holds, if it
    holds one, and it runs at 24000 Hz. *)
Definition singleContext (σ : AppState * World) : Prop :=
  contexts σ.2 = match audioContextRef σ.1 with
                 | Some ctx => [ctx]
                 | None => []
                 end
  /\ (forall ctx, audioContextRef σ.1 = Some ctx -> ctxSampleRate ctx = 24000).

(* ================================================================= *)
(** ** The story service (services/geminiService.ts, [generateStory]) *)

Record StoryRequest := {
  storyModel : string;
  storyContents : jsstring;
  storySystemInstruction : string;
}.

(** The remote call for a story: it raises, or answers with a response of
    which only [text] is read, [None] when it is undefined. *)
Definition StoryNetwork := StoryRequest -> result (option jsstring).

(** The two templates end with the prompt between double quotes (code
    unit 34); the Arabic one is given by its code units. *)
Definition storyInstruction (language : Language) (prompt : jsstring) : jsstring :=
  match language with
  | Ar => [1575; 1603; 1578; 1576; 32; 1602; 1589; 1577; 32; 1602; 1589; 1610;
           1585; 1577; 32; 1608; 1605; 1576; 1578; 1603; 1585; 1577; 32; 1576;
           1575; 1604; 1604; 1594; 1577; 32; 1575; 1604; 1593; 1585; 1576; 1610;
           1577; 32; 1593; 1606; 58; 32] ++ [34] ++ prompt ++ [34]
  | En => lit "Write a short and creative story in English about: "
            ++ [34] ++ prompt ++ [34]
  end.

(** The result of the call together with what it wrote with
    [console.error]. *)
Definition generateStory (net : StoryNetwork) (prompt : jsstring)
    (language : Language) : result jsstring * list Thrown :=
  let attempt :=
    let model := "gemini-2.5-flash"%string in
    let langInstruction := storyInstruction language prompt in
    response ← net {| storyModel := model;
                      storyContents := langInstruction;
                      storySystemInstruction :=
                        "You are a creative and engaging storyteller for all ages. Your stories should be imaginative and well-structured." |};
    match response with
    | Some (c :: rest) => Ok (trim (c :: rest))
    | _ => Throw (ErrorObject (lit "The model did not return a story."))
    end in
  match attempt with
  | Ok story => (Ok story, [])
  | Throw error => (Throw (ErrorObject (lit "Failed to generate the story.")), [error])
  end.

(* ================================================================= *)
(** ** The story tab of [App] (lines 86-89 and 108-128) *)

Inductive Mode := Tts | Story.

(** The [useState] cells of the story tab. *)
Record StoryTab := {
  mode : Mode;
  storyPrompt : jsstring;
  isStoryLoading : bool;
  storyError : option jsstring;
}.

(** Modelled from the spec: the two keys of the table ./translations that
    only the story handler looks up; their texts are a parameter. *)
Inductive StoryKey := errorEnterPrompt | errorGeneratingStory.

Definition storyKeyName (key : StoryKey) : jsstring :=
  match key with
  | errorEnterPrompt => lit "errorEnterPrompt"
  | errorGeneratingStory => lit "errorGeneratingStory"
  end.

Definition StoryTranslations := Language -> StoryKey -> jsstring.

(** [t] at a key of the story tab: [translations[language][key] || key] *)
Definition tStory (translations : StoryTranslations) (language : Language)
    (key : StoryKey) : jsstring :=
  match translations language key with
  | [] => storyKeyName key
  | s => s
  end.

Definition setStoryError (v : option jsstring) (tab : StoryTab) : StoryTab :=
  {| mode := mode tab; storyPrompt := storyPrompt tab;
     isStoryLoading := isStoryLoading tab; storyError := v |}.

Definition setIsStoryLoading (v : bool) (tab : StoryTab) : StoryTab :=
  {| mode := mode tab; storyPrompt := storyPrompt tab;
     isStoryLoading := v; storyError := storyError tab |}.

Definition setMode (v : Mode) (tab : StoryTab) : StoryTab :=
  {| mode := v; storyPrompt := storyPrompt tab;
     isStoryLoading := isStoryLoading tab; storyError := storyError tab |}.

(** [handleGenerateStory] (lines 108-128), on the cells of the story tab,
    the state of the component and the console; the answer of the remote
    service is the argument [net].  The two parts of a call, before and
    after the [await] of line 119, are [handleGenerateStoryRequest] and
    [handleGenerateStoryAnswer] below. *)
Definition handleGenerateStory (host : Platform) (tr : Translations)
    (str : StoryTranslations) (net : StoryNetwork)
    (σ : StoryTab * AppState * list Thrown) : StoryTab * AppState * list Thrown :=
  let '(tab, s, console) := σ in
  if isEmpty (trim (storyPrompt tab)) then
    (setStoryError (Some (tStory str (language s) errorEnterPrompt)) tab, s, console)
  else
    let tab := setIsStoryLoading true tab in
    let tab := setStoryError None tab in
    let s := {| text := text s; selectedVoice := selectedVoice s;
                isLoading := isLoading s; error := None;
                language := language s; audioUrl := audioUrl s;
                audioBuffer := audioBuffer s;
                audioContextRef := audioContextRef s |} in
    let '(r, logged) := generateStory net (storyPrompt tab) (language s) in
    let console := console ++ logged in
    let '(tab, s, console) :=
      match r with
      | Ok generatedStory =>
          let s := {| text := generatedStory; selectedVoice := selectedVoice s;
                      isLoading := isLoading s; error := error s;
                      language := language s; audioUrl := audioUrl s;
                      audioBuffer := audioBuffer s;
                      audioContextRef := audioContextRef s |} in
          (setMode Tts tab, s, console)
      | Throw e =>
          let message :=
            match e with
            | PlatformError f => t tr (language s) errorPrefix ++ lit " " ++ faultMessage host f
            | ErrorObject message => t tr (language s) errorPrefix ++ lit " " ++ message
            | NonError => tStory str (language s) errorGeneratingStory
            end in
          (setStoryError (Some message) tab, s, console ++ [e])
      end in
    (setIsStoryLoading false tab, s, console).

(** The cleanup of the effect of lines 100-106 when the component is
    unmounted. *)
Definition unmount : Handler unit :=
  rendered ← readState;
  match audioUrl rendered with
  | Some url => revokeObjectURL url
  | None => mret tt
  end.

(* ================================================================= *)
(** ** The two handlers around their [await] *)

(** A call of [handleGenerate] gives control back at the [await] of line
    151 and goes on when the service has answered; other events of the
    component come in between.  What the call keeps across the [await] are
    the values of the render it was made in ([text], [selectedVoice] and
    [t], that is the language) and the local [audioContext] of line 149. *)
Record SpeechCall := {
  callText : jsstring;
  callVoice : VoiceOption;
  callLanguage : Language;
  callContext : AudioContext;
}.

(** Lines 131-151, up to the request; [None] is the early return. *)
Definition handleGenerateRequest (tr : Translations)
  : Handler (option SpeechCall) :=
  rendered ← readState;
  if isEmpty (trim (text rendered)) then
    setError (Some (t tr (language rendered) errorEnterText));;
    mret None
  else
    setIsLoading true;;
    setError None;;
    match audioUrl rendered with
    | Some url => revokeObjectURL url
    | None => mret tt
    end;;
    setAudioUrl None;;
    setAudioBuffer None;;
    audioContext ←
      (current ← readState;
       match audioContextRef current with
       | Some ctx => mret ctx
       | None => ctx ← newAudioContext 24000;
                 setAudioContextRef (Some ctx);;
                 mret ctx
       end);
    mret (Some {| callText := text rendered;
                  callVoice := selectedVoice rendered;
                  callLanguage := language rendered;
                  callContext := audioContext |}).

(** Lines 151-170, from the answer of the service on, in the mounted
    component. *)
Definition handleGenerateAnswer (host : Platform) (tr : Translations)
    (call : SpeechCall) (net : Network) : Handler unit :=
  tryCatchFinally
    (base64Audio ←
       (let '(r, logged) :=
          generateSpeech net (callText call) (callVoice call) in
        consoleError logged;; liftResult r);
     audioBytes ← liftResult (decode base64Audio);
     dataInt16 ← liftResult (newInt16Array audioBytes);
     wavBlob ← liftResult (createWavBlob dataInt16 24000);
     url ← createObjectURL wavBlob;
     setAudioUrl (Some url);;
     buffer ← liftResult (decodeAudioData host audioBytes (callContext call) 24000 1);
     setAudioBuffer (Some buffer))
    (fun e =>
       consoleError [e];;
       setError (Some (errorText host tr (callLanguage call) e)))
    (setIsLoading false).

(** The same lines once the component is unmounted: React ignores the
    state setters of an unmounted component and renders it no more, so no
    effect cleanup runs; what is left is what the lines do to the
    browser. *)
Definition handleGenerateAnswerUnmounted (host : Platform) (call : SpeechCall)
    (net : Network) : Handler unit :=
  tryCatchFinally
    (base64Audio ←
       (let '(r, logged) :=
          generateSpeech net (callText call) (callVoice call) in
        consoleError logged;; liftResult r);
     audioBytes ← liftResult (decode base64Audio);
     dataInt16 ← liftResult (newInt16Array audioBytes);
     wavBlob ← liftResult (createWavBlob dataInt16 24000);
     url ← createObjectURL wavBlob;
     buffer ← liftResult (decodeAudioData host audioBytes (callContext call) 24000 1);
     mret tt)
    (fun e => consoleError [e])
    (mret tt).

(** A call of [handleGenerateStory] keeps [storyPrompt], [language] and
    [t] of its render across the [await] of line 119. *)
Record StoryCall := {
  storyCallPrompt : jsstring;
  storyCallLanguage : Language;
}.

(** Lines 109-119, up to the request; [None] is the early return. *)
Definition handleGenerateStoryRequest (str : StoryTranslations)
    (σ : StoryTab * AppState) : StoryTab * AppState * option StoryCall :=
  let '(tab, s) := σ in
  if isEmpty (trim (storyPrompt tab)) then
    (setStoryError (Some (tStory str (language s) errorEnterPrompt)) tab, s, None)
  else
    let call := {| storyCallPrompt := storyPrompt tab;
                   storyCallLanguage := language s |} in
    let tab := setIsStoryLoading true tab in
    let tab := setStoryError None tab in
    let s := {| text := text s; selectedVoice := selectedVoice s;
                isLoading := isLoading s; error := None;
                language := language s; audioUrl := audioUrl s;
                audioBuffer := audioBuffer s;
                audioContextRef := audioContextRef s |} in
    (tab, s, Some call).

(** Lines 119-127, from the answer of the service on, in the mounted
    component. *)
Definition handleGenerateStoryAnswer (host : Platform) (tr : Translations)
    (str : StoryTranslations) (call : StoryCall) (net : StoryNetwork)
    (σ : StoryTab * AppState * list Thrown) : StoryTab * AppState * list Thrown :=
  let '(tab, s, console) := σ in
  let '(r, logged) :=
    generateStory net (storyCallPrompt call) (storyCallLanguage call) in
  let console := console ++ logged in
  let '(tab, s, console) :=
    match r with
    | Ok generatedStory =>
        let s := {| text := generatedStory; selectedVoice := selectedVoice s;
                    isLoading := isLoading s; error := error s;
                    language := language s; audioUrl := audioUrl s;
                    audioBuffer := audioBuffer s;
                    audioContextRef := audioContextRef s |} in
        (setMode Tts tab, s, console)
    | Throw e =>
        let message :=
          match e with
          | PlatformError f =>
              t tr (storyCallLanguage call) errorPrefix ++ lit " " ++ faultMessage host f
          | ErrorObject message =>
              t tr (storyCallLanguage call) errorPrefix ++ lit " " ++ message
          | NonError => tStory str (storyCallLanguage call) errorGeneratingStory
          end in
        (setStoryError (Some message) tab, s, console ++ [e])
    end in
  (setIsStoryLoading false tab, s, console).

(** The same lines once the component is unmounted: only the console is
    written. *)
Definition handleGenerateStoryAnswerUnmounted (call : StoryCall)
    (net : StoryNetwork) (console : list Thrown) : list Thrown :=
  let '(r, logged) :=
    generateStory net (storyCallPrompt call) (storyCallLanguage call) in
  let console := console ++ logged in
  match r with
  | Ok _ => console
  | Throw e => console ++ [e]
  end.

(* ================================================================= *)
(** ** The life of the component *)

(** The component between two events.  JavaScript runs one task at a time:
    a handler runs from its event to its [await], or to its end, and what
    follows the [await] runs when the service has answered, other events
    coming in between but not in the middle of either part.  The state a
    part sets is taken as rendered before the next event.  (An unmount that
    comes after the answer but before React has rendered what the answer
    set does to the browser what an unmount before the answer does: the
    cleanup finds the [audioUrl] of the last render, which is null, and the
    setters are dropped; it is that sequence of events here.)  The record
    holds the state cells, the browser, whether the component is still
    mounted, and the calls of the two asynchronous handlers that await
    their service. *)
Record Component := {
  appState : AppState;
  storyTab : StoryTab;
  browser : World;
  isMounted : bool;
  speechCall : option SpeechCall;
  storyCall : option StoryCall;
}.

(** What the user and the outside do.  The controls are those of the
    render (lines 187-366): a control that is not rendered, or is disabled,
    delivers no event. *)
Inductive Event :=
  | TextTyped (text : jsstring)            (* line 284 *)
  | VoiceChosen (voice : VoiceOption)      (* line 297 *)
  | LanguageChosen (language : Language)   (* line 197 *)
  | ModeChosen (mode : Mode)               (* lines 211 and 221 *)
  | StoryPromptTyped (prompt : jsstring)   (* line 246 *)
  | GenerateClicked                        (* line 311 *)
  | SpeechAnswered (net : Network)         (* the speech service settles *)
  | GenerateStoryClicked                   (* line 251 *)
  | StoryAnswered (net : StoryNetwork)     (* the story service settles *)
  | PlayClicked                            (* line 325 *)
  | Unmounted                              (* React unmounts the component *)
  | ContextRuns (id : nat)          (* the browser starts or resumes a context *)
  | ContextSuspends (id : nat).     (* the browser suspends a context *)

Definition initialTab : StoryTab :=
  {| mode := Tts; storyPrompt := []; isStoryLoading := false; storyError := None |}.

Definition initialComponent : Component :=
  {| appState := initialState; storyTab := initialTab; browser := initialWorld;
     isMounted := true; speechCall := None; storyCall := None |}.

(** [mode === m], the condition under which the controls of a tab are
    rendered (lines 234 and 272). *)
Definition shows (m : Mode) (tab : StoryTab) : bool :=
  match m, mode tab with
  | Tts, Tts | Story, Story => true
  | _, _ => false
  end.

(** The [disabled] attributes of the three buttons (lines 312, 326, 252). *)
Definition generateDisabled (s : AppState) : bool :=
  isLoading s || isEmpty (trim (text s)).

Definition playDisabled (s : AppState) : bool :=
  isLoading s || match audioBuffer s with Some _ => false | None => true end.

Definition generateStoryDisabled (tab : StoryTab) : bool :=
  isStoryLoading tab || isEmpty (trim (storyPrompt tab)).

(** The component with other state cells and another browser. *)
Definition withState (c : Component) (σ : AppState * World) : Component :=
  {| appState := σ.1; storyTab := storyTab c; browser := σ.2;
     isMounted := isMounted c; speechCall := speechCall c;
     storyCall := storyCall c |}.

Definition step (host : Platform) (tr : Translations) (str : StoryTranslations)
    (ev : Event) (c : Component) : Component :=
  let s := appState c in
  let tab := storyTab c in
  let w := browser c in
  match ev with
  | TextTyped v =>
      if isMounted c && shows Tts tab && negb (isLoading s) then
        withState c
          ({| text := v; selectedVoice := selectedVoice s; isLoading := isLoading s;
              error := error s; language := language s; audioUrl := audioUrl s;
              audioBuffer := audioBuffer s; audioContextRef := audioContextRef s |}, w)
      else c
  | VoiceChosen v =>
      if isMounted c && shows Tts tab && negb (isLoading s) then
        withState c
          ({| text := text s; selectedVoice := v; isLoading := isLoading s;
              error := error s; language := language s; audioUrl := audioUrl s;
              audioBuffer := audioBuffer s; audioContextRef := audioContextRef s |}, w)
      else c
  | LanguageChosen v =>
      if isMounted c then
        withState c
          ({| text := text s; selectedVoice := selectedVoice s;
              isLoading := isLoading s;
              error := error s; language := v; audioUrl := audioUrl s;
              audioBuffer := audioBuffer s; audioContextRef := audioContextRef s |}, w)
      else c
  | ModeChosen v =>
      if isMounted c then
        {| appState := s; storyTab := setMode v tab; browser := w;
           isMounted := isMounted c; speechCall := speechCall c;
           storyCall := storyCall c |}
      else c
  | StoryPromptTyped v =>
      if isMounted c && shows Story tab && negb (isStoryLoading tab) then
        {| appState := s;
           storyTab := {| mode := mode tab; storyPrompt := v;
                          isStoryLoading := isStoryLoading tab;
                          storyError := storyError tab |};
           browser := w; isMounted := isMounted c; speechCall := speechCall c;
           storyCall := storyCall c |}
      else c
  | GenerateClicked =>
      if isMounted c && shows Tts tab && negb (generateDisabled s) then
        let '(r, σ) := handleGenerateRequest tr (s, w) in
        {| appState := σ.1; storyTab := tab; browser := σ.2;
           isMounted := isMounted c;
           speechCall := match r with
                         | Ok (Some call) => Some call
                         | _ => speechCall c
                         end;
           storyCall := storyCall c |}
      else c
  | SpeechAnswered net =>
      match speechCall c with
      | Some call =>
          let σ := if isMounted c
                   then (handleGenerateAnswer host tr call net (s, w)).2
                   else (handleGenerateAnswerUnmounted host call net (s, w)).2 in
          {| appState := σ.1; storyTab := tab; browser := σ.2;
             isMounted := isMounted c; speechCall := None;
             storyCall := storyCall c |}
      | None => c
      end
  | GenerateStoryClicked =>
      if isMounted c && shows Story tab && negb (generateStoryDisabled tab) then
        let '(tab, s, call) := handleGenerateStoryRequest str (tab, s) in
        {| appState := s; storyTab := tab; browser := w;
           isMounted := isMounted c; speechCall := speechCall c;
           storyCall := match call with
                        | Some call => Some call
                        | None => storyCall c
                        end |}
      else c
  | StoryAnswered net =>
      match storyCall c with
      | Some call =>
          let '(tab, s, console) :=
            if isMounted c
            then handleGenerateStoryAnswer host tr str call net (tab, s, console w)
            else (tab, s, handleGenerateStoryAnswerUnmounted call net (console w)) in
          {| appState := s; storyTab := tab;
             browser := {| urlLog := urlLog w; contexts := contexts w;
                           suspended := suspended w; resumed := resumed w;
                           started := started w; console := console |};
             isMounted := isMounted c; speechCall := speechCall c;
             storyCall := None |}
      | None => c
      end
  | PlayClicked =>
      if isMounted c && shows Tts tab && negb (playDisabled s) then
        withState c (handlePlay (s, w)).2
      else c
  | Unmounted =>
      if isMounted c then
        {| appState := s; storyTab := tab; browser := (unmount (s, w)).2.2;
           isMounted := false; speechCall := speechCall c;
           storyCall := storyCall c |}
      else c
  | ContextRuns id =>
      withState c
        (s, {| urlLog := urlLog w; contexts := contexts w;
               suspended := suspended w ∖ {[id]}; resumed := resumed w;
               started := started w; console := console w |})
  | ContextSuspends id =>
      withState c
        (s, {| urlLog := urlLog w; contexts := contexts w;
               suspended := {[id]} ∪ suspended w; resumed := resumed w;
               started := started w; console := console w |})
  end.

Definition run (host : Platform) (tr : Translations) (str : StoryTranslations)
    (events : list Event) (c : Component) : Component :=
  fold_left (fun c ev => step host tr str ev c) events c.

(** A table of messages of the story tab, for concrete runs. *)
Definition englishStory : StoryTranslations := fun _ key =>
  match key with
  | errorEnterPrompt => lit "Please enter a prompt for the story."
  | errorGeneratingStory => lit "An error occurred while generating the story."
  end.

(** In a state a sequence of events leads to, a playback buffer comes with
    its download URL and the audio context. *)
Definition outputsTogether (s : AppState) : Prop :=
  audioBuffer s <> None -> audioUrl s <> None /\ audioContextRef s <> None.

(** [isLoading] tells that a call of [handleGenerate] awaits the service,
    and as long as one does the state holds neither URL nor buffer;
    [isStoryLoading] tells that a call of [handleGenerateStory] awaits the
    service. *)
Definition loadingIsPending (c : Component) : Prop :=
  (isLoading (appState c) = true <-> speechCall c <> None)
  /\ (isStoryLoading (storyTab c) = true <-> storyCall c <> None)
  /\ (speechCall c <> None ->
        audioUrl (appState c) = None /\ audioBuffer (appState c) = None).

(** What holds of a component whatever happened to it: at no moment were
    two URLs live, a buffer comes with its URL and the context, and the ref
    holds the context of the call that awaits its answer; while it is
    mounted, the one live URL is the one the state holds, and the loading
    flags tell which calls await their answer; once it is unmounted, a URL
    can only be live when no call awaits its answer any more. *)
Definition consistent (c : Component) : Prop :=
  neverTwoLive (urlLog (browser c))
  /\ outputsTogether (appState c)
  /\ (forall call, speechCall c = Some call ->
        audioContextRef (appState c) = Some (callContext call))
  /\ (isMounted c = true ->
        urlsHeld (appState c, browser c) /\ loadingIsPending c)
  /\ (isMounted c = false ->
        speechCall c = None \/ liveUrls (urlLog (browser c)) = ∅).

(* ================================================================= *)
(** * Properties *)

(** ** Little-endian bytes *)

Lemma bind_Ok {A B} (a : A) (k : A -> result B) : (x ← Ok a; k x) = k a.
Proof. reflexivity. Qed.

Lemma byteOf_div (w k : Z) : 0 <= k -> byteOf w k = (w / 2 ^ (8 * k)) mod 256.
Proof.
  intros Hk. unfold byteOf.
  rewrite Z.shiftr_div_pow2 by lia.
  change 255 with (Z.ones 8). rewrite Z.land_ones by lia. reflexivity.
Qed.

Lemma byteOf_range (w k : Z) : 0 <= k -> 0 <= byteOf w k < 256.
Proof. intros Hk. rewrite byteOf_div by lia. apply Z.mod_pos_bound. lia. Qed.

Lemma lor_shiftl_byte (b x : Z) :
  0 <= b < 256 -> Z.lor b (Z.shiftl x 8) = b + 256 * x.
Proof.
  intros Hb. rewrite Z.shiftl_mul_pow2 by lia.
  symmetry. replace (256 * x) with (x * 2 ^ 8) by lia.
  apply Z.add_nocarry_lor.
  apply Z.bits_inj'. intros n Hn.
  rewrite Z.land_spec, Z.bits_0.
  destruct (Z.lt_ge_cases n 8) as [Hlt | Hge].
  - rewrite Z.mul_pow2_bits_low by lia. apply andb_false_r.
  - replace b with (b mod 2 ^ 8) by (apply Z.mod_small; lia).
    rewrite Z.mod_pow2_bits_high by lia. reflexivity.
Qed.

Lemma leCombine_le16 (w : Z) : leCombine (le16 w) = w mod 65536.
Proof.
  unfold le16. cbn [leCombine].
  rewrite Z.shiftl_0_l, Z.lor_0_r.
  rewrite lor_shiftl_byte by (apply byteOf_range; lia).
  rewrite !byteOf_div by lia.
  change (2 ^ (8 * 0)) with 1. change (2 ^ (8 * 1)) with 256.
  rewrite Z.div_1_r.
  pose proof (Z.div_mod w 256 ltac:(lia)).
  pose proof (Z.div_mod (w / 256) 256 ltac:(lia)).
  pose proof (Z.mod_pos_bound w 256 ltac:(lia)).
  pose proof (Z.mod_pos_bound (w / 256) 256 ltac:(lia)).
  apply Z.mod_unique_pos with (q := w / 256 / 256); lia.
Qed.

Lemma leCombine_le32 (w : Z) : leCombine (le32 w) = w mod 4294967296.
Proof.
  unfold le32. cbn [leCombine].
  rewrite Z.shiftl_0_l, Z.lor_0_r.
  rewrite !lor_shiftl_byte by (apply byteOf_range; lia).
  rewrite !byteOf_div by lia.
  change (2 ^ (8 * 0)) with 1. change (2 ^ (8 * 1)) with 256.
  change (2 ^ (8 * 2)) with (256 * 256). change (2 ^ (8 * 3)) with (256 * 256 * 256).
  rewrite Z.div_1_r, <- !Z.div_div by lia.
  set (q1 := w / 256). set (q2 := q1 / 256). set (q3 := q2 / 256).
  pose proof (Z.div_mod w 256 ltac:(lia)).
  pose proof (Z.div_mod q1 256 ltac:(lia)).
  pose proof (Z.div_mod q2 256 ltac:(lia)).
  pose proof (Z.div_mod q3 256 ltac:(lia)).
  pose proof (Z.mod_pos_bound w 256 ltac:(lia)).
  pose proof (Z.mod_pos_bound q1 256 ltac:(lia)).
  pose proof (Z.mod_pos_bound q2 256 ltac:(lia)).
  pose proof (Z.mod_pos_bound q3 256 ltac:(lia)).
  fold q1 in H. fold q2 in H0. fold q3 in H1.
  apply Z.mod_unique_pos with (q := q3 / 256); lia.
Qed.

Lemma toInt16_le16 (v : Z) :
  -32768 <= v < 32768 -> toInt16 (leCombine (le16 v)) = v.
Proof.
  intros Hv. rewrite leCombine_le16. unfold toInt16.
  destruct (Z.lt_ge_cases v 0) as [Hneg | Hpos].
  - replace (v mod 65536) with (v + 65536).
    + destruct (Z.ltb_spec (v + 65536) 32768); lia.
    + apply Z.mod_unique_pos with (q := -1); lia.
  - rewrite Z.mod_small by lia.
    destruct (Z.ltb_spec v 32768); lia.
Qed.

(** ** Writing a buffer front to back *)

(** A write that starts where the bytes written so far end, into the
    zeroes that follow them. *)
Lemma setBytes_fill (written : list Z) (m : nat) (offset : Z) (bs : list Z) :
  offset = Z.of_nat (length written) ->
  (length bs <= m)%nat ->
  setBytes (written ++ replicate m 0) offset bs
  = Ok ((written ++ bs) ++ replicate (m - length bs) 0).
Proof.
  intros -> Hm. unfold setBytes.
  rewrite length_app, length_replicate.
  destruct (Z.leb_spec 0 (Z.of_nat (length written))); [|lia].
  destruct (Z.leb_spec (Z.of_nat (length written) + Z.of_nat (length bs))
              (Z.of_nat (length written + m))); [|lia].
  cbn [andb]. f_equal.
  rewrite Nat2Z.id, take_app_length.
  rewrite drop_app_add', drop_replicate by reflexivity.
  rewrite <- app_assoc. reflexivity.
Qed.

Lemma forRange_fill (chunk : nat -> list Z) (off : nat -> Z) (base width : nat) :
  (forall i, length (chunk i) = width) ->
  (forall i, off i = Z.of_nat (base + i * width)) ->
  forall (n k : nat) (written : list Z) (m : nat),
    length written = (base + k * width)%nat ->
    (n * width <= m)%nat ->
    forRange (seq k n) (fun i v => setBytes v (off i) (chunk i))
             (written ++ replicate m 0)
    = Ok ((written ++ concat (map chunk (seq k n)))
            ++ replicate (m - n * width) 0).
Proof.
  intros Hchunk Hoff n. induction n as [|n IH]; intros k written m Hlen Hm.
  - cbn [seq forRange map concat]. rewrite app_nil_r.
    replace (m - 0 * width)%nat with m by lia. reflexivity.
  - cbn [seq forRange map concat].
    assert (Hm' : (width + n * width <= m)%nat) by (simpl in Hm; exact Hm).
    rewrite setBytes_fill; [| rewrite Hoff, Hlen; reflexivity
       | rewrite Hchunk; etransitivity; [apply Nat.le_add_r | exact Hm'] ].
    rewrite bind_Ok, IH.
    + rewrite Hchunk, <- !app_assoc.
      replace (m - width - n * width)%nat with (m - S n * width)%nat
        by (cbn [Nat.mul]; lia).
      reflexivity.
    + rewrite length_app, Hchunk, Hlen. cbn [Nat.mul]. lia.
    + rewrite Hchunk. lia.
Qed.

Lemma writeString_fill (written : list Z) (m : nat) (offset : Z) (s : jsstring) :
  offset = Z.of_nat (length written) ->
  (length s <= m)%nat ->
  writeString (written ++ replicate m 0) offset s
  = Ok ((written ++ map toUint8 s) ++ replicate (m - length s) 0).
Proof.
  intros -> Hm. unfold writeString, setUint8.
  rewrite (forRange_fill (fun i => [toUint8 (charCodeAt s i)])
             (fun i => Z.of_nat (length written) + Z.of_nat i)
             (length written) 1);
    [| intros; reflexivity | intros; lia | lia | lia].
  replace (length s * 1)%nat with (length s) by lia.
  do 3 f_equal.
  clear Hm. unfold charCodeAt. induction s as [|c s IH]; [reflexivity|].
  cbn [length seq map concat app]. f_equal.
  rewrite <- fmap_S_seq, map_map. exact IH.
Qed.

Lemma samples_fill (written : list Z) (m : nat) (pcmData : list Z) :
  length written = 44%nat ->
  (length pcmData * 2 <= m)%nat ->
  forRange (seq 0 (length pcmData))
    (fun i v => setInt16 v (44 + Z.of_nat i * 2) (default 0 (pcmData !! i)))
    (written ++ replicate m 0)
  = Ok ((written ++ flat_map le16 pcmData)
          ++ replicate (m - length pcmData * 2) 0).
Proof.
  intros Hlen Hm. unfold setInt16.
  rewrite (forRange_fill (fun i => le16 (default 0 (pcmData !! i)))
             (fun i => 44 + Z.of_nat i * 2) 44 2);
    [| intros; reflexivity | intros; lia | lia | lia].
  do 3 f_equal. clear Hm.
  induction pcmData as [|v pcmData IH]; [reflexivity|].
  cbn [length seq map concat flat_map]. f_equal.
  rewrite <- fmap_S_seq, map_map. exact IH.
Qed.

(** ** The bytes of the WAV container *)

Lemma createWavBlob_bytes (pcmData : list Z) (sampleRate : Z) :
  createWavBlob pcmData sampleRate
  = Ok {| blobBytes := wavHeader (Z.of_nat (length pcmData) * 2) sampleRate
                         ++ flat_map le16 pcmData;
          blobType := "audio/wav" |}.
Proof.
  unfold createWavBlob, newArrayBuffer, setUint32, setUint16.
  replace (Z.to_nat (44 + Z.of_nat (length pcmData) * 2))
    with (44 + length pcmData * 2)%nat by lia.
  change (replicate (44 + length pcmData * 2) 0)
    with ([] ++ replicate (44 + length pcmData * 2) 0).
  repeat (first [ rewrite writeString_fill by (cbn; first [reflexivity | lia])
                | rewrite setBytes_fill by (cbn; first [reflexivity | lia]) ];
          rewrite bind_Ok).
  rewrite samples_fill by (cbn; first [reflexivity | lia]).
  rewrite bind_Ok. do 2 f_equal.
  match goal with |- context [replicate ?k 0] =>
    replace k with 0%nat by (cbn; lia) end.
  cbn [replicate]. rewrite app_nil_r. reflexivity.
Qed.

Lemma length_wavHeader (dataSize sampleRate : Z) :
  length (wavHeader dataSize sampleRate) = 44%nat.
Proof. reflexivity. Qed.

Lemma length_flat_map_le16 (pcmData : list Z) :
  length (flat_map le16 pcmData) = (length pcmData * 2)%nat.
Proof.
  induction pcmData as [|v l IH]; [reflexivity|].
  cbn [flat_map]. rewrite length_app, IH. cbn [le16 length]. lia.
Qed.

(** What the fields of the header read as: the 32-bit fields hold their
    value modulo 2^32. *)
Lemma header_reads (dataSize sampleRate : Z) (rest : list Z) :
  let bytes := wavHeader dataSize sampleRate ++ rest in
  take 4 bytes = lit "RIFF"
  /\ getUint32 bytes 4 = (36 + dataSize) mod 4294967296
  /\ take 4 (drop 8 bytes) = lit "WAVE"
  /\ take 4 (drop 12 bytes) = lit "fmt "
  /\ getUint32 bytes 16 = 16
  /\ getUint16 bytes 20 = 1
  /\ getUint16 bytes 22 = 1
  /\ getUint32 bytes 24 = sampleRate mod 4294967296
  /\ getUint32 bytes 28 = (sampleRate * 2) mod 4294967296
  /\ getUint16 bytes 32 = 2
  /\ getUint16 bytes 34 = 16
  /\ take 4 (drop 36 bytes) = lit "data"
  /\ getUint32 bytes 40 = dataSize mod 4294967296.
Proof.
  intros bytes.
  repeat split; try reflexivity.
  - change (getUint32 bytes 4) with (leCombine (le32 (36 + dataSize))).
    apply leCombine_le32.
  - change (getUint32 bytes 24) with (leCombine (le32 sampleRate)).
    apply leCombine_le32.
  - change (getUint32 bytes 28) with (leCombine (le32 (sampleRate * 2))).
    apply leCombine_le32.
  - change (getUint32 bytes 40) with (leCombine (le32 dataSize)).
    apply leCombine_le32.
Qed.

Lemma drop_flat_map_le16 (i : nat) (pcmData : list Z) :
  drop (i * 2) (flat_map le16 pcmData) = flat_map le16 (drop i pcmData).
Proof.
  revert pcmData. induction i as [|i IH]; intros [|v l]; try reflexivity.
  cbn [Nat.mul Nat.add flat_map le16 app drop]. apply IH.
Qed.

Lemma getInt16_sample (header pcmData : list Z) (i : nat) (v : Z) :
  length header = 44%nat ->
  pcmData !! i = Some v ->
  -32768 <= v < 32768 ->
  getInt16 (header ++ flat_map le16 pcmData) (44 + Z.of_nat i * 2) = v.
Proof.
  intros Hh Hi Hv. unfold getInt16, getUint16.
  replace (Z.to_nat (44 + Z.of_nat i * 2)) with (length header + i * 2)%nat by lia.
  rewrite drop_app_add', drop_flat_map_le16 by reflexivity.
  rewrite (drop_S _ _ _ Hi). cbn [flat_map le16 app take].
  apply (toInt16_le16 v Hv).
Qed.

Lemma decodeWav_samples (header pcmData : list Z) :
  length header = 44%nat ->
  validPcm pcmData ->
  map (fun i => getInt16 (header ++ flat_map le16 pcmData) (44 + Z.of_nat i * 2))
      (seq 0 (length pcmData)) = pcmData.
Proof.
  intros Hh Hvalid. apply list_eq. intros i.
  rewrite list_lookup_fmap.
  destruct (pcmData !! i) as [v|] eqn:Hi.
  - rewrite lookup_seq_lt by (eapply lookup_lt_Some; eassumption).
    cbn [fmap option_fmap option_map]. f_equal.
    apply getInt16_sample; [assumption | assumption |].
    unfold validPcm in Hvalid. rewrite Forall_lookup in Hvalid.
    exact (Hvalid i v Hi).
  - rewrite lookup_seq_ge by (apply lookup_ge_None; assumption).
    reflexivity.
Qed.

(* ================================================================= *)
(** ** The WAV encoder *)

(** C1, as amended.  For every sample sequence and every sample rate whose
    header fields fit their 32 bits (a rate below 2^31 and at most
    2^31 - 19 samples), [createWavBlob] returns a blob of type audio/wav of
    44 + dataSize bytes whose first 44 bytes are exactly the header of
    section 4.3 for one channel, every multi-byte field little-endian; the
    bytes are a function of the two arguments alone.  The empty sequence at
    24000 Hz gives exactly the 44 bytes listed, with ChunkSize 36 and
    dataSize 0. *)
Theorem wav_header_exact (pcmData : list Z) (sampleRate : Z) :
  0 < sampleRate < 2147483648 ->
  36 + Z.of_nat (length pcmData) * 2 < 4294967296 ->
  let dataSize := Z.of_nat (length pcmData) * 2 in
  exists blob,
    createWavBlob pcmData sampleRate = Ok blob
    /\ blobType blob = "audio/wav"%string
    /\ Z.of_nat (length (blobBytes blob)) = 44 + dataSize
    /\ take 44 (blobBytes blob) = wavHeader dataSize sampleRate
    /\ wavHeaderFields (blobBytes blob) 1 sampleRate dataSize
    /\ createWavBlob [] 24000
       = Ok {| blobBytes :=
                 [82; 73; 70; 70; 36; 0; 0; 0; 87; 65; 86; 69; 102; 109; 116; 32;
                  16; 0; 0; 0; 1; 0; 1; 0; 192; 93; 0; 0; 128; 187; 0; 0; 2; 0;
                  16; 0; 100; 97; 116; 97; 0; 0; 0; 0];
               blobType := "audio/wav" |}.
Proof.
  intros Hrate Hsize dataSize.
  eexists. split; [apply createWavBlob_bytes|]. cbn [blobBytes blobType].
  split; [reflexivity|]. split.
  { rewrite length_app, length_wavHeader, length_flat_map_le16. lia. }
  split.
  { rewrite take_app_length' by reflexivity. reflexivity. }
  split; [|reflexivity].
  pose proof (header_reads dataSize sampleRate (flat_map le16 pcmData)) as H.
  cbv zeta in H. unfold wavHeaderFields.
  rewrite !Z.mod_small in H by (subst dataSize; lia).
  replace (sampleRate * 1 * 2) with (sampleRate * 2) by lia.
  exact H.
Qed.

Lemma wav_header_exact_witness :
  0 < 24000 < 2147483648
  /\ 36 + Z.of_nat (length [0; 32767]) * 2 < 4294967296
  /\ exists blob,
       createWavBlob [0; 32767] 24000 = Ok blob
       /\ blobType blob = "audio/wav"%string
       /\ Z.of_nat (length (blobBytes blob)) = 44 + Z.of_nat (length [0; 32767]) * 2
       /\ take 44 (blobBytes blob) = wavHeader (Z.of_nat (length [0; 32767]) * 2) 24000
       /\ wavHeaderFields (blobBytes blob) 1 24000 (Z.of_nat (length [0; 32767]) * 2)
       /\ createWavBlob [] 24000
          = Ok {| blobBytes :=
                    [82; 73; 70; 70; 36; 0; 0; 0; 87; 65; 86; 69; 102; 109; 116; 32;
                     16; 0; 0; 0; 1; 0; 1; 0; 192; 93; 0; 0; 128; 187; 0; 0; 2; 0;
                     16; 0; 100; 97; 116; 97; 0; 0; 0; 0];
                  blobType := "audio/wav" |}.
Proof.
  split; [lia|]. split; [simpl; lia|].
  apply (wav_header_exact [0; 32767] 24000); [lia | simpl; lia].
Defined.

(** C1 as stated fails: a positive sample rate of 2^32 does not fit the
    field at offset 24, which then reads 0. *)
Lemma wav_header_rate_wraps :
  ~ (exists blob,
       createWavBlob [] 4294967296 = Ok blob
       /\ wavHeaderFields (blobBytes blob) 1 4294967296 0).
Proof.
  intros (blob & Hblob & Hfields).
  rewrite createWavBlob_bytes in Hblob. injection Hblob as <-.
  unfold wavHeaderFields in Hfields.
  destruct Hfields as (_ & _ & _ & _ & _ & _ & _ & Hrate & _).
  vm_compute in Hrate. discriminate Hrate.
Qed.

(** C2, as amended.  For every sequence [S] of 16-bit samples shorter than
    2^31 and every sample rate, the container [createWavBlob] returns holds
    the samples little-endian from offset 44 on, in order; reading it back
    gives exactly [S], and its dataSize field is [len(S) * 2]. *)
Theorem wav_roundtrip (pcmData : list Z) (sampleRate : Z) :
  validPcm pcmData ->
  Z.of_nat (length pcmData) * 2 < 4294967296 ->
  exists blob,
    createWavBlob pcmData sampleRate = Ok blob
    /\ drop 44 (blobBytes blob) = flat_map le16 pcmData
    /\ decodeWav (blobBytes blob) = pcmData
    /\ getUint32 (blobBytes blob) 40 = Z.of_nat (length pcmData) * 2.
Proof.
  intros Hvalid Hsize.
  eexists. split; [apply createWavBlob_bytes|]. cbn [blobBytes].
  set (dataSize := Z.of_nat (length pcmData) * 2).
  assert (Hfield : getUint32 (wavHeader dataSize sampleRate ++ flat_map le16 pcmData) 40
                   = dataSize).
  { pose proof (header_reads dataSize sampleRate (flat_map le16 pcmData)) as H.
    cbv zeta in H. destruct H as (_ & _ & _ & _ & _ & _ & _ & _ & _ & _ & _ & _ & H).
    rewrite H. apply Z.mod_small. subst dataSize. lia. }
  split.
  { rewrite drop_app_length' by reflexivity. reflexivity. }
  split; [|exact Hfield].
  unfold decodeWav. rewrite Hfield.
  replace (Z.to_nat (dataSize / 2)) with (length pcmData).
  - apply decodeWav_samples; [apply length_wavHeader | exact Hvalid].
  - subst dataSize. rewrite Z.div_mul by lia. lia.
Qed.

Lemma wav_roundtrip_witness :
  validPcm [0; 32767; -32768; -1]
  /\ Z.of_nat (length [0; 32767; -32768; -1]) * 2 < 4294967296
  /\ exists blob,
       createWavBlob [0; 32767; -32768; -1] 24000 = Ok blob
       /\ drop 44 (blobBytes blob) = flat_map le16 [0; 32767; -32768; -1]
       /\ decodeWav (blobBytes blob) = [0; 32767; -32768; -1]
       /\ getUint32 (blobBytes blob) 40 = Z.of_nat (length [0; 32767; -32768; -1]) * 2.
Proof.
  assert (Hvalid : validPcm [0; 32767; -32768; -1])
    by (repeat constructor; lia).
  split; [exact Hvalid|]. split; [simpl; lia|].
  apply (wav_roundtrip [0; 32767; -32768; -1] 24000); [exact Hvalid | simpl; lia].
Defined.

(** C6, as amended.  [createWavBlob] takes no channel count: the number of
    channels is fixed to 1 inside the encoder.  For every input the header
    has numChannels 1, block align 2 and, in its 32-bit field, the byte
    rate sampleRate * 2. *)
Theorem wav_header_is_mono (pcmData : list Z) (sampleRate : Z) :
  exists blob,
    createWavBlob pcmData sampleRate = Ok blob
    /\ getUint16 (blobBytes blob) 22 = 1
    /\ getUint16 (blobBytes blob) 32 = 1 * 2
    /\ getUint32 (blobBytes blob) 28 = (sampleRate * 1 * 2) mod 4294967296.
Proof.
  eexists. split; [apply createWavBlob_bytes|]. cbn [blobBytes].
  pose proof (header_reads (Z.of_nat (length pcmData) * 2) sampleRate
                (flat_map le16 pcmData)) as H.
  cbv zeta in H.
  destruct H as (_ & _ & _ & _ & _ & _ & Hch & _ & Hrate & Halign & _).
  rewrite Hch, Hrate, Halign. repeat split.
  f_equal. lia.
Qed.

(** C6 as stated fails: nothing a caller passes makes the header announce
    two channels. *)
Lemma wav_channel_count_not_taken :
  ~ (forall numChannels : Z, 1 <= numChannels ->
       forall pcmData sampleRate, exists blob,
         createWavBlob pcmData sampleRate = Ok blob
         /\ getUint16 (blobBytes blob) 22 = numChannels
         /\ getUint16 (blobBytes blob) 32 = numChannels * 2
         /\ getUint32 (blobBytes blob) 28 = sampleRate * numChannels * 2).
Proof.
  intros H.
  destruct (H 2 ltac:(lia) [] 24000) as (blob & Hblob & Hch & _).
  vm_compute in Hblob. injection Hblob as <-.
  vm_compute in Hch. discriminate Hch.
Qed.

Lemma length_silence (n : Z) : 0 <= n -> Z.of_nat (length (silence n)) = n.
Proof.
  intros Hn. unfold silence. rewrite length_replicate. apply Z2Nat.id. exact Hn.
Qed.

Lemma validPcm_silence (n : Z) : validPcm (silence n).
Proof. apply Forall_replicate. lia. Qed.

Lemma Ok_inj {A} (a b : A) : Ok a = Ok b -> a = b.
Proof. intros H. injection H as ->. reflexivity. Qed.

(** C2 as stated fails: for 2^31 samples the dataSize field, 32 bits wide,
    reads 0 and not 2^32. *)
Lemma wav_roundtrip_size_wraps :
  validPcm (silence 2147483648)
  /\ ~ (exists blob,
          createWavBlob (silence 2147483648) 24000 = Ok blob
          /\ decodeWav (blobBytes blob) = silence 2147483648
          /\ getUint32 (blobBytes blob) 40
             = Z.of_nat (length (silence 2147483648)) * 2).
Proof.
  split; [apply validPcm_silence|].
  intros (blob & Hblob & _ & Hsize).
  rewrite createWavBlob_bytes in Hblob.
  apply Ok_inj in Hblob. rewrite <- Hblob in Hsize. cbn [blobBytes] in Hsize.
  pose proof (header_reads (Z.of_nat (length (silence 2147483648)) * 2) 24000
                (flat_map le16 (silence 2147483648))) as H.
  cbv zeta in H.
  destruct H as (_ & _ & _ & _ & _ & _ & _ & _ & _ & _ & _ & _ & H).
  rewrite H in Hsize. clear H.
  rewrite length_silence in Hsize by lia.
  vm_compute in Hsize. discriminate Hsize.
Qed.

(** ** Typed array views *)

(** Induction over a list two elements at a time. *)
Lemma pairs_ind {A} (P : list A -> Prop) :
  P [] -> (forall x, P [x]) -> (forall a b l, P l -> P (a :: b :: l)) ->
  forall l, P l.
Proof.
  intros H0 H1 H2. fix IH 1.
  intros [|a [|b l]]; [exact H0 | apply H1 | apply H2, IH].
Qed.

Lemma int16Elements_length (buffer : list Z) :
  length (int16Elements buffer) = (length buffer / 2)%nat.
Proof.
  induction buffer as [|x|lo hi rest IH] using pairs_ind; try reflexivity.
  cbn [int16Elements length]. rewrite IH.
  change (S (S (length rest))) with (2 + length rest)%nat.
  replace (2 + length rest)%nat with (length rest + 1 * 2)%nat by lia.
  rewrite Nat.div_add by lia. lia.
Qed.

Lemma toInt16_range (u : Z) : 0 <= u < 65536 -> -32768 <= toInt16 u < 32768.
Proof. intros Hu. unfold toInt16. destruct (Z.ltb_spec u 32768); lia. Qed.

Lemma int16Elements_valid (buffer : list Z) :
  validBytes buffer -> validPcm (int16Elements buffer).
Proof.
  induction buffer as [|x|lo hi rest IH] using pairs_ind; intros Hvalid;
    try constructor.
  - unfold validBytes in Hvalid.
    apply Forall_cons in Hvalid as [Hlo Hrest].
    apply Forall_cons in Hrest as [Hhi _].
    apply toInt16_range. rewrite lor_shiftl_byte by lia. lia.
  - apply IH. unfold validBytes in *.
    apply Forall_cons in Hvalid as [_ Hrest].
    apply Forall_cons in Hrest as [_ Hrest]. exact Hrest.
Qed.

Lemma newInt16Array_even (buffer : list Z) :
  Z.of_nat (length buffer) mod 2 = 0 ->
  newInt16Array buffer = Ok (int16Elements buffer).
Proof. intros H. unfold newInt16Array. rewrite H. reflexivity. Qed.

Lemma newInt16Array_odd (buffer : list Z) :
  Z.of_nat (length buffer) mod 2 <> 0 ->
  newInt16Array buffer = Throw (PlatformError RangeErrorTypedArray).
Proof.
  intros H. unfold newInt16Array.
  destruct (Z.eqb_spec (Z.of_nat (length buffer) mod 2) 0); [contradiction|reflexivity].
Qed.

(** ** The loops of [decodeAudioData] *)

Lemma forRange_app {S} (l1 l2 : list nat) (body : nat -> S -> result S) (s : S) :
  forRange (l1 ++ l2) body s = (s' ← forRange l1 body s; forRange l2 body s').
Proof.
  revert s. induction l1 as [|i l1 IH]; intros s; [reflexivity|].
  cbn [app forRange]. destruct (body i s) as [s'|e]; [|reflexivity].
  rewrite !bind_Ok. apply IH.
Qed.

(** Storing [g i] at every index [i] below [k] of an array. *)
Lemma fold_store {A} (g : nat -> A) (k : nat) (l0 : list A) :
  (k <= length l0)%nat ->
  fold_left (fun l i => <[i := g i]> l) (seq 0 k) l0
  = map g (seq 0 k) ++ drop k l0.
Proof.
  induction k as [|k IH]; intros Hk; [reflexivity|].
  rewrite seq_S, fold_left_app, IH by lia. cbn [fold_left Nat.add].
  rewrite map_app. cbn [map].
  destruct (lookup_lt_is_Some_2 l0 k ltac:(lia)) as [x Hx].
  rewrite (drop_S _ _ _ Hx).
  rewrite insert_app_r_alt by (rewrite length_map, length_seq; lia).
  rewrite length_map, length_seq, Nat.sub_diag. cbn [insert list_insert].
  rewrite <- app_assoc. reflexivity.
Qed.


(** Every channel below [k] gets its new content, the others keep theirs. *)
Lemma channels_loop (F : nat -> list spec_float -> list spec_float) (k : nat)
    (b0 : AudioBuffer) :
  (k <= length (channels b0))%nat ->
  forRange (seq 0 k)
    (fun channel buffer =>
       channelData ← getChannelData buffer channel;
       Ok (storeChannelData buffer channel (F channel channelData))) b0
  = Ok {| bufferSampleRate := bufferSampleRate b0;
          channels := imap (fun c cd => if decide (c < k)%nat then F c cd else cd)
                           (channels b0) |}.
Proof.
  induction k as [|k IH]; intros Hk.
  - cbn [seq forRange]. destruct b0 as [rate chs]. cbn [bufferSampleRate channels].
    do 2 f_equal. apply list_eq. intros i. rewrite list_lookup_imap.
    destruct (chs !! i); reflexivity.
  - rewrite seq_S, forRange_app, IH by lia. rewrite bind_Ok.
    cbn [Nat.add forRange].
    destruct (lookup_lt_is_Some_2 (channels b0) k ltac:(lia)) as [x Hx].
    unfold getChannelData at 1. cbn [channels].
    rewrite list_lookup_imap, Hx. cbn [fmap option_fmap option_map].
    destruct (decide (k < k)%nat) as [Hlt|_]; [lia|].
    rewrite !bind_Ok. unfold storeChannelData. cbn [bufferSampleRate channels].
    do 2 f_equal. apply list_eq. intros i.
    destruct (decide (i = k)) as [->|Hne].
    + rewrite list_lookup_insert_eq by (rewrite length_imap; lia).
      rewrite list_lookup_imap, Hx. cbn [fmap option_fmap option_map].
      destruct (decide (k < S k)%nat); [reflexivity|lia].
    + rewrite list_lookup_insert_ne by congruence.
      rewrite !list_lookup_imap. destruct (channels b0 !! i); [|reflexivity].
      cbn [fmap option_fmap option_map].
      destruct (decide (i < k)%nat), (decide (i < S k)%nat); try reflexivity; lia.
Qed.

(** ** Frame counts *)

Lemma pcmFrameCount_exact (dataInt16 : list Z) (numChannels frames : Z) :
  1 <= numChannels ->
  Z.of_nat (length dataInt16) = numChannels * frames ->
  (pcmFrameCount dataInt16 numChannels == inject_Z frames)%Q.
Proof.
  intros Hnc Hlen. unfold pcmFrameCount. rewrite Hlen, inject_Z_mult.
  field. intros H0. apply (inject_Z_injective numChannels 0) in H0. lia.
Qed.

Lemma rounds_exact (dataInt16 : list Z) (numChannels frames : Z) :
  1 <= numChannels ->
  Z.of_nat (length dataInt16) = numChannels * frames ->
  rounds (pcmFrameCount dataInt16 numChannels) = Z.to_nat frames.
Proof.
  intros Hnc Hlen. unfold rounds.
  rewrite (Qceiling_comp _ _ (pcmFrameCount_exact _ _ _ Hnc Hlen)).
  rewrite Qceiling_Z. reflexivity.
Qed.

(** ** Samples as floats *)

Lemma allFrom_sound (n : nat) (lo : Z) (p : Z -> bool) :
  allFrom n lo p = true ->
  forall v, lo <= v < lo + Z.of_nat n -> p v = true.
Proof.
  revert lo. induction n as [|n IH]; intros lo Hall v Hv; [lia|].
  cbn [allFrom] in Hall. apply andb_true_iff in Hall as [Hlo Hrest].
  destruct (Z.eq_dec v lo) as [->|Hne]; [exact Hlo|].
  apply (IH (lo + 1) Hrest). lia.
Qed.

(** Checked on each of the 65536 samples. *)
Lemma sampleExact_all : allFrom (Z.to_nat 65536) (-32768) sampleExact = true.
Proof. vm_compute. reflexivity. Qed.

Lemma sampleFloat_exact (v : Z) :
  -32768 <= v < 32768 ->
  exists q,
    floatValue (sampleFloat v) = Some q
    /\ (q == v # 32768)%Q
    /\ (-1 <= q)%Q /\ (q < 1)%Q
    /\ SFleb float32MinusOne (sampleFloat v) = true
    /\ SFltb (sampleFloat v) float32One = true.
Proof.
  intros Hv.
  pose proof (allFrom_sound _ _ _ sampleExact_all v ltac:(lia)) as H.
  unfold sampleExact in H.
  apply andb_true_iff in H as [H Hlt]. apply andb_true_iff in H as [H Hle].
  destruct (floatValue (sampleFloat v)) as [q|]; [|discriminate H].
  apply Qeq_bool_iff in H.
  exists q. repeat split; try assumption.
  - rewrite H. unfold Qle. cbn [Qnum Qden]. lia.
  - rewrite H. unfold Qlt. cbn [Qnum Qden]. lia.
Qed.

Lemma int16Elements_length_Z (data : list Z) (n : Z) :
  Z.of_nat (length data) = 2 * n ->
  Z.of_nat (length (int16Elements data)) = n.
Proof.
  intros Hlen. rewrite int16Elements_length, Nat2Z.inj_div, Hlen.
  change (Z.of_nat 2) with 2. rewrite Z.mul_comm. apply Z.div_mul. lia.
Qed.

(* ================================================================= *)
(** ** The playback buffer *)

(** C3, as amended.  For interleaved 16-bit samples in [numChannels >= 1]
    channels, [decodeAudioData] asks the audio context for a buffer of
    [numChannels] channels of [frames] floats.  When the context refuses,
    the call fails with the error [createBuffer] raised and there is no
    buffer.  When the context allocates the buffer it is asked for,
    [decodeAudioData] returns it with [channelData[c][i]] the sample at
    index [i * numChannels + c] divided by 32768.0: the stored float is
    exactly that quotient, so it is at least -1.0 and below 1.0.  Sample
    -32768 becomes -1.0 and sample 32767 becomes 32767/32768. *)
Theorem playback_buffer_normalized (host : Platform) (data : list Z)
    (ctx : AudioContext) (sampleRate numChannels frames : Z) :
  1 <= numChannels ->
  0 <= frames ->
  validBytes data ->
  Z.of_nat (length data) = 2 * (numChannels * frames) ->
  let frameCount := pcmFrameCount (int16Elements data) numChannels in
  (frameCount == inject_Z frames)%Q
  /\ (forall e,
        createBuffer host ctx numChannels frameCount sampleRate = Throw e ->
        decodeAudioData host data ctx sampleRate numChannels = Throw e)
  /\ (forall buffer0,
        createBuffer host ctx numChannels frameCount sampleRate = Ok buffer0 ->
        Z.of_nat (length (channels buffer0)) = numChannels ->
        Forall (fun channelData => Z.of_nat (length channelData) = frames)
               (channels buffer0) ->
        exists buffer,
          decodeAudioData host data ctx sampleRate numChannels = Ok buffer
          /\ bufferSampleRate buffer = bufferSampleRate buffer0
          /\ Z.of_nat (length (channels buffer)) = numChannels
          /\ (forall c channelData, channels buffer !! c = Some channelData ->
                Z.of_nat (length channelData) = frames)
          /\ (forall c i : nat, Z.of_nat c < numChannels -> Z.of_nat i < frames ->
                exists v x q,
                  int16Elements data
                    !! Z.to_nat (Z.of_nat i * numChannels + Z.of_nat c) = Some v
                  /\ channels buffer !! c ≫= (fun channelData => channelData !! i)
                     = Some x
                  /\ x = sampleFloat v
                  /\ floatValue x = Some q
                  /\ (q == v # 32768)%Q
                  /\ (-1 <= q)%Q /\ (q < 1)%Q
                  /\ SFleb float32MinusOne x = true
                  /\ SFltb x float32One = true))
  /\ sampleFloat (-32768) = float32MinusOne
  /\ sampleFloat 32767 = S754_finite false 16776704 (-24)
  /\ (exists q, floatValue (sampleFloat 32767) = Some q /\ (q == 32767 # 32768)%Q).
Proof.
  intros Hnc Hframes Hbytes Hlen frameCount.
  pose proof (int16Elements_length_Z data _ Hlen) as Hels.
  assert (Heven : Z.of_nat (length data) mod 2 = 0)
    by (rewrite Hlen, Z.mul_comm; apply Z_mod_mult).
  split; [exact (pcmFrameCount_exact _ _ _ Hnc Hels)|].
  split.
  { intros e Hcreate. unfold decodeAudioData.
    rewrite (newInt16Array_even _ Heven), bind_Ok. cbv zeta.
    fold frameCount. rewrite Hcreate. reflexivity. }
  split.
  { intros buffer0 Hcreate Hchannels Hlengths.
    set (g := fun (channel i : nat) =>
                fround (divide
                  (elementNumber
                     (int16Elements data
                        !! Z.to_nat (Z.of_nat i * numChannels + Z.of_nat channel)))
                  (numberOfZ 32768))).
    set (F := fun (channel : nat) (channelData : list spec_float) =>
                fold_left (fun channelData i => <[i := g channel i]> channelData)
                  (seq 0 (rounds (pcmFrameCount (int16Elements data) numChannels)))
                  channelData).
    assert (Hrun : decodeAudioData host data ctx sampleRate numChannels
              = Ok {| bufferSampleRate := bufferSampleRate buffer0;
                      channels := imap (fun c cd =>
                          if decide (c < Z.to_nat numChannels)%nat then F c cd else cd)
                        (channels buffer0) |}).
    { unfold decodeAudioData.
      rewrite (newInt16Array_even _ Heven).
      rewrite bind_Ok. cbv zeta. fold frameCount. rewrite Hcreate, bind_Ok.
      apply (channels_loop F). lia. }
    eexists. split; [exact Hrun|]. cbn [bufferSampleRate channels].
    assert (Hfill : forall c cd, channels buffer0 !! c = Some cd ->
              F c cd = map (g c) (seq 0 (Z.to_nat frames))).
    { intros c cd Hcd. unfold F.
      rewrite (rounds_exact _ _ _ Hnc Hels).
      rewrite Forall_lookup in Hlengths. specialize (Hlengths c cd Hcd).
      rewrite fold_store by lia.
      rewrite drop_ge by lia. apply app_nil_r. }
    split; [reflexivity|]. split; [rewrite length_imap; exact Hchannels|].
    split.
    { intros c cd Hcd. rewrite list_lookup_imap in Hcd.
      destruct (channels buffer0 !! c) as [cd0|] eqn:Hcd0; [|discriminate Hcd].
      cbn [fmap option_fmap option_map] in Hcd.
      rewrite Forall_lookup in Hlengths. specialize (Hlengths c cd0 Hcd0).
      destruct (decide (c < Z.to_nat numChannels)%nat).
      - rewrite (Hfill c cd0 Hcd0) in Hcd. injection Hcd as <-.
        rewrite length_map, length_seq. lia.
      - injection Hcd as <-. exact Hlengths. }
    intros c i Hc Hi.
    destruct (lookup_lt_is_Some_2 (channels buffer0) c ltac:(lia)) as [cd0 Hcd0].
    assert (Hidx : (Z.to_nat (Z.of_nat i * numChannels + Z.of_nat c)
                    < length (int16Elements data))%nat) by nia.
    destruct (lookup_lt_is_Some_2 _ _ Hidx) as [v Hv].
    pose proof (int16Elements_valid data Hbytes) as Hvalid.
    unfold validPcm in Hvalid. rewrite Forall_lookup in Hvalid.
    specialize (Hvalid _ _ Hv).
    destruct (sampleFloat_exact v Hvalid) as (q & Hq & Heq & Hlo & Hhi & Hle & Hlt).
    exists v, (sampleFloat v), q.
    split; [exact Hv|]. split; [|repeat split; assumption].
    rewrite list_lookup_imap, Hcd0. cbn [fmap option_fmap option_map mbind option_bind].
    destruct (decide (c < Z.to_nat numChannels)%nat); [|lia].
    rewrite (Hfill c cd0 Hcd0), list_lookup_fmap, lookup_seq_lt by lia.
    cbn [fmap option_fmap option_map Nat.add]. unfold g. rewrite Hv. reflexivity. }
  split; [vm_compute; reflexivity|]. split; [vm_compute; reflexivity|].
  destruct (sampleFloat_exact 32767 ltac:(lia)) as (q & Hq & Heq & _).
  exists q. split; assumption.
Qed.

Lemma playback_buffer_normalized_witness :
  let data := [0; 0; 255; 127; 0; 128; 255; 255] in
  let ctx := {| ctxId := 0; ctxSampleRate := 24000 |} in
  exists buffer,
    decodeAudioData standardBrowser data ctx 24000 2 = Ok buffer
    /\ Z.of_nat (length (channels buffer)) = 2.
Proof.
  intros data ctx.
  assert (Hbytes : validBytes data) by (repeat constructor; lia).
  destruct (playback_buffer_normalized standardBrowser data ctx 24000 2 2
              ltac:(lia) ltac:(lia) Hbytes ltac:(reflexivity))
    as (_ & _ & H & _).
  destruct (H (silentBuffer 2 2 24000)
              ltac:(reflexivity) ltac:(reflexivity) ltac:(repeat constructor))
    as (buffer & Hrun & _ & Hlen & _).
  exists buffer. split; assumption.
Defined.

(** C3 as stated fails: the empty sequence is a view of zero frames in one
    channel; a browser that follows the Web Audio standard refuses a buffer
    of zero frames, so [decodeAudioData] raises and returns no buffer. *)
Lemma playback_buffer_empty_view_refused :
  let data : list Z := [] in
  let ctx := {| ctxId := 0; ctxSampleRate := 24000 |} in
  validBytes data
  /\ Z.of_nat (length data) = 2 * (1 * 0)
  /\ newInt16Array data = Ok []
  /\ decodeAudioData standardBrowser data ctx 24000 1
     = Throw (PlatformError NotSupportedError)
  /\ ~ (exists buffer,
          decodeAudioData standardBrowser data ctx 24000 1 = Ok buffer).
Proof.
  intros data ctx.
  split; [constructor|]. split; [reflexivity|]. split; [reflexivity|].
  assert (Hrun : decodeAudioData standardBrowser data ctx 24000 1
                 = Throw (PlatformError NotSupportedError))
    by (vm_compute; reflexivity).
  split; [exact Hrun|].
  intros (buffer & Hbuffer). rewrite Hrun in Hbuffer. discriminate Hbuffer.
Qed.

(* ================================================================= *)
(** ** The interpretation of the bytes as samples *)

(** C4, as amended.  The view [new Int16Array(data.buffer)] is refused, with
    the RangeError of the typed array constructor, exactly when the byte
    length is odd, and [decodeAudioData] then fails with that error; an even
    length is accepted whatever the channel count.  When the length is a
    multiple of 2 * numChannels, frameCount is
    bytes.length / (2 * numChannels): 5 for 10 bytes in one channel. *)
Theorem pcm_view_rejects_odd_length (host : Platform) (data : list Z)
    (ctx : AudioContext) (sampleRate numChannels : Z) :
  (Z.of_nat (length data) mod 2 <> 0 ->
     newInt16Array data = Throw (PlatformError RangeErrorTypedArray)
     /\ decodeAudioData host data ctx sampleRate numChannels
        = Throw (PlatformError RangeErrorTypedArray))
  /\ (Z.of_nat (length data) mod 2 = 0 ->
        exists dataInt16,
          newInt16Array data = Ok dataInt16
          /\ Z.of_nat (length dataInt16) = Z.of_nat (length data) / 2)
  /\ (1 <= numChannels ->
      Z.of_nat (length data) mod (2 * numChannels) = 0 ->
        exists dataInt16,
          newInt16Array data = Ok dataInt16
          /\ (pcmFrameCount dataInt16 numChannels
              == inject_Z (Z.of_nat (length data) / (2 * numChannels)))%Q)
  /\ (length data = 10%nat ->
        exists dataInt16,
          newInt16Array data = Ok dataInt16
          /\ (pcmFrameCount dataInt16 1 == 5)%Q).
Proof.
  assert (Hmultiple : forall nc, 1 <= nc ->
            Z.of_nat (length data) mod (2 * nc) = 0 ->
            exists dataInt16,
              newInt16Array data = Ok dataInt16
              /\ (pcmFrameCount dataInt16 nc
                  == inject_Z (Z.of_nat (length data) / (2 * nc)))%Q).
  { intros nc Hnc Hmod.
    apply Z.mod_divide in Hmod; [|lia]. destruct Hmod as [frames Hframes].
    assert (Hlen : Z.of_nat (length data) = 2 * (nc * frames)) by lia.
    exists (int16Elements data). split.
    - apply newInt16Array_even. rewrite Hlen, Z.mul_comm. apply Z_mod_mult.
    - rewrite Hframes, Z.div_mul by lia.
      apply pcmFrameCount_exact; [exact Hnc|].
      apply int16Elements_length_Z. exact Hlen. }
  split; [|split; [|split]].
  - intros Hodd. split; [apply newInt16Array_odd; exact Hodd|].
    unfold decodeAudioData. rewrite newInt16Array_odd by exact Hodd. reflexivity.
  - intros Heven. exists (int16Elements data).
    split; [apply newInt16Array_even; exact Heven|].
    rewrite int16Elements_length, Nat2Z.inj_div. reflexivity.
  - exact (Hmultiple numChannels).
  - intros Hten.
    destruct (Hmultiple 1 ltac:(lia)) as (dataInt16 & Hview & Hcount).
    { rewrite Hten. reflexivity. }
    exists dataInt16. split; [exact Hview|].
    rewrite Hcount, Hten. reflexivity.
Qed.

Lemma pcm_view_rejects_odd_length_witness :
  newInt16Array [1; 2; 3] = Throw (PlatformError RangeErrorTypedArray)
  /\ (exists dataInt16,
        newInt16Array (replicate 10 0) = Ok dataInt16
        /\ (pcmFrameCount dataInt16 1 == 5)%Q).
Proof.
  pose proof (pcm_view_rejects_odd_length standardBrowser [1; 2; 3]
                {| ctxId := 0; ctxSampleRate := 24000 |} 24000 1)
    as (Hodd & _).
  pose proof (pcm_view_rejects_odd_length standardBrowser (replicate 10 0)
                {| ctxId := 0; ctxSampleRate := 24000 |} 24000 1)
    as (_ & _ & _ & Hten).
  split.
  - apply Hodd. vm_compute. discriminate.
  - apply Hten. reflexivity.
Defined.

(** C4 as stated fails: six bytes in two channels are three samples, not a
    whole number of frames, and are not refused; the third sample is
    dropped. *)
Lemma pcm_misaligned_not_rejected :
  let data := [1; 0; 2; 0; 3; 0] in
  let ctx := {| ctxId := 0; ctxSampleRate := 24000 |} in
  Z.of_nat (length data) mod (2 * 2) <> 0
  /\ newInt16Array data = Ok [1; 2; 3]
  /\ (pcmFrameCount [1; 2; 3]%Z 2 == 3 # 2)%Q
  /\ ~ (exists e, decodeAudioData standardBrowser data ctx 24000 2 = Throw e)
  /\ decodeAudioData standardBrowser data ctx 24000 2
     = Ok {| bufferSampleRate := 24000;
             channels := [[sampleFloat 1]; [sampleFloat 2]] |}.
Proof.
  intros data ctx.
  assert (Hrun : decodeAudioData standardBrowser data ctx 24000 2
     = Ok {| bufferSampleRate := 24000;
             channels := [[sampleFloat 1]; [sampleFloat 2]] |})
    by (vm_compute; reflexivity).
  split; [vm_compute; discriminate|].
  split; [reflexivity|]. split; [reflexivity|].
  split; [|exact Hrun].
  intros (e & He). rewrite Hrun in He. discriminate He.
Qed.

(** ** One call of [handleGenerate], start to end *)

Ltac unfold_handlers :=
  cbv beta iota zeta delta
    [handleGenerate handlePlay audioChain contextInUse
     mbind mret handler_bind handler_ret result_bind
     tryCatchFinally liftResult readState readWorld modifyState modifyWorld
     revokeObjectURL createObjectURL consoleError newAudioContext resume
     startSource setIsLoading setError setAudioBuffer setAudioContextRef
     setAudioUrl fst snd
     text selectedVoice isLoading error language audioUrl audioBuffer
     audioContextRef urlLog contexts suspended resumed started console
     ctxId ctxSampleRate].

Lemma handleGenerate_blank (host : Platform) (tr : Translations) (net : Network)
    (s : AppState) (w : World) :
  isEmpty (trim (text s)) = true ->
  handleGenerate host tr net (s, w)
  = (Ok tt,
     ({| text := text s; selectedVoice := selectedVoice s;
         isLoading := isLoading s;
         error := Some (t tr (language s) errorEnterText);
         language := language s; audioUrl := audioUrl s;
         audioBuffer := audioBuffer s; audioContextRef := audioContextRef s |},
      w)).
Proof.
  intros Hblank.
  cbv beta iota zeta delta [handleGenerate readState mbind handler_bind fst].
  rewrite Hblank. reflexivity.
Qed.

Lemma handleGenerate_run (host : Platform) (tr : Translations) (net : Network)
    (s : AppState) (w : World) :
  isEmpty (trim (text s)) = false ->
  let ctx := contextInUse s w in
  let log1 := urlLog w ++ match audioUrl s with
                          | Some url => [Revoke url; Revoke url]
                          | None => []
                          end in
  let contexts1 := match audioContextRef s with
                   | Some _ => contexts w
                   | None => contexts w ++ [ctx]
                   end in
  let suspended1 := match audioContextRef s with
                    | Some _ => suspended w
                    | None => {[ctxId ctx]} ∪ suspended w
                    end in
  let logged := (generateSpeech net (text s) (selectedVoice s)).2 in
  handleGenerate host tr net (s, w)
  = (Ok tt,
     match audioChain host net (text s) (selectedVoice s) ctx with
     | Throw e =>
         ({| text := text s; selectedVoice := selectedVoice s; isLoading := false;
             error := Some (errorText host tr (language s) e);
             language := language s; audioUrl := None; audioBuffer := None;
             audioContextRef := Some ctx |},
          {| urlLog := log1; contexts := contexts1; suspended := suspended1;
             resumed := resumed w; started := started w;
             console := (console w ++ logged) ++ [e] |})
     | Ok (wavBlob, Throw e) =>
         ({| text := text s; selectedVoice := selectedVoice s; isLoading := false;
             error := Some (errorText host tr (language s) e);
             language := language s; audioUrl := Some (length log1);
             audioBuffer := None; audioContextRef := Some ctx |},
          {| urlLog := log1 ++ [Create (length log1) wavBlob];
             contexts := contexts1; suspended := suspended1;
             resumed := resumed w; started := started w;
             console := (console w ++ logged) ++ [e] |})
     | Ok (wavBlob, Ok buffer) =>
         ({| text := text s; selectedVoice := selectedVoice s; isLoading := false;
             error := None;
             language := language s; audioUrl := Some (length log1);
             audioBuffer := Some buffer; audioContextRef := Some ctx |},
          {| urlLog := log1 ++ [Create (length log1) wavBlob];
             contexts := contexts1; suspended := suspended1;
             resumed := resumed w; started := started w;
             console := console w ++ logged |})
     end).
Proof.
  intros Hblank.
  destruct s as [txt voice loading err lang url buf ref].
  destruct w as [log ctxs susp res st con].
  cbn [text] in Hblank. unfold_handlers. rewrite Hblank.
  destruct (generateSpeech net txt voice) as [[base64Audio|e] logged];
    [destruct (decode base64Audio) as [audioBytes|e];
     [destruct (newInt16Array audioBytes) as [dataInt16|e];
      [destruct (createWavBlob dataInt16 24000) as [wavBlob|e]|]|]|];
    destruct url as [u|], ref as [ctx|];
    unfold_handlers;
    rewrite ?bool_decide_eq_false_2 by discriminate;
    unfold_handlers;
    try (destruct (decodeAudioData host audioBytes _ 24000 1) as [buffer|e]);
    unfold_handlers;
    rewrite ?app_nil_r, <- ?app_assoc; reflexivity.
Qed.

Lemma handlePlay_run (s : AppState) (w : World) :
  handlePlay (s, w)
  = (Ok tt,
     match audioBuffer s, audioContextRef s with
     | Some buffer, Some ctx =>
         (s, {| urlLog := urlLog w; contexts := contexts w;
                suspended := suspended w;
                resumed := if bool_decide (ctxId ctx ∈ suspended w)
                           then resumed w ++ [ctxId ctx] else resumed w;
                started := started w ++ [(ctxId ctx, buffer)];
                console := console w |})
     | _, _ => (s, w)
     end).
Proof.
  destruct s as [txt voice loading err lang url buf ref].
  destruct w as [log ctxs susp res st con].
  unfold_handlers.
  destruct buf as [buffer|], ref as [ctx|]; try reflexivity.
  unfold_handlers. destruct (bool_decide _); reflexivity.
Qed.

(** ** Playing *)

(** C10.  Without a playback buffer, or without an audio context,
    [handlePlay] returns normally and leaves the state of the component and
    the world as they are; it never changes the state of the component, and
    it starts a source only when both are there, then exactly one, on that
    context with that buffer. *)
Theorem play_needs_buffer_and_context (s : AppState) (w : World) :
  (audioBuffer s = None \/ audioContextRef s = None ->
     handlePlay (s, w) = (Ok tt, (s, w)))
  /\ (handlePlay (s, w)).1 = Ok tt
  /\ (handlePlay (s, w)).2.1 = s
  /\ (started (handlePlay (s, w)).2.2 <> started w ->
        exists buffer ctx,
          audioBuffer s = Some buffer /\ audioContextRef s = Some ctx
          /\ started (handlePlay (s, w)).2.2 = started w ++ [(ctxId ctx, buffer)]).
Proof.
  rewrite handlePlay_run. cbn [fst snd].
  split; [|split; [reflexivity|split]].
  - intros [Hbuf|Hctx].
    + rewrite Hbuf. reflexivity.
    + rewrite Hctx. destruct (audioBuffer s); reflexivity.
  - destruct (audioBuffer s), (audioContextRef s); reflexivity.
  - intros Hstarted.
    destruct (audioBuffer s) as [buffer|], (audioContextRef s) as [ctx|];
      cbn [snd started] in *; try congruence.
    exists buffer, ctx. repeat split.
Qed.

Lemma play_needs_buffer_and_context_witness :
  handlePlay (initialState, initialWorld) = (Ok tt, (initialState, initialWorld)).
Proof.
  apply (play_needs_buffer_and_context initialState initialWorld).
  left. reflexivity.
Defined.

(** The fields of the state and the world after a call with text to
    speak. *)
Lemma handleGenerate_fields (host : Platform) (tr : Translations) (net : Network)
    (s : AppState) (w : World) :
  isEmpty (trim (text s)) = false ->
  let ctx := contextInUse s w in
  let log1 := urlLog w ++ match audioUrl s with
                          | Some url => [Revoke url; Revoke url]
                          | None => []
                          end in
  let logged := (generateSpeech net (text s) (selectedVoice s)).2 in
  let out := handleGenerate host tr net (s, w) in
  out.1 = Ok tt
  /\ text out.2.1 = text s
  /\ selectedVoice out.2.1 = selectedVoice s
  /\ language out.2.1 = language s
  /\ isLoading out.2.1 = false
  /\ audioContextRef out.2.1 = Some ctx
  /\ contexts out.2.2 = match audioContextRef s with
                        | Some _ => contexts w
                        | None => contexts w ++ [ctx]
                        end
  /\ resumed out.2.2 = resumed w
  /\ started out.2.2 = started w
  /\ match audioChain host net (text s) (selectedVoice s) ctx with
     | Throw e =>
         error out.2.1 = Some (errorText host tr (language s) e)
         /\ audioUrl out.2.1 = None
         /\ audioBuffer out.2.1 = None
         /\ urlLog out.2.2 = log1
         /\ console out.2.2 = (console w ++ logged) ++ [e]
     | Ok (wavBlob, Throw e) =>
         error out.2.1 = Some (errorText host tr (language s) e)
         /\ audioUrl out.2.1 = Some (length log1)
         /\ audioBuffer out.2.1 = None
         /\ urlLog out.2.2 = log1 ++ [Create (length log1) wavBlob]
         /\ console out.2.2 = (console w ++ logged) ++ [e]
     | Ok (wavBlob, Ok buffer) =>
         error out.2.1 = None
         /\ audioUrl out.2.1 = Some (length log1)
         /\ audioBuffer out.2.1 = Some buffer
         /\ urlLog out.2.2 = log1 ++ [Create (length log1) wavBlob]
         /\ console out.2.2 = console w ++ logged
     end.
Proof.
  intros Hblank ctx log1 logged out. subst out.
  rewrite (handleGenerate_run host tr net s w Hblank). cbv zeta.
  fold ctx. fold log1. fold logged.
  destruct (audioChain host net (text s) (selectedVoice s) ctx)
    as [[wavBlob [buffer|e]]|e]; cbn; repeat split; reflexivity.
Qed.

(** ** The two parts of a call, around the [await] *)

Ltac unfold_parts :=
  cbv beta iota zeta delta
    [handleGenerateRequest handleGenerateAnswer handleGenerateAnswerUnmounted
     handleGenerate handlePlay audioChain contextInUse
     mbind mret handler_bind handler_ret result_bind
     tryCatchFinally liftResult readState readWorld modifyState modifyWorld
     revokeObjectURL createObjectURL consoleError newAudioContext resume
     startSource setIsLoading setError setAudioBuffer setAudioContextRef
     setAudioUrl fst snd
     text selectedVoice isLoading error language audioUrl audioBuffer
     audioContextRef urlLog contexts suspended resumed started console
     ctxId ctxSampleRate callText callVoice callLanguage callContext].

Lemma handleGenerateRequest_blank (tr : Translations) (s : AppState) (w : World) :
  isEmpty (trim (text s)) = true ->
  handleGenerateRequest tr (s, w)
  = (Ok None,
     ({| text := text s; selectedVoice := selectedVoice s;
         isLoading := isLoading s;
         error := Some (t tr (language s) errorEnterText);
         language := language s; audioUrl := audioUrl s;
         audioBuffer := audioBuffer s; audioContextRef := audioContextRef s |},
      w)).
Proof.
  intros Hblank.
  cbv beta iota zeta delta [handleGenerateRequest readState mbind handler_bind fst].
  rewrite Hblank. reflexivity.
Qed.

Lemma handleGenerateRequest_run (tr : Translations) (s : AppState) (w : World) :
  isEmpty (trim (text s)) = false ->
  let ctx := contextInUse s w in
  handleGenerateRequest tr (s, w)
  = (Ok (Some {| callText := text s; callVoice := selectedVoice s;
                 callLanguage := language s; callContext := ctx |}),
     ({| text := text s; selectedVoice := selectedVoice s; isLoading := true;
         error := None; language := language s; audioUrl := None;
         audioBuffer := None; audioContextRef := Some ctx |},
      {| urlLog := urlLog w ++ match audioUrl s with
                               | Some url => [Revoke url; Revoke url]
                               | None => []
                               end;
         contexts := match audioContextRef s with
                     | Some _ => contexts w
                     | None => contexts w ++ [ctx]
                     end;
         suspended := match audioContextRef s with
                      | Some _ => suspended w
                      | None => {[ctxId ctx]} ∪ suspended w
                      end;
         resumed := resumed w; started := started w; console := console w |})).
Proof.
  intros Hblank.
  destruct s as [txt voice loading err lang url buf ref].
  destruct w as [log ctxs susp res st con].
  cbn [text] in Hblank. unfold_parts. rewrite Hblank.
  destruct url as [u|], ref as [ctx|];
    unfold_parts;
    rewrite ?bool_decide_eq_false_2 by discriminate;
    unfold_parts;
    rewrite ?app_nil_r, <- ?app_assoc; reflexivity.
Qed.

Lemma handleGenerateAnswer_run (host : Platform) (tr : Translations)
    (call : SpeechCall) (net : Network) (s : AppState) (w : World) :
  audioUrl s = None ->
  let logged := (generateSpeech net (callText call) (callVoice call)).2 in
  let url := length (urlLog w) in
  handleGenerateAnswer host tr call net (s, w)
  = (Ok tt,
     match audioChain host net (callText call) (callVoice call) (callContext call) with
     | Throw e =>
         ({| text := text s; selectedVoice := selectedVoice s; isLoading := false;
             error := Some (errorText host tr (callLanguage call) e);
             language := language s; audioUrl := None;
             audioBuffer := audioBuffer s;
             audioContextRef := audioContextRef s |},
          {| urlLog := urlLog w; contexts := contexts w; suspended := suspended w;
             resumed := resumed w; started := started w;
             console := (console w ++ logged) ++ [e] |})
     | Ok (wavBlob, Throw e) =>
         ({| text := text s; selectedVoice := selectedVoice s; isLoading := false;
             error := Some (errorText host tr (callLanguage call) e);
             language := language s; audioUrl := Some url;
             audioBuffer := audioBuffer s;
             audioContextRef := audioContextRef s |},
          {| urlLog := urlLog w ++ [Create url wavBlob];
             contexts := contexts w; suspended := suspended w;
             resumed := resumed w; started := started w;
             console := (console w ++ logged) ++ [e] |})
     | Ok (wavBlob, Ok buffer) =>
         ({| text := text s; selectedVoice := selectedVoice s; isLoading := false;
             error := error s;
             language := language s; audioUrl := Some url;
             audioBuffer := Some buffer;
             audioContextRef := audioContextRef s |},
          {| urlLog := urlLog w ++ [Create url wavBlob];
             contexts := contexts w; suspended := suspended w;
             resumed := resumed w; started := started w;
             console := console w ++ logged |})
     end).
Proof.
  intros Hurl.
  destruct s as [txt voice loading err lang url buf ref].
  destruct w as [log ctxs susp res st con].
  destruct call as [ctext cvoice clang cctx].
  cbn [audioUrl] in Hurl. subst url. unfold_parts.
  destruct (generateSpeech net ctext cvoice) as [[base64Audio|e] logged];
    [destruct (decode base64Audio) as [audioBytes|e];
     [destruct (newInt16Array audioBytes) as [dataInt16|e];
      [destruct (createWavBlob dataInt16 24000) as [wavBlob|e]|]|]|];
    unfold_parts;
    try (destruct (decodeAudioData host audioBytes _ 24000 1) as [buffer|e]);
    unfold_parts;
    rewrite ?app_nil_r, <- ?app_assoc; reflexivity.
Qed.

Lemma handleGenerateAnswerUnmounted_run (host : Platform)
    (call : SpeechCall) (net : Network) (s : AppState) (w : World) :
  let logged := (generateSpeech net (callText call) (callVoice call)).2 in
  let url := length (urlLog w) in
  handleGenerateAnswerUnmounted host call net (s, w)
  = (Ok tt,
     (s,
      match audioChain host net (callText call) (callVoice call) (callContext call) with
      | Throw e =>
          {| urlLog := urlLog w; contexts := contexts w; suspended := suspended w;
             resumed := resumed w; started := started w;
             console := (console w ++ logged) ++ [e] |}
      | Ok (wavBlob, Throw e) =>
          {| urlLog := urlLog w ++ [Create url wavBlob];
             contexts := contexts w; suspended := suspended w;
             resumed := resumed w; started := started w;
             console := (console w ++ logged) ++ [e] |}
      | Ok (wavBlob, Ok buffer) =>
          {| urlLog := urlLog w ++ [Create url wavBlob];
             contexts := contexts w; suspended := suspended w;
             resumed := resumed w; started := started w;
             console := console w ++ logged |}
      end)).
Proof.
  destruct s as [txt voice loading err lang url buf ref].
  destruct w as [log ctxs susp res st con].
  destruct call as [ctext cvoice clang cctx].
  unfold_parts.
  destruct (generateSpeech net ctext cvoice) as [[base64Audio|e] logged];
    [destruct (decode base64Audio) as [audioBytes|e];
     [destruct (newInt16Array audioBytes) as [dataInt16|e];
      [destruct (createWavBlob dataInt16 24000) as [wavBlob|e]|]|]|];
    unfold_parts;
    try (destruct (decodeAudioData host audioBytes _ 24000 1) as [buffer|e]);
    unfold_parts;
    rewrite ?app_nil_r, <- ?app_assoc; reflexivity.
Qed.

(** A call that nothing interrupts is the request followed by the answer. *)
Lemma handleGenerate_parts (host : Platform) (tr : Translations) (net : Network)
    (σ : AppState * World) :
  handleGenerate host tr net σ
  = match handleGenerateRequest tr σ with
    | (Ok (Some call), σ') => handleGenerateAnswer host tr call net σ'
    | (Ok None, σ') => (Ok tt, σ')
    | (Throw e, σ') => (Throw e, σ')
    end.
Proof.
  destruct σ as [s w].
  destruct (isEmpty (trim (text s))) eqn:Hblank.
  - rewrite handleGenerate_blank, handleGenerateRequest_blank by exact Hblank.
    reflexivity.
  - rewrite (handleGenerate_run host tr net s w Hblank).
    rewrite (handleGenerateRequest_run tr s w Hblank). cbv zeta.
    rewrite handleGenerateAnswer_run by reflexivity.
    cbn [callText callVoice callLanguage callContext text selectedVoice language
         urlLog contexts suspended resumed started console error audioBuffer
         audioContextRef].
    destruct (audioChain _ _ _ _ _) as [[wavBlob [buffer|e]]|e]; reflexivity.
Qed.

Lemma handleGenerateStory_parts (host : Platform) (tr : Translations)
    (str : StoryTranslations) (net : StoryNetwork)
    (tab : StoryTab) (s : AppState) (console : list Thrown) :
  handleGenerateStory host tr str net (tab, s, console)
  = match handleGenerateStoryRequest str (tab, s) with
    | (tab', s', Some call) =>
        handleGenerateStoryAnswer host tr str call net (tab', s', console)
    | (tab', s', None) => (tab', s', console)
    end.
Proof.
  unfold handleGenerateStory, handleGenerateStoryRequest.
  destruct (isEmpty (trim (storyPrompt tab))); [reflexivity|].
  unfold handleGenerateStoryAnswer.
  cbn [storyCallPrompt storyCallLanguage storyPrompt setStoryError
       setIsStoryLoading language].
  destruct (generateStory net (storyPrompt tab) (language s)) as [[story|e] logged];
    reflexivity.
Qed.

(** What the answer of the service leaves alone, whatever the state. *)
Lemma handleGenerateAnswer_frame (host : Platform) (tr : Translations)
    (call : SpeechCall) (net : Network) (s : AppState) (w : World) :
  let out := handleGenerateAnswer host tr call net (s, w) in
  text out.2.1 = text s
  /\ selectedVoice out.2.1 = selectedVoice s
  /\ language out.2.1 = language s
  /\ audioContextRef out.2.1 = audioContextRef s
  /\ contexts out.2.2 = contexts w
  /\ resumed out.2.2 = resumed w
  /\ started out.2.2 = started w.
Proof.
  destruct s as [txt voice loading err lang url buf ref].
  destruct w as [log ctxs susp res st con].
  destruct call as [ctext cvoice clang cctx].
  unfold_parts.
  destruct (generateSpeech net ctext cvoice) as [[base64Audio|e] logged];
    [destruct (decode base64Audio) as [audioBytes|e];
     [destruct (newInt16Array audioBytes) as [dataInt16|e];
      [destruct (createWavBlob dataInt16 24000) as [wavBlob|e]|]|]|];
    unfold_parts; try (repeat split; reflexivity).
  destruct url as [u|]; unfold_parts;
    try destruct (bool_decide _); unfold_parts;
    destruct (decodeAudioData host audioBytes _ 24000 1) as [buffer|e];
    unfold_parts; repeat split; reflexivity.
Qed.

Lemma handleGenerateAnswerUnmounted_frame (host : Platform)
    (call : SpeechCall) (net : Network) (s : AppState) (w : World) :
  let out := handleGenerateAnswerUnmounted host call net (s, w) in
  out.2.1 = s
  /\ contexts out.2.2 = contexts w
  /\ resumed out.2.2 = resumed w
  /\ started out.2.2 = started w.
Proof.
  cbv zeta. rewrite handleGenerateAnswerUnmounted_run. cbn [fst snd].
  destruct (audioChain _ _ _ _ _) as [[wavBlob [buffer|e]]|e];
    repeat split; reflexivity.
Qed.

Lemma generateDisabled_false (s : AppState) :
  generateDisabled s = false ->
  isLoading s = false /\ isEmpty (trim (text s)) = false.
Proof. unfold generateDisabled. intros H. apply orb_false_iff in H. exact H. Qed.

Lemma unmount_run (s : AppState) (w : World) :
  unmount (s, w)
  = (Ok tt,
     (s, match audioUrl s with
         | Some url =>
             {| urlLog := urlLog w ++ [Revoke url]; contexts := contexts w;
                suspended := suspended w; resumed := resumed w;
                started := started w; console := console w |}
         | None => w
         end)).
Proof.
  destruct s as [txt voice loading err lang url buf ref].
  destruct w as [log ctxs susp res st con].
  unfold unmount. unfold_handlers. destruct url; reflexivity.
Qed.

(** ** The one audio context *)

Lemma singleContext_generate (host : Platform) (tr : Translations) (net : Network)
    (σ : AppState * World) :
  singleContext σ -> singleContext (handleGenerate host tr net σ).2.
Proof.
  destruct σ as [s w]. intros [Hctxs Hrate]. cbn [fst snd] in *.
  destruct (isEmpty (trim (text s))) eqn:Hblank.
  - rewrite handleGenerate_blank by exact Hblank. split; assumption.
  - pose proof (handleGenerate_fields host tr net s w Hblank) as H.
    cbv zeta in H.
    destruct H as (_ & _ & _ & _ & _ & Href & Hcontexts & _).
    unfold singleContext. rewrite Href, Hcontexts. unfold contextInUse.
    destruct (audioContextRef s) as [ctx|].
    + split; [exact Hctxs|]. intros ctx' [= <-]. apply Hrate. reflexivity.
    + split; [rewrite Hctxs; reflexivity|]. intros ctx' [= <-]. reflexivity.
Qed.

Lemma singleContext_request (tr : Translations) (σ : AppState * World) :
  singleContext σ -> singleContext (handleGenerateRequest tr σ).2.
Proof.
  destruct σ as [s w]. intros [Hctxs Hrate]. cbn [fst snd] in *.
  destruct (isEmpty (trim (text s))) eqn:Hblank.
  - rewrite handleGenerateRequest_blank by exact Hblank. split; assumption.
  - rewrite (handleGenerateRequest_run tr s w Hblank). cbv zeta.
    unfold singleContext, contextInUse. cbn [fst snd contexts audioContextRef].
    destruct (audioContextRef s) as [ctx|].
    + split; [exact Hctxs|]. intros ctx' [= <-]. apply Hrate. reflexivity.
    + split; [rewrite Hctxs; reflexivity|]. intros ctx' [= <-]. reflexivity.
Qed.

Lemma singleContext_step (host : Platform) (tr : Translations)
    (str : StoryTranslations) (ev : Event) (c : Component) :
  singleContext (appState c, browser c) ->
  singleContext (appState (step host tr str ev c), browser (step host tr str ev c)).
Proof.
  destruct c as [s tab w m sc stc]. cbn [appState browser].
  intros Hsingle. pose proof Hsingle as [Hctxs Hrate]. cbn [fst snd] in *.
  destruct ev as [v|v|v|v|v| |net| |net| | |id|id];
    cbn [step appState storyTab browser isMounted speechCall storyCall];
    try (destruct (_ && _ && _); [|exact Hsingle]);
    try (destruct m; [|exact Hsingle]);
    try exact Hsingle.
  - pose proof (singleContext_request tr (s, w) Hsingle) as H.
    destruct (handleGenerateRequest tr (s, w)) as [r σ]. exact H.
  - destruct sc as [call|]; [|exact Hsingle]. cbn [appState browser].
    destruct m.
    + pose proof (handleGenerateAnswer_frame host tr call net s w) as H.
      cbv zeta in H. destruct H as (_ & _ & _ & Href & Hcontexts & _).
      unfold singleContext. cbn [fst snd]. rewrite Href, Hcontexts.
      split; assumption.
    + pose proof (handleGenerateAnswerUnmounted_frame host call net s w) as H.
      cbv zeta in H. destruct H as (Hs & Hcontexts & _).
      unfold singleContext. cbn [fst snd]. rewrite Hs, Hcontexts.
      split; assumption.
  - unfold handleGenerateStoryRequest.
    destruct (isEmpty (trim (storyPrompt tab))); split; assumption.
  - destruct stc as [call|]; [|exact Hsingle].
    destruct m.
    + unfold handleGenerateStoryAnswer.
      destruct (generateStory _ _ _) as [[story|e] logged]; split; assumption.
    + split; assumption.
  - rewrite handlePlay_run. unfold withState. cbn [snd appState browser].
    destruct (audioBuffer s), (audioContextRef s) eqn:Href;
      unfold singleContext; cbn [fst snd contexts]; rewrite ?Href;
      split; assumption.
  - rewrite unmount_run. cbn [snd]. destruct (audioUrl s); exact Hsingle.
Qed.

Lemma singleContext_run (host : Platform) (tr : Translations)
    (str : StoryTranslations) (events : list Event) (c : Component) :
  singleContext (appState c, browser c) ->
  singleContext (appState (run host tr str events c),
                 browser (run host tr str events c)).
Proof.
  revert c. induction events as [|ev events IH]; intros c Hc; [exact Hc|].
  cbn [run fold_left]. apply IH, singleContext_step, Hc.
Qed.

Lemma singleContext_initial : singleContext (initialState, initialWorld).
Proof. split; [reflexivity|]. intros ctx H. discriminate H. Qed.

(** C8.  Whatever has happened since the component was mounted (events
    that arrive while a request awaits its answer and the unmounting
    included), at most one audio context has been constructed: the one the
    ref holds, at 24000 Hz.  A call of [handleGenerate] with text to speak
    leaves exactly one, the one that was there if there was one; a call
    with blank text and two calls of [handlePlay] in a row construct none,
    and the sources [handlePlay] starts are on the context of the ref. *)
Theorem audio_context_created_once (host : Platform) (tr : Translations)
    (str : StoryTranslations) (events : list Event) :
  let c := run host tr str events initialComponent in
  let σ := (appState c, browser c) in
  (length (contexts σ.2) <= 1)%nat
  /\ contexts σ.2 = match audioContextRef σ.1 with
                    | Some ctx => [ctx]
                    | None => []
                    end
  /\ (forall ctx, ctx ∈ contexts σ.2 -> ctxSampleRate ctx = 24000)
  /\ (forall net, isEmpty (trim (text σ.1)) = false ->
        let σ' := (handleGenerate host tr net σ).2 in
        exists ctx,
          audioContextRef σ'.1 = Some ctx
          /\ contexts σ'.2 = [ctx]
          /\ ctxSampleRate ctx = 24000
          /\ (forall ctx0, audioContextRef σ.1 = Some ctx0 -> ctx = ctx0))
  /\ (forall net, isEmpty (trim (text σ.1)) = true ->
        let σ' := (handleGenerate host tr net σ).2 in
        contexts σ'.2 = contexts σ.2
        /\ audioContextRef σ'.1 = audioContextRef σ.1)
  /\ (let σ2 := (handlePlay (handlePlay σ).2).2 in
      contexts σ2.2 = contexts σ.2
      /\ audioContextRef σ2.1 = audioContextRef σ.1
      /\ (forall id buffer, (id, buffer) ∈ started σ2.2 ->
            (id, buffer) ∈ started σ.2
            \/ exists ctx, audioContextRef σ.1 = Some ctx /\ id = ctxId ctx)).
Proof.
  intros c σ.
  pose proof (singleContext_run host tr str events initialComponent
                singleContext_initial) as Hinv.
  fold c in Hinv. fold σ in Hinv. clearbody σ. clear c.
  destruct σ as [s w]. destruct Hinv as [Hctxs Hrate].
  cbn [fst snd] in *.
  split; [rewrite Hctxs; destruct (audioContextRef s); cbn [length]; lia|].
  split; [exact Hctxs|].
  split.
  { intros ctx Hin. rewrite Hctxs in Hin.
    destruct (audioContextRef s) as [ctx0|]; [|inversion Hin].
    apply list_elem_of_singleton in Hin as ->. apply Hrate. reflexivity. }
  split.
  { intros net Hblank.
    pose proof (singleContext_generate host tr net (s, w)
                  (conj Hctxs Hrate)) as [Hctxs' Hrate'].
    pose proof (handleGenerate_fields host tr net s w Hblank) as H.
    cbv zeta in H. destruct H as (_ & _ & _ & _ & _ & Href & _).
    cbv zeta. exists (contextInUse s w).
    rewrite Href in Hctxs'.
    split; [exact Href|]. split; [exact Hctxs'|].
    split; [apply Hrate'; exact Href|].
    intros ctx0 H0. unfold contextInUse. rewrite H0. reflexivity. }
  split.
  { intros net Hblank. cbv zeta.
    rewrite handleGenerate_blank by exact Hblank. split; reflexivity. }
  cbv zeta. rewrite (handlePlay_run s w). cbn [snd].
  destruct (audioBuffer s) as [buffer|] eqn:Hbuf,
           (audioContextRef s) as [ctx|] eqn:Href;
    rewrite handlePlay_run; cbn [fst snd]; rewrite ?Hbuf, ?Href;
    cbn [fst snd contexts started];
    (split; [reflexivity|]; split; [assumption || reflexivity|]);
    intros id b Hin; try (left; exact Hin).
  rewrite !elem_of_app, !list_elem_of_singleton in Hin.
  destruct Hin as [[Hin|Hin]|Hin]; [left; exact Hin| |];
    right; exists ctx; (split; [reflexivity|congruence]).
Qed.

Lemma audio_context_created_once_witness :
  let c := run standardBrowser english englishStory [TextTyped (lit "hi")]
             initialComponent in
  let σ := (appState c, browser c) in
  exists ctx,
    audioContextRef
      (handleGenerate standardBrowser english (answering "AAD/fw==") σ).2.1
      = Some ctx
    /\ contexts (handleGenerate standardBrowser english (answering "AAD/fw==") σ).2.2
       = [ctx]
    /\ ctxSampleRate ctx = 24000
    /\ (forall ctx0, audioContextRef σ.1 = Some ctx0 -> ctx = ctx0).
Proof.
  intros c σ.
  destruct (audio_context_created_once standardBrowser english englishStory
              [TextTyped (lit "hi")])
    as (_ & _ & _ & H & _).
  apply (H (answering "AAD/fw==")). reflexivity.
Defined.

(** ** Object URLs *)

Lemma liveUrls_revoke (log : list UrlOp) (url : nat) :
  liveUrls (log ++ [Revoke url]) = liveUrls log ∖ {[url]}.
Proof. unfold liveUrls. rewrite fold_left_app. reflexivity. Qed.

Lemma liveUrls_create (log : list UrlOp) (url : nat) (blob : Blob) :
  liveUrls (log ++ [Create url blob]) = {[url]} ∪ liveUrls log.
Proof. unfold liveUrls. rewrite fold_left_app. reflexivity. Qed.

Lemma neverTwoLive_snoc (log : list UrlOp) (op : UrlOp) :
  neverTwoLive log ->
  (size (liveUrls (log ++ [op])) <= 1)%nat ->
  neverTwoLive (log ++ [op]).
Proof.
  intros Hlog Hop k.
  destruct (decide (k <= length log)%nat) as [Hk|Hk].
  - rewrite take_app_le by exact Hk. apply Hlog.
  - rewrite take_ge by (rewrite length_app; cbn [length]; lia). exact Hop.
Qed.

(** After the releases that open a call, no URL is live. *)
Lemma revoked_at_start (s : AppState) (w : World) :
  urlsHeld (s, w) ->
  let log1 := urlLog w ++ match audioUrl s with
                          | Some url => [Revoke url; Revoke url]
                          | None => []
                          end in
  liveUrls log1 = ∅ /\ neverTwoLive log1.
Proof.
  intros (Hlive & Hnever & _). cbn [fst snd] in *.
  destruct (audioUrl s) as [url|]; cbv zeta.
  - assert (H1 : liveUrls (urlLog w ++ [Revoke url]) = ∅)
      by (rewrite liveUrls_revoke, Hlive; set_solver).
    assert (H2 : liveUrls ((urlLog w ++ [Revoke url]) ++ [Revoke url]) = ∅)
      by (rewrite liveUrls_revoke, H1; set_solver).
    replace (urlLog w ++ [Revoke url; Revoke url])
      with ((urlLog w ++ [Revoke url]) ++ [Revoke url])
      by (rewrite <- app_assoc; reflexivity).
    split; [exact H2|].
    apply neverTwoLive_snoc; [apply neverTwoLive_snoc; [exact Hnever|]|].
    + rewrite H1, size_empty. lia.
    + rewrite H2, size_empty. lia.
  - rewrite app_nil_r. split; assumption.
Qed.

Lemma urlsHeld_generate (host : Platform) (tr : Translations) (net : Network)
    (s : AppState) (w : World) :
  urlsHeld (s, w) -> urlsHeld (handleGenerate host tr net (s, w)).2.
Proof.
  intros Hheld.
  destruct (isEmpty (trim (text s))) eqn:Hblank.
  { rewrite handleGenerate_blank by exact Hblank. exact Hheld. }
  pose proof (revoked_at_start s w Hheld) as [Hempty Hnever]. cbv zeta in *.
  pose proof (handleGenerate_fields host tr net s w Hblank) as H. cbv zeta in H.
  destruct H as (_ & _ & _ & _ & _ & _ & _ & _ & _ & H).
  set (log1 := urlLog w ++ match audioUrl s with
                           | Some url => [Revoke url; Revoke url]
                           | None => []
                           end) in *.
  assert (Hcreate : forall blob,
            liveUrls (log1 ++ [Create (length log1) blob]) = {[length log1]}
            /\ neverTwoLive (log1 ++ [Create (length log1) blob])).
  { intros blob.
    assert (Hl : liveUrls (log1 ++ [Create (length log1) blob]) = {[length log1]})
      by (rewrite liveUrls_create, Hempty; set_solver).
    split; [exact Hl|].
    apply neverTwoLive_snoc; [exact Hnever|]. rewrite Hl, size_singleton. lia. }
  unfold urlsHeld.
  destruct (audioChain _ _ _ _ _) as [[wavBlob [buffer|e]]|e];
    destruct H as (_ & Hurl & _ & Hlog & _); rewrite Hurl, Hlog.
  - destruct (Hcreate wavBlob) as [Hl Hn].
    split; [exact Hl|]. split; [exact Hn|].
    intros url [= <-]. rewrite length_app. cbn [length]. lia.
  - destruct (Hcreate wavBlob) as [Hl Hn].
    split; [exact Hl|]. split; [exact Hn|].
    intros url [= <-]. rewrite length_app. cbn [length]. lia.
  - split; [exact Hempty|]. split; [exact Hnever|]. intros url Hu. discriminate Hu.
Qed.

Lemma urlsHeld_initial : urlsHeld (initialState, initialWorld).
Proof.
  split; [reflexivity|]. split.
  - intros k. cbn [snd initialWorld urlLog]. rewrite take_nil.
    unfold liveUrls. cbn [fold_left]. rewrite size_empty. lia.
  - intros url H. discriminate H.
Qed.

(** ** What holds of the component at every moment *)

Lemma neverTwoLive_nil : neverTwoLive [].
Proof.
  intros k. rewrite take_nil. unfold liveUrls. cbn [fold_left].
  rewrite size_empty. lia.
Qed.

Lemma consistent_initial : consistent initialComponent.
Proof.
  split; [exact neverTwoLive_nil|].
  split; [intros H; contradiction|].
  split; [intros call H; discriminate H|].
  split; [|intros H; discriminate H].
  intros _. split; [exact urlsHeld_initial|].
  split; [split; [intros H; discriminate H|intros H; contradiction]|].
  split; [split; [intros H; discriminate H|intros H; contradiction]|].
  intros H. contradiction.
Qed.

(** An event that changes none of the cells and records the invariant is
    about keeps it. *)
Lemma consistent_same (c c' : Component) :
  urlLog (browser c') = urlLog (browser c) ->
  audioUrl (appState c') = audioUrl (appState c) ->
  audioBuffer (appState c') = audioBuffer (appState c) ->
  audioContextRef (appState c') = audioContextRef (appState c) ->
  isLoading (appState c') = isLoading (appState c) ->
  isMounted c' = isMounted c ->
  speechCall c' = speechCall c ->
  (isMounted c = true ->
   (isStoryLoading (storyTab c) = true <-> storyCall c <> None) ->
   (isStoryLoading (storyTab c') = true <-> storyCall c' <> None)) ->
  consistent c -> consistent c'.
Proof.
  intros Hlog Hurl Hbuf Href Hloading Hmounted Hcall Hstory.
  unfold consistent, urlsHeld, loadingIsPending, outputsTogether.
  cbn [fst snd].
  rewrite Hlog, Hurl, Hbuf, Href, Hloading, Hmounted, Hcall.
  intros (Hnever & Hout & Hctx & Hm & Hu).
  split; [exact Hnever|]. split; [exact Hout|]. split; [exact Hctx|].
  split; [|exact Hu].
  intros Hmt. destruct (Hm Hmt) as (Hheld & Hl & Hs & Hp).
  split; [exact Hheld|]. split; [exact Hl|].
  split; [apply (Hstory Hmt), Hs|exact Hp].
Qed.

Lemma liveUrls_created (log : list UrlOp) (blob : Blob) :
  liveUrls log = ∅ ->
  neverTwoLive log ->
  liveUrls (log ++ [Create (length log) blob]) = {[length log]}
  /\ neverTwoLive (log ++ [Create (length log) blob]).
Proof.
  intros Hempty Hnever.
  assert (Hl : liveUrls (log ++ [Create (length log) blob]) = {[length log]})
    by (rewrite liveUrls_create, Hempty; set_solver).
  split; [exact Hl|].
  apply neverTwoLive_snoc; [exact Hnever|]. rewrite Hl, size_singleton. lia.
Qed.

Ltac keeps_cells Hc :=
  revert Hc; apply consistent_same;
  cbn [withState appState storyTab browser isMounted speechCall storyCall
       fst snd urlLog audioUrl audioBuffer audioContextRef isLoading
       isStoryLoading setMode setStoryError setIsStoryLoading];
  try reflexivity; try (symmetry; assumption);
  try (intros _ Hsame; exact Hsame).

Lemma consistent_step (host : Platform) (tr : Translations)
    (str : StoryTranslations) (ev : Event) (c : Component) :
  consistent c -> consistent (step host tr str ev c).
Proof.
  intros Hc. destruct c as [s tab w m sc stc].
  destruct ev as [v|v|v|v|v| |net| |net| | |id|id];
    cbn [step appState storyTab browser isMounted speechCall storyCall].
  - (* TextTyped *)
    destruct (_ && _ && _); [|exact Hc]. keeps_cells Hc.
  - (* VoiceChosen *)
    destruct (_ && _ && _); [|exact Hc]. keeps_cells Hc.
  - (* LanguageChosen *)
    destruct m; [|exact Hc]. keeps_cells Hc.
  - (* ModeChosen *)
    destruct m; [|exact Hc]. keeps_cells Hc.
  - (* StoryPromptTyped *)
    destruct (_ && _ && _); [|exact Hc]. keeps_cells Hc.
  - (* GenerateClicked *)
    destruct (_ && _ && _) eqn:Hguard; [|exact Hc].
    apply andb_true_iff in Hguard as [Hguard Hable].
    apply andb_true_iff in Hguard as [-> _].
    apply negb_true_iff, generateDisabled_false in Hable as [Hloading Hblank].
    destruct Hc as (Hnever & Hout & Hctx & Hmt & _).
    destruct (Hmt eq_refl) as (Hheld & Hl & Hs & Hp).
    cbn [appState storyTab browser isMounted speechCall storyCall] in *.
    rewrite (handleGenerateRequest_run tr _ _ Hblank). cbv zeta.
    pose proof (revoked_at_start _ _ Hheld) as [Hempty Hnever1].
    cbv zeta in Hempty, Hnever1.
    unfold consistent, urlsHeld, loadingIsPending, outputsTogether.
    cbn [appState storyTab browser isMounted speechCall storyCall fst snd
         urlLog audioUrl audioBuffer audioContextRef isLoading callContext].
    split; [exact Hnever1|].
    split; [intros H; contradiction|].
    split; [intros call [= <-]; reflexivity|].
    split; [|intros H; discriminate H].
    intros _. split.
    { split; [exact Hempty|]. split; [exact Hnever1|]. intros url H. discriminate H. }
    split; [split; [intros _; discriminate|reflexivity]|].
    split; [exact Hs|]. intros _. split; reflexivity.
  - (* SpeechAnswered *)
    destruct sc as [call|]; [|exact Hc].
    destruct Hc as (Hnever & Hout & Hctx & Hmt & Hum).
    cbn [appState storyTab browser isMounted speechCall storyCall] in *.
    specialize (Hctx call eq_refl).
    destruct m.
    + destruct (Hmt eq_refl) as (Hheld & Hl & Hs & Hp).
      cbn [appState storyTab browser isMounted speechCall storyCall] in *.
      destruct (Hp ltac:(discriminate)) as [Hurl Hbuf].
      destruct Hheld as (Hlive & _ & _). cbn [fst snd] in Hlive.
      rewrite Hurl in Hlive.
      rewrite (handleGenerateAnswer_run host tr call net _ _ Hurl). cbv zeta.
      unfold consistent, urlsHeld, loadingIsPending, outputsTogether.
      destruct (audioChain _ _ _ _ _) as [[wavBlob [buffer|e]]|e];
        cbn [appState storyTab browser isMounted speechCall storyCall fst snd
             urlLog audioUrl audioBuffer audioContextRef isLoading];
        try (destruct (liveUrls_created _ wavBlob Hlive Hnever) as [Hl1 Hn1]).
      * split; [exact Hn1|].
        split; [intros _; split; [discriminate|rewrite Hctx; discriminate]|].
        split; [intros call' H; discriminate H|].
        split; [|intros H; discriminate H].
        intros _. split.
        { split; [exact Hl1|]. split; [exact Hn1|].
          intros url [= <-]. rewrite length_app. cbn [length]. lia. }
        split; [split; [intros H; discriminate H|intros H; contradiction]|].
        split; [exact Hs|]. intros H. contradiction.
      * split; [exact Hn1|].
        split; [rewrite Hbuf; intros H; contradiction|].
        split; [intros call' H; discriminate H|].
        split; [|intros H; discriminate H].
        intros _. split.
        { split; [exact Hl1|]. split; [exact Hn1|].
          intros url [= <-]. rewrite length_app. cbn [length]. lia. }
        split; [split; [intros H; discriminate H|intros H; contradiction]|].
        split; [exact Hs|]. intros H. contradiction.
      * split; [exact Hnever|].
        split; [rewrite Hbuf; intros H; contradiction|].
        split; [intros call' H; discriminate H|].
        split; [|intros H; discriminate H].
        intros _. split.
        { split; [exact Hlive|]. split; [exact Hnever|]. intros url H. discriminate H. }
        split; [split; [intros H; discriminate H|intros H; contradiction]|].
        split; [exact Hs|]. intros H. contradiction.
    + destruct (Hum eq_refl) as [Habs|Hlive]; [discriminate Habs|].
      rewrite (handleGenerateAnswerUnmounted_run host call net). cbv zeta.
      unfold consistent.
      cbn [appState storyTab browser isMounted speechCall storyCall fst snd].
      split.
      { destruct (audioChain _ _ _ _ _) as [[wavBlob [buffer|e]]|e];
          cbn [urlLog]; try exact Hnever;
          apply (liveUrls_created _ wavBlob Hlive Hnever). }
      split; [exact Hout|].
      split; [intros call' H; discriminate H|].
      split; [intros H; discriminate H|].
      intros _. left. reflexivity.
  - (* GenerateStoryClicked *)
    destruct (_ && _ && _) eqn:Hguard; [|exact Hc].
    apply andb_true_iff in Hguard as [_ Hable].
    apply negb_true_iff in Hable. unfold generateStoryDisabled in Hable.
    apply orb_false_iff in Hable as [_ Hblank].
    unfold handleGenerateStoryRequest. rewrite Hblank.
    keeps_cells Hc.
    intros _ _. split; [intros _; discriminate|reflexivity].
  - (* StoryAnswered *)
    destruct stc as [call|]; [|exact Hc].
    destruct m.
    + unfold handleGenerateStoryAnswer.
      destruct (generateStory _ _ _) as [[story|e] logged];
        keeps_cells Hc;
        intros _ _; (split; [intros H; discriminate H|intros H; contradiction]).
    + keeps_cells Hc. intros H. discriminate H.
  - (* PlayClicked *)
    destruct (_ && _ && _); [|exact Hc].
    rewrite handlePlay_run. cbn [snd].
    destruct (audioBuffer s), (audioContextRef s); keeps_cells Hc.
  - (* Unmounted *)
    destruct m; [|exact Hc].
    destruct Hc as (Hnever & Hout & Hctx & Hmt & _).
    destruct (Hmt eq_refl) as ((Hlive & _ & _) & _).
    cbn [appState storyTab browser isMounted speechCall storyCall fst snd] in *.
    rewrite unmount_run. unfold consistent.
    cbn [appState storyTab browser isMounted speechCall storyCall fst snd].
    assert (Hafter :
      liveUrls (urlLog match audioUrl s with
                       | Some url =>
                           {| urlLog := urlLog w ++ [Revoke url];
                              contexts := contexts w;
                              suspended := suspended w;
                              resumed := resumed w;
                              started := started w;
                              console := console w |}
                       | None => w
                       end) = ∅).
    { destruct (audioUrl s) as [url|]; cbn [urlLog]; [|exact Hlive].
      rewrite liveUrls_revoke, Hlive. set_solver. }
    split.
    { destruct (audioUrl s) as [url|]; cbn [urlLog] in *; [|exact Hnever].
      apply neverTwoLive_snoc; [exact Hnever|]. rewrite Hafter, size_empty. lia. }
    split; [exact Hout|]. split; [exact Hctx|].
    split; [intros H; discriminate H|].
    intros _. right. exact Hafter.
  - keeps_cells Hc.
  - keeps_cells Hc.
Qed.

Lemma consistent_run (host : Platform) (tr : Translations)
    (str : StoryTranslations) (events : list Event) (c : Component) :
  consistent c -> consistent (run host tr str events c).
Proof.
  revert c. induction events as [|ev events IH]; intros c Hc; [exact Hc|].
  cbn [run fold_left]. apply IH, consistent_step, Hc.
Qed.

(** C9.  Whatever has happened since the component was mounted (events
    that arrive while a request awaits its answer and the unmounting
    included), at no moment were two object URLs live.  As long as the
    component is mounted, a call of [handleGenerate] never leaves two
    object URLs live, at any moment of it.  When it is called with text to
    speak while the state holds a URL, it revokes that URL first, before
    anything else it does with URLs, and does so at the click, before the
    request is sent; the URL is not live afterwards and is not the one the
    state then holds, which is the only URL live. *)
Theorem object_url_released (host : Platform) (tr : Translations)
    (str : StoryTranslations) (events : list Event) (net : Network) :
  let c := run host tr str events initialComponent in
  let σ := (appState c, browser c) in
  let σ' := (handleGenerate host tr net σ).2 in
  neverTwoLive (urlLog σ.2)
  /\ (isMounted c = true ->
      neverTwoLive (urlLog σ'.2)
      /\ liveUrls (urlLog σ'.2) = match audioUrl σ'.1 with
                                  | Some url => {[url]}
                                  | None => ∅
                                  end
      /\ (forall url, audioUrl σ.1 = Some url ->
          isEmpty (trim (text σ.1)) = false ->
            (exists rest, urlLog σ'.2 = urlLog σ.2 ++ Revoke url :: rest)
            /\ (url ∉ liveUrls (urlLog σ'.2))
            /\ audioUrl σ'.1 <> Some url)
      /\ (forall url, audioUrl σ.1 = Some url ->
          shows Tts (storyTab c) = true ->
          generateDisabled σ.1 = false ->
            let c1 := step host tr str GenerateClicked c in
            urlLog (browser c1) = urlLog σ.2 ++ [Revoke url; Revoke url]
            /\ liveUrls (urlLog (browser c1)) = ∅
            /\ audioUrl (appState c1) = None)).
Proof.
  intros c σ σ'.
  pose proof (consistent_run host tr str events _ consistent_initial) as Hc.
  fold c in Hc. destruct Hc as (Hnever & _ & _ & Hmt & _).
  split; [exact Hnever|].
  intros Hm. destruct (Hmt Hm) as (Hheld & _).
  subst σ' σ. destruct c as [s tab w m sc stc].
  cbn [appState storyTab browser isMounted speechCall storyCall] in *.
  set (σ' := (handleGenerate host tr net (s, w)).2).
  pose proof (urlsHeld_generate host tr net s w Hheld) as (Hlive' & Hnever' & _).
  fold σ' in Hlive', Hnever'.
  split; [exact Hnever'|]. split; [exact Hlive'|].
  split.
  - intros url Hurl Hblank. cbn [fst snd] in Hurl, Hblank.
    pose proof Hheld as (_ & _ & Hbound). cbn [fst snd] in Hbound.
    specialize (Hbound url Hurl).
    pose proof (handleGenerate_fields host tr net s w Hblank) as H. cbv zeta in H.
    destruct H as (_ & _ & _ & _ & _ & _ & _ & _ & _ & H).
    fold σ' in H. rewrite Hurl in H.
    assert (Hne : length (urlLog w ++ [Revoke url; Revoke url]) <> url)
      by (rewrite length_app; cbn [length]; lia).
    assert (Hnot : audioUrl σ'.1 <> Some url).
    { destruct (audioChain _ _ _ _ _) as [[wavBlob [buffer|e]]|e];
        destruct H as (_ & Hu & _); rewrite Hu; congruence. }
    split; [|split; [|exact Hnot]].
    + cbn [snd].
      destruct (audioChain _ _ _ _ _) as [[wavBlob [buffer|e]]|e];
        destruct H as (_ & _ & _ & Hlog & _); rewrite Hlog;
        rewrite <- ?app_assoc; eexists; reflexivity.
    + rewrite Hlive'. destruct (audioUrl σ'.1) as [url'|]; set_solver.
  - intros url Hurl Hshows Hable. cbn [fst snd] in Hurl, Hable.
    cbn [step appState storyTab browser isMounted speechCall storyCall].
    rewrite Hm, Hshows, Hable. cbn [andb negb].
    apply generateDisabled_false in Hable as [_ Hblank].
    rewrite (handleGenerateRequest_run tr s w Hblank). cbv zeta.
    cbn [appState browser fst snd urlLog audioUrl]. rewrite Hurl.
    pose proof (revoked_at_start s w Hheld) as [Hempty _].
    cbv zeta in Hempty. rewrite Hurl in Hempty.
    split; [reflexivity|]. split; [exact Hempty|reflexivity].
Qed.

Lemma object_url_released_witness :
  let c := run standardBrowser english englishStory
             [TextTyped (lit "hi"); GenerateClicked;
              SpeechAnswered (answering "AAD/fw==")]
             initialComponent in
  let σ := (appState c, browser c) in
  let σ' := (handleGenerate standardBrowser english (answering "AAAA") σ).2 in
  audioUrl σ.1 = Some 0%nat
  /\ (exists rest, urlLog σ'.2 = urlLog σ.2 ++ Revoke 0%nat :: rest)
  /\ (0%nat ∉ liveUrls (urlLog σ'.2))
  /\ audioUrl σ'.1 <> Some 0%nat.
Proof.
  intros c σ σ'.
  assert (Hurl : audioUrl σ.1 = Some 0%nat) by reflexivity.
  split; [exact Hurl|].
  destruct (object_url_released standardBrowser english englishStory
              [TextTyped (lit "hi"); GenerateClicked;
               SpeechAnswered (answering "AAD/fw==")]
              (answering "AAAA")) as (_ & H).
  destruct (H eq_refl) as (_ & _ & H' & _).
  apply (H' 0%nat Hurl). reflexivity.
Defined.

(* ================================================================= *)
(** ** Failures *)

(** C7, as amended.  When a step of a call of [handleGenerate] fails (the
    remote call, the base64 decoding, the 16-bit view, the WAV encoding or
    the conversion to floats), the handler does not raise to its caller:
    it returns normally, having logged the thrown value and put one message
    in the error state, the error prefix followed by the message of what
    was thrown (the table's text for unknown errors when that is no
    Error); no playback buffer is set, [isLoading] is false again and
    nothing is played.  When the failure comes before the WAV is encoded,
    no URL is set either. *)
Theorem generation_failure_reported (host : Platform) (tr : Translations)
    (net : Network) (s : AppState) (w : World) (e : Thrown) :
  isEmpty (trim (text s)) = false ->
  let chain := audioChain host net (text s) (selectedVoice s) (contextInUse s w) in
  chainFailure chain = Some e ->
  let out := handleGenerate host tr net (s, w) in
  out.1 = Ok tt
  /\ error out.2.1 = Some (errorText host tr (language s) e)
  /\ audioBuffer out.2.1 = None
  /\ isLoading out.2.1 = false
  /\ last (console out.2.2) = Some e
  /\ started out.2.2 = started w
  /\ (chain = Throw e -> audioUrl out.2.1 = None).
Proof.
  intros Hblank chain Hfail out.
  pose proof (handleGenerate_fields host tr net s w Hblank) as H. cbv zeta in H.
  fold chain in H. fold out in H.
  destruct H as (Hres & _ & _ & _ & Hloading & _ & _ & _ & Hstarted & H).
  destruct chain as [[wavBlob [buffer|e']]|e']; cbn [chainFailure] in Hfail;
    try discriminate Hfail; injection Hfail as ->;
    destruct H as (Herr & Hurl & Hbuf & _ & Hcon);
    (repeat split; try assumption;
     [rewrite Hcon; apply last_snoc | try (intros _; exact Hurl)]).
  intros Habs. discriminate Habs.
Qed.

Lemma generation_failure_reported_witness :
  let s := {| text := lit "hi"; selectedVoice := NORA; isLoading := false;
              error := None; language := En; audioUrl := None;
              audioBuffer := None; audioContextRef := None |} in
  let out := handleGenerate standardBrowser english (answering "A")
               (s, initialWorld) in
  out.1 = Ok tt
  /\ error out.2.1
     = Some (lit "Error: The string to be decoded is not correctly encoded.")
  /\ audioBuffer out.2.1 = None
  /\ audioUrl out.2.1 = None.
Proof.
  intros s out.
  destruct (generation_failure_reported standardBrowser english (answering "A")
              s initialWorld (PlatformError InvalidCharacterError)
              ltac:(reflexivity) ltac:(reflexivity))
    as (Hres & Herr & Hbuf & _ & _ & _ & Hurl).
  split; [exact Hres|]. split; [exact Herr|]. split; [exact Hbuf|].
  apply Hurl. reflexivity.
Defined.

(** C7 as stated fails: the base64 decoding fails on this answer of the
    remote service, and nothing is raised to the caller of the handler. *)
Lemma generation_failure_not_raised :
  let s := {| text := lit "hi"; selectedVoice := NORA; isLoading := false;
              error := None; language := En; audioUrl := None;
              audioBuffer := None; audioContextRef := None |} in
  chainFailure (audioChain standardBrowser (answering "A") (text s)
                  (selectedVoice s) (contextInUse s initialWorld))
  = Some (PlatformError InvalidCharacterError)
  /\ ~ (exists e,
          (handleGenerate standardBrowser english (answering "A")
             (s, initialWorld)).1 = Throw e).
Proof.
  intros s. split; [reflexivity|].
  intros (e & He). vm_compute in He. discriminate He.
Qed.

(* ================================================================= *)
(** ** From the answer of the remote service to the two outputs *)

Lemma generateSpeech_answering (base64 : string) (text : jsstring)
    (voice : VoiceOption) :
  lit base64 <> [] ->
  generateSpeech (answering base64) text voice = (Ok (lit base64), []).
Proof.
  intros Hne. unfold generateSpeech, answering.
  destruct (voicePreset voice text) as [effectiveVoice processedText].
  cbn [mbind result_bind]. destruct (lit base64); [contradiction|reflexivity].
Qed.

(** C5.  When the remote service answers with the base64 text of the four
    bytes 00 00 FF 7F, a call of [handleGenerate] with text to speak
    decodes it once; from those bytes it stores a WAV blob of exactly 48
    bytes whose dataSize field is 4, behind the URL the state then holds,
    and, the audio context having allocated one channel of two frames, a
    playback buffer whose channel 0 is [0.0, 32767/32768]. *)
Theorem two_samples_end_to_end (host : Platform) (tr : Translations)
    (s : AppState) (w : World) :
  isEmpty (trim (text s)) = false ->
  createBuffer host (contextInUse s w) 1 (pcmFrameCount [0; 32767] 1) 24000
    = Ok (silentBuffer 1 2 24000) ->
  let out := handleGenerate host tr (answering "AAD/fw==") (s, w) in
  exists audioBytes url wavBlob buffer,
    decode (lit "AAD/fw==") = Ok audioBytes
    /\ audioBytes = [0; 0; 255; 127]
    /\ newInt16Array audioBytes = Ok [0; 32767]
    /\ createWavBlob [0; 32767] 24000 = Ok wavBlob
    /\ decodeAudioData host audioBytes (contextInUse s w) 24000 1 = Ok buffer
    /\ audioUrl out.2.1 = Some url
    /\ last (urlLog out.2.2) = Some (Create url wavBlob)
    /\ length (blobBytes wavBlob) = 48%nat
    /\ getUint32 (blobBytes wavBlob) 40 = 4
    /\ audioBuffer out.2.1 = Some buffer
    /\ channels buffer = [[S754_zero false; sampleFloat 32767]]
    /\ floatValue (S754_zero false) = Some 0%Q
    /\ (exists q, floatValue (sampleFloat 32767) = Some q /\ (q == 32767 # 32768)%Q)
    /\ error out.2.1 = None.
Proof.
  intros Hblank Hcreate out.
  assert (Hbuffer : decodeAudioData host [0; 0; 255; 127] (contextInUse s w) 24000 1
            = Ok {| bufferSampleRate := 24000;
                    channels := [[S754_zero false; sampleFloat 32767]] |}).
  { unfold decodeAudioData.
    change (newInt16Array [0; 0; 255; 127]) with (Ok [0; 32767]).
    rewrite bind_Ok. cbv zeta. rewrite Hcreate. reflexivity. }
  pose proof (handleGenerate_fields host tr (answering "AAD/fw==") s w Hblank) as H.
  cbv zeta in H. fold out in H.
  destruct H as (_ & _ & _ & _ & _ & _ & _ & _ & _ & H).
  unfold audioChain in H.
  rewrite generateSpeech_answering in H by discriminate.
  cbn [fst] in H. rewrite bind_Ok in H.
  change (decode (lit "AAD/fw==")) with (Ok [0; 0; 255; 127]) in H.
  rewrite bind_Ok in H.
  change (newInt16Array [0; 0; 255; 127]) with (Ok [0; 32767]) in H.
  rewrite bind_Ok in H.
  rewrite createWavBlob_bytes in H. rewrite bind_Ok in H.
  rewrite Hbuffer in H.
  destruct H as (Herr & Hurl & Hbuf & Hlog & _).
  eexists _, _, _, _.
  split; [reflexivity|]. split; [reflexivity|]. split; [reflexivity|].
  split; [apply createWavBlob_bytes|]. split; [exact Hbuffer|].
  split; [exact Hurl|]. split; [rewrite Hlog; apply last_snoc|].
  split; [reflexivity|]. split; [reflexivity|].
  split; [exact Hbuf|]. split; [reflexivity|]. split; [reflexivity|].
  split; [|exact Herr].
  destruct (sampleFloat_exact 32767 ltac:(lia)) as (q & Hq & Heq & _).
  exists q. split; assumption.
Qed.

Lemma two_samples_end_to_end_witness :
  let s := {| text := lit "hi"; selectedVoice := NORA; isLoading := false;
              error := None; language := En; audioUrl := None;
              audioBuffer := None; audioContextRef := None |} in
  let out := handleGenerate standardBrowser english (answering "AAD/fw==")
               (s, initialWorld) in
  exists url wavBlob buffer,
    audioUrl out.2.1 = Some url
    /\ last (urlLog out.2.2) = Some (Create url wavBlob)
    /\ length (blobBytes wavBlob) = 48%nat
    /\ getUint32 (blobBytes wavBlob) 40 = 4
    /\ audioBuffer out.2.1 = Some buffer
    /\ channels buffer = [[S754_zero false; sampleFloat 32767]].
Proof.
  intros s out.
  destruct (two_samples_end_to_end standardBrowser english s initialWorld
              ltac:(reflexivity) ltac:(reflexivity))
    as (audioBytes & url & wavBlob & buffer & _ & _ & _ & _ & _
        & Hurl & Hlog & Hlen & Hsize & Hbuf & Hch & _).
  exists url, wavBlob, buffer. repeat split; assumption.
Defined.

(* ================================================================= *)
(** * Further properties of the utilities *)

(** ** [decode] *)

Lemma toUint8_byte (b : Z) : 0 <= b < 256 -> toUint8 b = b.
Proof.
  intros Hb. unfold toUint8. change 255 with (Z.ones 8).
  rewrite Z.land_ones by lia. apply Z.mod_small. exact Hb.
Qed.

Lemma sextetsToBytes_valid (fuel : nat) (vs : list Z) :
  validBytes (sextetsToBytes fuel vs).
Proof.
  revert vs. induction fuel as [|fuel IH]; intros vs; [constructor|].
  destruct vs as [|a [|b [|c [|d rest]]]]; cbn [sextetsToBytes];
    repeat (constructor; [apply byteOf_range; lia|]); first [apply IH | constructor].
Qed.

Lemma atob_valid (data binaryString : jsstring) :
  atob data = Ok binaryString -> validBytes binaryString.
Proof.
  unfold atob. intros H.
  destruct (_ =? 1)%nat; [discriminate H|].
  destruct (mapM base64Value _) as [vs|]; [|discriminate H].
  injection H as <-. apply sextetsToBytes_valid.
Qed.

Lemma decode_atob (base64 : jsstring) : decode base64 = atob base64.
Proof.
  unfold decode. destruct (atob base64) as [binaryString|e] eqn:Hatob;
    [|reflexivity].
  rewrite bind_Ok. f_equal.
  rewrite fold_store by (rewrite length_replicate; lia).
  rewrite drop_ge by (rewrite length_replicate; lia). rewrite app_nil_r.
  pose proof (atob_valid _ _ Hatob) as Hvalid. clear Hatob.
  unfold charCodeAt. induction binaryString as [|c s IH]; [reflexivity|].
  apply Forall_cons in Hvalid as [Hc Hs].
  cbn [length seq map]. f_equal.
  - apply (toUint8_byte c Hc).
  - rewrite <- fmap_S_seq, map_map. apply IH, Hs.
Qed.

Lemma decode_valid (base64 : jsstring) (bytes : list Z) :
  decode base64 = Ok bytes -> validBytes bytes.
Proof. rewrite decode_atob. apply atob_valid. Qed.

(** The loop of [decode] copies the string [atob] returns, one byte for
    each character, and [decode] fails exactly as [atob] does; the bytes
    are all in the range of a byte. *)
Theorem decode_copies_atob (base64 : jsstring) :
  decode base64 = atob base64
  /\ (forall bytes, decode base64 = Ok bytes -> validBytes bytes).
Proof. split; [apply decode_atob|apply decode_valid]. Qed.

Lemma decode_copies_atob_witness :
  decode (lit "AAD/fw==") = atob (lit "AAD/fw==")
  /\ validBytes [0; 0; 255; 127].
Proof.
  destruct (decode_copies_atob (lit "AAD/fw==")) as [Hcopy Hvalid].
  split; [exact Hcopy|]. apply Hvalid. reflexivity.
Defined.

(** ** [writeString] *)

Lemma forRange_seq_shift {S} (body : nat -> S -> result S) (n k : nat) (s : S) :
  forRange (seq (Datatypes.S k) n) body s
  = forRange (seq k n) (fun i => body (Datatypes.S i)) s.
Proof.
  revert k s. induction n as [|n IH]; intros k s; [reflexivity|].
  cbn [seq forRange]. destruct (body (Datatypes.S k) s) as [s'|e]; [|reflexivity].
  rewrite !bind_Ok. apply IH.
Qed.

Lemma forRange_ext {S} (body1 body2 : nat -> S -> result S) (idx : list nat) (s : S) :
  (forall i s, body1 i s = body2 i s) ->
  forRange idx body1 s = forRange idx body2 s.
Proof.
  intros Hext. revert s. induction idx as [|i idx IH]; intros s; [reflexivity|].
  cbn [forRange]. rewrite Hext. destruct (body2 i s) as [s'|e]; [|reflexivity].
  rewrite !bind_Ok. apply IH.
Qed.

Lemma setBytes_Ok (view : list Z) (offset : Z) (bs : list Z) :
  0 <= offset -> offset + Z.of_nat (length bs) <= Z.of_nat (length view) ->
  setBytes view offset bs
  = Ok (take (Z.to_nat offset) view ++ bs
          ++ drop (Z.to_nat offset + length bs) view).
Proof.
  intros H0 H1. unfold setBytes.
  destruct (Z.leb_spec 0 offset); [|lia].
  destruct (Z.leb_spec (offset + Z.of_nat (length bs)) (Z.of_nat (length view)));
    [reflexivity|lia].
Qed.

Lemma setBytes_Throw (view : list Z) (offset : Z) (bs : list Z) :
  offset < 0 \/ Z.of_nat (length view) < offset + Z.of_nat (length bs) ->
  setBytes view offset bs = Throw (PlatformError RangeErrorDataView).
Proof.
  intros H. unfold setBytes.
  destruct (Z.leb_spec 0 offset); [|reflexivity].
  destruct (Z.leb_spec (offset + Z.of_nat (length bs)) (Z.of_nat (length view)));
    [lia|reflexivity].
Qed.

(** [writeString] writes the low byte of every character code as one
    block at [offset], and raises the RangeError of the DataView when the
    string does not fit; the empty string writes nothing, whatever the
    offset. *)
Theorem writeString_block (view : list Z) (offset : Z) (s : jsstring) :
  writeString view offset s
  = match s with
    | [] => Ok view
    | _ => setBytes view offset (map toUint8 s)
    end.
Proof.
  revert view offset. induction s as [|c s IH]; intros view offset; [reflexivity|].
  assert (Hstep : writeString view offset (c :: s)
                  = (v ← setBytes view offset [toUint8 c];
                     writeString v (offset + 1) s)).
  { unfold writeString. cbn [length seq forRange].
    replace (offset + Z.of_nat 0) with offset by lia.
    change (charCodeAt (c :: s) 0) with c.
    change (setUint8 view offset c) with (setBytes view offset [toUint8 c]).
    destruct (setBytes view offset [toUint8 c]) as [v|e]; [|reflexivity].
    rewrite !bind_Ok, forRange_seq_shift. apply forRange_ext.
    intros i v'. unfold charCodeAt. cbn [lookup list_lookup]. f_equal. lia. }
  rewrite Hstep. clear Hstep. cbn [map].
  destruct (Z.lt_ge_cases offset 0) as [Hneg|Hpos].
  { rewrite !setBytes_Throw by (left; exact Hneg). reflexivity. }
  destruct (Z.lt_ge_cases (Z.of_nat (length view)) (offset + 1)) as [Hout|Hin].
  { rewrite !setBytes_Throw by (right; cbn [length]; lia). reflexivity. }
  rewrite (setBytes_Ok view offset [toUint8 c]) by (cbn [length]; lia).
  rewrite bind_Ok, IH. cbn [length].
  set (n := Z.to_nat offset).
  set (v := take n view ++ [toUint8 c] ++ drop (n + 1) view).
  assert (Hlen : length v = length view).
  { subst v. rewrite !length_app, length_take, length_drop. cbn [length]. lia. }
  destruct s as [|c' s];
    [cbn [map]; rewrite setBytes_Ok by (cbn [length]; lia); reflexivity|].
  destruct (Z.lt_ge_cases (Z.of_nat (length view))
              (offset + 1 + Z.of_nat (length (map toUint8 (c' :: s)))))
    as [Hout|Hfit].
  { rewrite !setBytes_Throw; [reflexivity| |]; right; cbn [length] in *; lia. }
  rewrite !setBytes_Ok by (cbn [length] in *; lia). f_equal.
  replace (Z.to_nat (offset + 1)) with (length (take n view ++ [toUint8 c]))
    by (rewrite length_app, length_take; cbn [length]; lia).
  subst v. rewrite (app_assoc (take n view) [toUint8 c]).
  rewrite take_app_length, drop_app_add' by reflexivity.
  rewrite drop_drop, <- app_assoc. fold n. cbn [app length].
  do 4 f_equal. lia.
Qed.

(** ** [createWavBlob] *)

(** Whatever the samples and the sample rate, every write of
    [createWavBlob] lies inside the buffer it allocated and nothing is
    raised: the blob has type audio/wav and 44 + 2 * length bytes, the
    header first and then the samples, two bytes each, low byte first; the
    32-bit fields hold their values modulo 2^32. *)
Theorem createWavBlob_never_throws (pcmData : list Z) (sampleRate : Z) :
  let dataSize := Z.of_nat (length pcmData) * 2 in
  exists blob,
    createWavBlob pcmData sampleRate = Ok blob
    /\ blobType blob = "audio/wav"%string
    /\ Z.of_nat (length (blobBytes blob)) = 44 + dataSize
    /\ take 44 (blobBytes blob) = wavHeader dataSize sampleRate
    /\ drop 44 (blobBytes blob) = flat_map le16 pcmData
    /\ getUint32 (blobBytes blob) 4 = (36 + dataSize) mod 4294967296
    /\ getUint32 (blobBytes blob) 24 = sampleRate mod 4294967296
    /\ getUint32 (blobBytes blob) 28 = (sampleRate * 2) mod 4294967296
    /\ getUint32 (blobBytes blob) 40 = dataSize mod 4294967296.
Proof.
  intros dataSize.
  eexists. split; [apply createWavBlob_bytes|]. cbn [blobBytes blobType].
  pose proof (header_reads dataSize sampleRate (flat_map le16 pcmData)) as H.
  cbv zeta in H.
  destruct H as (_ & H4 & _ & _ & _ & _ & _ & H24 & H28 & _ & _ & _ & H40).
  split; [reflexivity|]. split.
  { rewrite length_app, length_wavHeader, length_flat_map_le16. lia. }
  split; [rewrite take_app_length' by reflexivity; reflexivity|].
  split; [rewrite drop_app_length' by reflexivity; reflexivity|].
  repeat split; assumption.
Qed.

Lemma le16_toInt16 (lo hi : Z) :
  0 <= lo < 256 -> 0 <= hi < 256 ->
  le16 (toInt16 (Z.lor lo (Z.shiftl hi 8))) = [lo; hi].
Proof.
  intros Hlo Hhi. rewrite lor_shiftl_byte by exact Hlo.
  unfold le16. rewrite !byteOf_div by lia.
  change (2 ^ (8 * 0)) with 1. change (2 ^ (8 * 1)) with 256.
  rewrite Z.div_1_r. unfold toInt16.
  destruct (Z.ltb_spec (lo + 256 * hi) 32768).
  - f_equal; [|f_equal].
    + symmetry. apply Z.mod_unique_pos with (q := hi); lia.
    + replace ((lo + 256 * hi) / 256) with hi
        by (apply Z.div_unique_pos with (r := lo); lia).
      apply Z.mod_small. lia.
  - f_equal; [|f_equal].
    + symmetry. apply Z.mod_unique_pos with (q := hi - 256); lia.
    + replace ((lo + 256 * hi - 65536) / 256) with (hi - 256)
        by (apply Z.div_unique_pos with (r := lo); lia).
      symmetry. apply Z.mod_unique_pos with (q := -1); lia.
Qed.

Lemma le16_int16Elements (data : list Z) :
  validBytes data ->
  Z.of_nat (length data) mod 2 = 0 ->
  flat_map le16 (int16Elements data) = data.
Proof.
  induction data as [|x|lo hi rest IH] using pairs_ind; intros Hvalid Heven.
  - reflexivity.
  - cbn [length] in Heven. discriminate Heven.
  - unfold validBytes in *.
    apply Forall_cons in Hvalid as [Hlo Hrest].
    apply Forall_cons in Hrest as [Hhi Hrest].
    cbn [int16Elements flat_map]. rewrite le16_toInt16 by assumption.
    cbn [app]. do 2 f_equal. apply IH; [exact Hrest|].
    cbn [length] in Heven.
    replace (Z.of_nat (S (S (length rest)))) with (Z.of_nat (length rest) + 1 * 2)
      in Heven by lia.
    rewrite Z_mod_plus_full in Heven. exact Heven.
Qed.

(** The download is the payload behind a header: viewing decoded bytes as
    16-bit samples and encoding those with [createWavBlob] gives the 44
    bytes of the header followed by the very bytes decoded. *)
Theorem wav_body_is_payload (data : list Z) (sampleRate : Z) :
  validBytes data ->
  Z.of_nat (length data) mod 2 = 0 ->
  exists dataInt16 blob,
    newInt16Array data = Ok dataInt16
    /\ createWavBlob dataInt16 sampleRate = Ok blob
    /\ blobBytes blob = wavHeader (Z.of_nat (length data)) sampleRate ++ data.
Proof.
  intros Hvalid Heven.
  exists (int16Elements data). eexists.
  split; [apply newInt16Array_even; exact Heven|].
  split; [apply createWavBlob_bytes|]. cbn [blobBytes].
  rewrite le16_int16Elements by assumption.
  do 2 f_equal.
  apply Z.mod_divide in Heven; [|lia]. destruct Heven as [n Hn].
  rewrite (int16Elements_length_Z data n) by lia. lia.
Qed.

Lemma wav_body_is_payload_witness :
  exists dataInt16 blob,
    newInt16Array [0; 0; 255; 127] = Ok dataInt16
    /\ createWavBlob dataInt16 24000 = Ok blob
    /\ blobBytes blob = wavHeader 4 24000 ++ [0; 0; 255; 127].
Proof.
  apply (wav_body_is_payload [0; 0; 255; 127] 24000).
  - repeat constructor; lia.
  - reflexivity.
Defined.

(** ** [decodeAudioData] on a sample count that is no whole number of frames *)

Lemma fold_store_past {A} (g : nat -> A) (n start : nat) (l : list A) :
  (length l <= start)%nat ->
  fold_left (fun l i => <[i := g i]> l) (seq start n) l = l.
Proof.
  revert start l. induction n as [|n IH]; intros start l Hl; [reflexivity|].
  cbn [seq fold_left]. rewrite list_insert_ge by lia. apply IH. lia.
Qed.

(** Stores past the end of a typed array are ignored. *)
Lemma fold_store_all {A} (g : nat -> A) (n : nat) (l0 : list A) :
  (length l0 <= n)%nat ->
  fold_left (fun l i => <[i := g i]> l) (seq 0 n) l0
  = map g (seq 0 (length l0)).
Proof.
  intros Hn.
  replace n with (length l0 + (n - length l0))%nat at 1 by lia.
  rewrite seq_app, fold_left_app, fold_store by lia.
  rewrite drop_all, app_nil_r. cbn [Nat.add].
  apply fold_store_past. rewrite length_map, length_seq. lia.
Qed.

Lemma pcmFrameCount_floor (dataInt16 : list Z) (numChannels : Z) :
  1 <= numChannels ->
  Qfloor (pcmFrameCount dataInt16 numChannels)
  = Z.of_nat (length dataInt16) / numChannels.
Proof.
  intros Hnc. destruct numChannels as [|p|p]; try lia.
  unfold pcmFrameCount, Qdiv, Qmult, Qinv, inject_Z, Qfloor. cbn [Qnum Qden].
  rewrite Z.mul_1_r, Pos.mul_1_l. reflexivity.
Qed.

Lemma rounds_floor (dataInt16 : list Z) (numChannels : Z) :
  1 <= numChannels ->
  (Z.to_nat (Z.of_nat (length dataInt16) / numChannels)
   <= rounds (pcmFrameCount dataInt16 numChannels))%nat.
Proof.
  intros Hnc.
  assert (Hle : Qfloor (pcmFrameCount dataInt16 numChannels)
                <= Qceiling (pcmFrameCount dataInt16 numChannels)).
  { rewrite Zle_Qle. eapply Qle_trans; [apply Qfloor_le|apply Qle_ceiling]. }
  rewrite pcmFrameCount_floor in Hle by exact Hnc.
  assert (Hpos : 0 <= Z.of_nat (length dataInt16) / numChannels)
    by (apply Z.div_pos; lia).
  unfold rounds. lia.
Qed.

(** Whatever the number of samples, once the audio context has allocated
    [numChannels] channels of as many floats as there are whole frames,
    [decodeAudioData] fills every channel with the samples of the whole
    frames, each divided by 32768.0 exactly; the samples after the last
    whole frame go nowhere, and no NaN is stored for them. *)
Theorem decodeAudioData_whole_frames (host : Platform) (data : list Z)
    (ctx : AudioContext) (sampleRate numChannels : Z) (buffer0 : AudioBuffer) :
  1 <= numChannels ->
  validBytes data ->
  Z.of_nat (length data) mod 2 = 0 ->
  let samples := int16Elements data in
  let frames := Z.to_nat (Z.of_nat (length samples) / numChannels) in
  createBuffer host ctx numChannels (pcmFrameCount samples numChannels) sampleRate
    = Ok buffer0 ->
  Z.of_nat (length (channels buffer0)) = numChannels ->
  Forall (fun channelData => length channelData = frames) (channels buffer0) ->
  exists buffer,
    decodeAudioData host data ctx sampleRate numChannels = Ok buffer
    /\ length (channels buffer) = length (channels buffer0)
    /\ (forall c channelData, channels buffer !! c = Some channelData ->
          length channelData = frames
          /\ (forall i x, channelData !! i = Some x ->
                exists v q,
                  samples !! Z.to_nat (Z.of_nat i * numChannels + Z.of_nat c) = Some v
                  /\ x = sampleFloat v
                  /\ floatValue x = Some q
                  /\ (q == v # 32768)%Q)).
Proof.
  intros Hnc Hbytes Heven samples frames Hcreate Hchannels Hlengths.
  set (g := fun (channel i : nat) =>
              fround (divide
                (elementNumber
                   (samples !! Z.to_nat (Z.of_nat i * numChannels + Z.of_nat channel)))
                (numberOfZ 32768))).
  set (F := fun (channel : nat) (channelData : list spec_float) =>
              fold_left (fun channelData i => <[i := g channel i]> channelData)
                (seq 0 (rounds (pcmFrameCount samples numChannels)))
                channelData).
  assert (Hrun : decodeAudioData host data ctx sampleRate numChannels
            = Ok {| bufferSampleRate := bufferSampleRate buffer0;
                    channels := imap (fun c cd =>
                        if decide (c < Z.to_nat numChannels)%nat then F c cd else cd)
                      (channels buffer0) |}).
  { unfold decodeAudioData.
    rewrite newInt16Array_even by exact Heven.
    rewrite bind_Ok. cbv zeta. fold samples. rewrite Hcreate, bind_Ok.
    apply (channels_loop F). lia. }
  eexists. split; [exact Hrun|]. cbn [channels].
  split; [apply length_imap|].
  intros c cd Hcd. rewrite list_lookup_imap in Hcd.
  destruct (channels buffer0 !! c) as [cd0|] eqn:Hcd0; [|discriminate Hcd].
  cbn [fmap option_fmap option_map] in Hcd.
  pose proof (lookup_lt_Some _ _ _ Hcd0) as Hc.
  destruct (decide (c < Z.to_nat numChannels)%nat) as [_|Hge]; [|lia].
  injection Hcd as <-.
  rewrite Forall_lookup in Hlengths. specialize (Hlengths c cd0 Hcd0).
  unfold F. rewrite fold_store_all
    by (rewrite Hlengths; apply rounds_floor; exact Hnc).
  rewrite Hlengths, length_map, length_seq. split; [reflexivity|].
  intros i x Hx. rewrite list_lookup_fmap in Hx.
  destruct (seq 0 frames !! i) as [i'|] eqn:Hi; [|discriminate Hx].
  pose proof (lookup_lt_Some _ _ _ Hi) as Hlt. rewrite length_seq in Hlt.
  rewrite lookup_seq_lt in Hi by exact Hlt. injection Hi as <-.
  cbn [fmap option_fmap option_map Nat.add] in Hx. injection Hx as <-.
  assert (Hidx : (Z.to_nat (Z.of_nat i * numChannels + Z.of_nat c)
                  < length samples)%nat).
  { subst frames.
    pose proof (Z.mul_div_le (Z.of_nat (length samples)) numChannels ltac:(lia)).
    pose proof (Z.div_pos (Z.of_nat (length samples)) numChannels ltac:(lia) ltac:(lia)).
    nia. }
  destruct (lookup_lt_is_Some_2 _ _ Hidx) as [v Hv].
  pose proof (int16Elements_valid data Hbytes) as Hvalid.
  unfold validPcm in Hvalid. rewrite Forall_lookup in Hvalid.
  specialize (Hvalid _ _ Hv).
  destruct (sampleFloat_exact v Hvalid) as (q & Hq & Heq & _).
  exists v, q. unfold g. rewrite Hv.
  split; [reflexivity|]. split; [reflexivity|]. split; assumption.
Qed.

Lemma decodeAudioData_whole_frames_witness :
  exists buffer,
    decodeAudioData standardBrowser [1; 0; 2; 0; 3; 0]
      {| ctxId := 0; ctxSampleRate := 24000 |} 24000 2 = Ok buffer
    /\ length (channels buffer) = 2%nat.
Proof.
  destruct (decodeAudioData_whole_frames standardBrowser [1; 0; 2; 0; 3; 0]
              {| ctxId := 0; ctxSampleRate := 24000 |} 24000 2
              (silentBuffer 2 1 24000)
              ltac:(lia) ltac:(repeat constructor; lia) ltac:(reflexivity)
              ltac:(reflexivity) ltac:(reflexivity) ltac:(repeat constructor))
    as (buffer & Hrun & Hlen & _).
  exists buffer. split; [exact Hrun|exact Hlen].
Defined.

(* ================================================================= *)
(** * Further properties of the services *)

(** [generateSpeech] makes one remote call, for the TTS model, with the
    text unchanged behind an instruction and one of five voices.  It
    returns the audio string of the answer when there is one and it is
    not empty, logging nothing; in every other case it raises the same
    Error, whose message does not tell the cause: the cause only goes to
    the console. *)
Theorem generateSpeech_outcomes (text : jsstring) (voice : VoiceOption) :
  exists instruction voiceName,
    instruction <> []
    /\ voiceName ∈ ["Kore"; "Zephyr"; "Fenrir"; "Puck"; "Charon"]%string
    /\ forall net : Network,
         let answer := net {| reqModel := "gemini-2.5-flash-preview-tts";
                              reqText := instruction ++ text;
                              reqVoiceName := voiceName |} in
         let out := generateSpeech net text voice in
         ((exists base64Audio,
             answer = Ok (Some base64Audio) /\ base64Audio <> []
             /\ out = (Ok base64Audio, []))
          \/ (exists cause,
                out = (Throw (ErrorObject (lit "Failed to generate speech.")), [cause])
                /\ (answer = Throw cause
                    \/ (cause = ErrorObject (lit "Could not generate audio data.")
                        /\ (answer = Ok None \/ answer = Ok (Some [])))))).
Proof.
  assert (Hcases : forall (net : Network) (req : SpeechRequest),
            let answer := net req in
            let out :=
              match (response ← net req;
                     match response with
                     | Some (c :: rest) => Ok (c :: rest)
                     | _ => Throw (ErrorObject (lit "Could not generate audio data."))
                     end) with
              | Ok base64Audio => (Ok base64Audio, [])
              | Throw error =>
                  (Throw (ErrorObject (lit "Failed to generate speech.")), [error])
              end in
            (exists base64Audio,
               answer = Ok (Some base64Audio) /\ base64Audio <> []
               /\ out = (Ok base64Audio, []))
            \/ (exists cause,
                  out = (Throw (ErrorObject (lit "Failed to generate speech.")), [cause])
                  /\ (answer = Throw cause
                      \/ (cause = ErrorObject (lit "Could not generate audio data.")
                          /\ (answer = Ok None \/ answer = Ok (Some [])))))).
  { intros net req. cbv zeta.
    destruct (net req) as [[[|c rest]|]|e]; cbn [mbind result_bind].
    - right. eexists. split; [reflexivity|]. right. split; [reflexivity|]. right. reflexivity.
    - left. eexists. split; [reflexivity|]. split; [discriminate|reflexivity].
    - right. eexists. split; [reflexivity|]. right. split; [reflexivity|]. left. reflexivity.
    - right. eexists. split; [reflexivity|]. left. reflexivity. }
  destruct voice; eexists _, _;
    (split; [|split; [|intros net; unfold generateSpeech; cbn [voicePreset];
                       apply (Hcases net)]]);
    first [discriminate | set_solver].
Qed.

(** ** White space *)

Lemma trimStart_nil (s : jsstring) :
  trimStart s = [] <-> forallb isWhiteSpace s = true.
Proof.
  induction s as [|c s IH]; [split; reflexivity|].
  cbn [trimStart forallb]. destruct (isWhiteSpace c); cbn [andb].
  - exact IH.
  - split; discriminate.
Qed.

Lemma trimStart_head (s : jsstring) (c : Z) (rest : jsstring) :
  trimStart s = c :: rest -> isWhiteSpace c = false.
Proof.
  induction s as [|c' s IH]; [discriminate|].
  cbn [trimStart]. destruct (isWhiteSpace c') eqn:Hc'; [exact IH|].
  intros [= <- _]. exact Hc'.
Qed.

Lemma trimStart_suffix (s : jsstring) :
  exists pre, s = pre ++ trimStart s /\ forallb isWhiteSpace pre = true.
Proof.
  induction s as [|c s (pre & Hs & Hpre)]; [exists []; split; reflexivity|].
  cbn [trimStart]. destruct (isWhiteSpace c) eqn:Hc.
  - exists (c :: pre). split; [cbn [app]; f_equal; exact Hs|].
    cbn [forallb]. rewrite Hc. exact Hpre.
  - exists []. split; reflexivity.
Qed.

Lemma forallb_reverse (p : Z -> bool) (s : list Z) :
  forallb p (reverse s) = forallb p s.
Proof.
  induction s as [|c s IH]; [reflexivity|].
  rewrite reverse_cons, forallb_app, IH. cbn [forallb].
  rewrite andb_true_r. apply andb_comm.
Qed.

(** [!s.trim()] holds exactly of the strings of white space. *)
Lemma isEmpty_trim (s : jsstring) :
  isEmpty (trim s) = forallb isWhiteSpace s.
Proof.
  unfold trim.
  destruct (trimStart_suffix s) as (pre & Hs & Hpre).
  destruct (trimStart s) as [|c rest] eqn:Ht.
  - cbn. symmetry. apply trimStart_nil. exact Ht.
  - assert (Hc : isWhiteSpace c = false) by (eapply trimStart_head; exact Ht).
    assert (Hnot : forallb isWhiteSpace s = false).
    { rewrite Hs, forallb_app. cbn [forallb]. rewrite Hc.
      cbn [andb]. apply andb_false_r. }
    rewrite Hnot.
    destruct (trimStart (reverse (c :: rest))) as [|c' rest'] eqn:Hr.
    + apply trimStart_nil in Hr. rewrite forallb_reverse in Hr.
      cbn [forallb] in Hr. rewrite Hc in Hr. discriminate Hr.
    + rewrite reverse_cons. destruct (reverse rest'); reflexivity.
Qed.




(** The test for a missing story comes before [trim]: an answer made of
    white space only is returned as the empty story. *)
Theorem generateStory_blank_answer (text prompt : jsstring) (language : Language) :
  text <> [] ->
  forallb isWhiteSpace text = true ->
  generateStory (fun _ => Ok (Some text)) prompt language = (Ok [], []).
Proof.
  intros Hne Hblank. unfold generateStory. cbn [mbind result_bind].
  destruct text as [|c rest]; [contradiction|].
  pose proof (isEmpty_trim (c :: rest)) as H. rewrite Hblank in H.
  destruct (trim (c :: rest)); [reflexivity|discriminate H].
Qed.

Lemma generateStory_blank_answer_witness :
  generateStory (fun _ => Ok (Some (lit "  "))) (lit "a cat") En = (Ok [], []).
Proof.
  apply (generateStory_blank_answer (lit "  ") (lit "a cat") En).
  - discriminate.
  - reflexivity.
Defined.

Lemma generateStory_throws (net : StoryNetwork) (prompt : jsstring)
    (language : Language) (e : Thrown) :
  (generateStory net prompt language).1 = Throw e ->
  e = ErrorObject (lit "Failed to generate the story.").
Proof.
  unfold generateStory. cbv zeta.
  destruct (net _) as [[[|c rest]|]|e']; cbn [mbind result_bind fst];
    intros H; try discriminate H; injection H as <-; reflexivity.
Qed.

(** ** [handleGenerateStory] *)

(** [handleGenerateStory] never touches the audio: voice, loading flag,
    URL, buffer and context stay, as do the language and the prompt.  With
    a blank prompt it only sets the story error and calls nothing.
    Otherwise it ends with [isStoryLoading] false and the audio error
    cleared; on success the text becomes the story and the tab switches to
    speech; on failure text and tab stay and the story error is the error
    prefix followed by the one message [generateStory] raises with, never
    the fallback text. *)
Theorem handleGenerateStory_outcomes (host : Platform) (tr : Translations)
    (str : StoryTranslations) (net : StoryNetwork)
    (tab : StoryTab) (s : AppState) (console : list Thrown) :
  let out := handleGenerateStory host tr str net (tab, s, console) in
  let tab' := out.1.1 in
  let s' := out.1.2 in
  let console' := out.2 in
  (selectedVoice s' = selectedVoice s /\ isLoading s' = isLoading s
   /\ language s' = language s /\ audioUrl s' = audioUrl s
   /\ audioBuffer s' = audioBuffer s /\ audioContextRef s' = audioContextRef s
   /\ storyPrompt tab' = storyPrompt tab)
  /\ (isEmpty (trim (storyPrompt tab)) = true ->
        (forall net', handleGenerateStory host tr str net' (tab, s, console) = out)
        /\ tab' = setStoryError (Some (tStory str (language s) errorEnterPrompt)) tab
        /\ s' = s /\ console' = console)
  /\ (isEmpty (trim (storyPrompt tab)) = false ->
        isStoryLoading tab' = false /\ error s' = None
        /\ match (generateStory net (storyPrompt tab) (language s)).1 with
           | Ok story =>
               text s' = story /\ mode tab' = Tts /\ storyError tab' = None
           | Throw _ =>
               text s' = text s /\ mode tab' = mode tab
               /\ storyError tab'
                  = Some (t tr (language s) errorPrefix ++ lit " "
                            ++ lit "Failed to generate the story.")
               /\ last console'
                  = Some (ErrorObject (lit "Failed to generate the story."))
           end).
Proof.
  cbv zeta. unfold handleGenerateStory.
  destruct (isEmpty (trim (storyPrompt tab))) eqn:Hblank.
  { cbn [fst snd]. split; [repeat split|].
    split; [intros _; repeat split|intros H; discriminate H]. }
  cbn [storyPrompt setStoryError setIsStoryLoading language].
  pose proof (generateStory_throws net (storyPrompt tab) (language s)) as Hthrows.
  destruct (generateStory net (storyPrompt tab) (language s)) as [[story|e] logged];
    cbn [fst snd] in *.
  - split; [repeat split|]. split; [intros H; discriminate H|].
    intros _. repeat split.
  - rewrite (Hthrows e eq_refl).
    split; [repeat split|]. split; [intros H; discriminate H|].
    intros _. repeat split. apply last_snoc.
Qed.

Lemma handleGenerateStory_outcomes_witness :
  let tab := {| mode := Story; storyPrompt := lit "a cat"; isStoryLoading := false;
                storyError := None |} in
  let out := handleGenerateStory standardBrowser english (fun _ _ => [])
               (fun _ => Ok (Some (lit " Once upon a time. ")))
               (tab, initialState, []) in
  isStoryLoading out.1.1 = false
  /\ error out.1.2 = None
  /\ text out.1.2 = lit "Once upon a time."
  /\ mode out.1.1 = Tts
  /\ storyError out.1.1 = None.
Proof.
  intros tab out.
  destruct (handleGenerateStory_outcomes standardBrowser english (fun _ _ => [])
              (fun _ => Ok (Some (lit " Once upon a time. ")))
              tab initialState []) as (_ & _ & H).
  exact (H eq_refl).
Defined.

(* ================================================================= *)
(** * Further properties of the handlers *)

(** [handleGenerate] takes its early return exactly when the text is made
    of white space only (the empty text included): then it sets the error
    to the text of [errorEnterText], calls no service and changes nothing
    else.  On any other text it goes on: it ends holding an audio
    context, with [isLoading] false. *)
Theorem handleGenerate_blank_text (host : Platform) (tr : Translations)
    (net : Network) (s : AppState) (w : World) :
  (forallb isWhiteSpace (text s) = true ->
     handleGenerate host tr net (s, w)
     = (Ok tt,
        ({| text := text s; selectedVoice := selectedVoice s;
            isLoading := isLoading s;
            error := Some (t tr (language s) errorEnterText);
            language := language s; audioUrl := audioUrl s;
            audioBuffer := audioBuffer s; audioContextRef := audioContextRef s |},
         w))
     /\ forall net', handleGenerate host tr net' (s, w)
                     = handleGenerate host tr net (s, w))
  /\ (forallb isWhiteSpace (text s) = false ->
        audioContextRef (handleGenerate host tr net (s, w)).2.1
        = Some (contextInUse s w)
        /\ isLoading (handleGenerate host tr net (s, w)).2.1 = false).
Proof.
  split; intros Hblank; rewrite <- isEmpty_trim in Hblank.
  - split; [apply handleGenerate_blank; exact Hblank|].
    intros net'. rewrite !handleGenerate_blank by exact Hblank. reflexivity.
  - pose proof (handleGenerate_fields host tr net s w Hblank) as H. cbv zeta in H.
    destruct H as (_ & _ & _ & _ & Hloading & Href & _).
    split; assumption.
Qed.

Lemma handleGenerate_blank_text_witness :
  let s := {| text := lit "  "; selectedVoice := NORA; isLoading := false;
              error := None; language := En; audioUrl := None;
              audioBuffer := None; audioContextRef := None |} in
  handleGenerate standardBrowser english (answering "AAAA") (s, initialWorld)
  = (Ok tt,
     ({| text := lit "  "; selectedVoice := NORA; isLoading := false;
         error := Some (lit "Please enter some text.");
         language := En; audioUrl := None;
         audioBuffer := None; audioContextRef := None |},
      initialWorld)).
Proof.
  intros s.
  destruct (handleGenerate_blank_text standardBrowser english (answering "AAAA")
              s initialWorld) as (H & _).
  apply H. reflexivity.
Defined.

(** When every step succeeds, [handleGenerate] ends without error, holding
    the playback buffer and the URL of a blob of type audio/wav made of
    the 44 bytes of the header and then exactly the bytes decoded from the
    answer of the remote service. *)
Theorem handleGenerate_success (host : Platform) (tr : Translations)
    (net : Network) (s : AppState) (w : World)
    (base64Audio : jsstring) (audioBytes : list Z) (buffer : AudioBuffer) :
  isEmpty (trim (text s)) = false ->
  (generateSpeech net (text s) (selectedVoice s)).1 = Ok base64Audio ->
  decode base64Audio = Ok audioBytes ->
  Z.of_nat (length audioBytes) mod 2 = 0 ->
  decodeAudioData host audioBytes (contextInUse s w) 24000 1 = Ok buffer ->
  let out := handleGenerate host tr net (s, w) in
  out.1 = Ok tt
  /\ error out.2.1 = None
  /\ isLoading out.2.1 = false
  /\ audioBuffer out.2.1 = Some buffer
  /\ exists url,
       audioUrl out.2.1 = Some url
       /\ last (urlLog out.2.2)
          = Some (Create url
                    {| blobBytes := wavHeader (Z.of_nat (length audioBytes)) 24000
                                      ++ audioBytes;
                       blobType := "audio/wav" |}).
Proof.
  intros Hblank Hspeech Hdecode Heven Hbuffer out.
  pose proof (handleGenerate_fields host tr net s w Hblank) as H. cbv zeta in H.
  fold out in H.
  destruct H as (Hres & _ & _ & _ & Hloading & _ & _ & _ & _ & H).
  unfold audioChain in H. rewrite Hspeech, bind_Ok, Hdecode, bind_Ok in H.
  rewrite (newInt16Array_even _ Heven), bind_Ok in H.
  rewrite createWavBlob_bytes, bind_Ok, Hbuffer in H.
  destruct H as (Herr & Hurl & Hbuf & Hlog & _).
  assert (Hvalid : validBytes audioBytes)
    by (apply (decode_valid base64Audio); exact Hdecode).
  rewrite (le16_int16Elements _ Hvalid Heven) in Hlog.
  apply Z.mod_divide in Heven; [|lia]. destruct Heven as [n Hn].
  rewrite (int16Elements_length_Z audioBytes n) in Hlog by lia.
  replace (n * 2) with (Z.of_nat (length audioBytes)) in Hlog by lia.
  split; [exact Hres|]. split; [exact Herr|]. split; [exact Hloading|].
  split; [exact Hbuf|].
  eexists. split; [exact Hurl|]. rewrite Hlog. apply last_snoc.
Qed.

Lemma handleGenerate_success_witness :
  let s := {| text := lit "hi"; selectedVoice := NORA; isLoading := false;
              error := None; language := En; audioUrl := None;
              audioBuffer := None; audioContextRef := None |} in
  let out := handleGenerate standardBrowser english (answering "AQIDBA==")
               (s, initialWorld) in
  error out.2.1 = None
  /\ exists url,
       audioUrl out.2.1 = Some url
       /\ last (urlLog out.2.2)
          = Some (Create url {| blobBytes := wavHeader 4 24000 ++ [1; 2; 3; 4];
                                blobType := "audio/wav" |}).
Proof.
  intros s out.
  destruct (handleGenerate_success standardBrowser english (answering "AQIDBA==")
              s initialWorld (lit "AQIDBA==") [1; 2; 3; 4]
              {| bufferSampleRate := 24000;
                 channels := [[sampleFloat 513; sampleFloat 1027]] |}
              ltac:(reflexivity) ltac:(reflexivity) ltac:(reflexivity)
              ltac:(reflexivity) ltac:(vm_compute; reflexivity))
    as (_ & Herr & _ & _ & url & Hurl & Hlog).
  split; [exact Herr|]. exists url. split; assumption.
Defined.

(** When the conversion to floats fails after the WAV was encoded,
    [handleGenerate] ends with the error set and no playback buffer, but
    holding the URL of the encoded WAV, which stays live. *)
Theorem handleGenerate_conversion_failure (host : Platform) (tr : Translations)
    (net : Network) (s : AppState) (w : World) (wavBlob : Blob) (e : Thrown) :
  isEmpty (trim (text s)) = false ->
  urlsHeld (s, w) ->
  audioChain host net (text s) (selectedVoice s) (contextInUse s w)
    = Ok (wavBlob, Throw e) ->
  let out := handleGenerate host tr net (s, w) in
  error out.2.1 = Some (errorText host tr (language s) e)
  /\ audioBuffer out.2.1 = None
  /\ exists url,
       audioUrl out.2.1 = Some url
       /\ last (urlLog out.2.2) = Some (Create url wavBlob)
       /\ liveUrls (urlLog out.2.2) = {[url]}.
Proof.
  intros Hblank Hheld Hchain out.
  pose proof (urlsHeld_generate host tr net s w Hheld) as (Hlive & _).
  fold out in Hlive.
  pose proof (handleGenerate_fields host tr net s w Hblank) as H. cbv zeta in H.
  fold out in H. rewrite Hchain in H.
  destruct H as (_ & _ & _ & _ & _ & _ & _ & _ & _ & Herr & Hurl & Hbuf & Hlog & _).
  split; [exact Herr|]. split; [exact Hbuf|].
  eexists. split; [exact Hurl|]. split; [rewrite Hlog; apply last_snoc|].
  rewrite Hlive, Hurl. reflexivity.
Qed.

Lemma handleGenerate_conversion_failure_witness :
  let s := {| text := lit "hi"; selectedVoice := NORA; isLoading := false;
              error := None; language := En; audioUrl := None;
              audioBuffer := None; audioContextRef := None |} in
  let out := handleGenerate standardBrowser english (answering " ")
               (s, initialWorld) in
  error out.2.1
  = Some (errorText standardBrowser english En (PlatformError NotSupportedError))
  /\ audioBuffer out.2.1 = None
  /\ exists url,
       audioUrl out.2.1 = Some url
       /\ last (urlLog out.2.2)
          = Some (Create url {| blobBytes := wavHeader 0 24000;
                                blobType := "audio/wav" |})
       /\ liveUrls (urlLog out.2.2) = {[url]}.
Proof.
  intros s out.
  apply (handleGenerate_conversion_failure standardBrowser english (answering " ")
           s initialWorld
           {| blobBytes := wavHeader 0 24000; blobType := "audio/wav" |}
           (PlatformError NotSupportedError)).
  - reflexivity.
  - exact urlsHeld_initial.
  - reflexivity.
Defined.

(** ** States the events lead to *)

(** Whatever has happened since the component was mounted (events that
    arrive while a request awaits its answer and the unmounting included),
    a playback buffer is never held without the URL of its WAV and the
    audio context; so, when there is a buffer to play, [handlePlay] does
    start a source, exactly one, on the one context there is.  As long as
    the component is mounted, [isLoading] holds exactly while a call of
    [handleGenerate] awaits the speech service, and during that time the
    state holds neither URL nor buffer; [isStoryLoading] holds exactly
    while a call of [handleGenerateStory] awaits the story service. *)
Theorem outputs_held_together (host : Platform) (tr : Translations)
    (str : StoryTranslations) (events : list Event) :
  let c := run host tr str events initialComponent in
  let σ := (appState c, browser c) in
  outputsTogether σ.1
  /\ (forall buffer, audioBuffer σ.1 = Some buffer ->
        exists ctx,
          audioContextRef σ.1 = Some ctx
          /\ contexts σ.2 = [ctx]
          /\ started (handlePlay σ).2.2 = started σ.2 ++ [(ctxId ctx, buffer)])
  /\ (isMounted c = true ->
        (isLoading σ.1 = true <-> speechCall c <> None)
        /\ (isStoryLoading (storyTab c) = true <-> storyCall c <> None)
        /\ (isLoading σ.1 = true ->
              audioUrl σ.1 = None /\ audioBuffer σ.1 = None)).
Proof.
  intros c σ.
  pose proof (consistent_run host tr str events _ consistent_initial) as Hc.
  pose proof (singleContext_run host tr str events initialComponent
                singleContext_initial) as Hsingle.
  fold c in Hc, Hsingle. subst σ. destruct c as [s tab w m sc stc].
  destruct Hc as (_ & Hout & _ & Hmt & _).
  cbn [appState storyTab browser isMounted speechCall storyCall fst snd] in *.
  split; [exact Hout|]. split.
  - intros buffer Hbuf.
    destruct (Hout ltac:(rewrite Hbuf; discriminate)) as [_ Href].
    destruct (audioContextRef s) as [ctx|] eqn:Hctx; [|contradiction].
    destruct Hsingle as [Hctxs _]. cbn [fst snd] in Hctxs. rewrite Hctx in Hctxs.
    exists ctx. split; [reflexivity|]. split; [exact Hctxs|].
    rewrite handlePlay_run, Hbuf, Hctx. reflexivity.
  - intros Hm. destruct (Hmt Hm) as (_ & Hl & Hs & Hp).
    cbn [appState storyTab browser isMounted speechCall storyCall] in *.
    split; [exact Hl|]. split; [exact Hs|].
    intros Hloading. apply Hp, Hl, Hloading.
Qed.

Lemma outputs_held_together_witness :
  let c := run standardBrowser english englishStory
             [TextTyped (lit "hi"); GenerateClicked;
              SpeechAnswered (answering "AAD/fw==")]
             initialComponent in
  let σ := (appState c, browser c) in
  exists ctx,
    audioContextRef σ.1 = Some ctx
    /\ contexts σ.2 = [ctx]
    /\ started (handlePlay σ).2.2
       = started σ.2
         ++ [(ctxId ctx,
              {| bufferSampleRate := 24000;
                 channels := [[S754_zero false; sampleFloat 32767]] |})].
Proof.
  intros c σ.
  destruct (outputs_held_together standardBrowser english englishStory
              [TextTyped (lit "hi"); GenerateClicked;
               SpeechAnswered (answering "AAD/fw==")])
    as (_ & H & _).
  apply H. vm_compute. reflexivity.
Defined.

(** ** A call that nothing interrupts *)

(** When the button is enabled, the click followed at once by the answer
    of the service does to the state and the browser what one call of
    [handleGenerate] does from start to end, and no call is left waiting.
    When the button is disabled, not rendered or unmounted, the click does
    nothing. *)
Theorem generate_events_are_one_call (host : Platform) (tr : Translations)
    (str : StoryTranslations) (net : Network) (c : Component) :
  (isMounted c = true ->
   shows Tts (storyTab c) = true ->
   generateDisabled (appState c) = false ->
     let c' := run host tr str [GenerateClicked; SpeechAnswered net] c in
     (appState c', browser c')
     = (handleGenerate host tr net (appState c, browser c)).2
     /\ storyTab c' = storyTab c
     /\ isMounted c' = true
     /\ speechCall c' = None
     /\ storyCall c' = storyCall c)
  /\ (isMounted c && shows Tts (storyTab c) && negb (generateDisabled (appState c))
      = false ->
        step host tr str GenerateClicked c = c).
Proof.
  destruct c as [s tab w m sc stc].
  cbn [appState storyTab browser isMounted speechCall storyCall].
  split.
  - intros -> Hshows Hable.
    cbn [run fold_left step appState storyTab browser isMounted speechCall storyCall].
    rewrite Hshows, Hable. cbn [andb negb].
    apply generateDisabled_false in Hable as [_ Hblank].
    rewrite handleGenerate_parts.
    rewrite (handleGenerateRequest_run tr s w Hblank). cbv zeta.
    cbn [appState storyTab browser isMounted speechCall storyCall fst snd].
    destruct (handleGenerateAnswer _ _ _ _ _) as [r [s' w']].
    repeat split.
  - intros Hguard. cbn [step appState storyTab browser isMounted].
    rewrite Hguard. reflexivity.
Qed.

Lemma generate_events_are_one_call_witness :
  let c := run standardBrowser english englishStory [TextTyped (lit "hi")]
             initialComponent in
  let c' := run standardBrowser english englishStory
              [GenerateClicked; SpeechAnswered (answering "AAD/fw==")] c in
  (appState c', browser c')
  = (handleGenerate standardBrowser english (answering "AAD/fw==")
       (appState c, browser c)).2.
Proof.
  intros c c'.
  destruct (generate_events_are_one_call standardBrowser english englishStory
              (answering "AAD/fw==") c) as (H & _).
  apply H; reflexivity.
Defined.

(** The same for the story: when its button is enabled, the click followed
    at once by the answer of the service does what one call of
    [handleGenerateStory] does from start to end. *)
Theorem story_events_are_one_call (host : Platform) (tr : Translations)
    (str : StoryTranslations) (net : StoryNetwork) (c : Component) :
  isMounted c = true ->
  shows Story (storyTab c) = true ->
  generateStoryDisabled (storyTab c) = false ->
  let c' := run host tr str [GenerateStoryClicked; StoryAnswered net] c in
  (storyTab c', appState c', console (browser c'))
  = handleGenerateStory host tr str net
      (storyTab c, appState c, console (browser c))
  /\ urlLog (browser c') = urlLog (browser c)
  /\ contexts (browser c') = contexts (browser c)
  /\ started (browser c') = started (browser c)
  /\ isMounted c' = true
  /\ speechCall c' = speechCall c
  /\ storyCall c' = None.
Proof.
  destruct c as [s tab w m sc stc].
  cbn [appState storyTab browser isMounted speechCall storyCall].
  intros -> Hshows Hable.
  cbn [run fold_left step appState storyTab browser isMounted speechCall storyCall].
  rewrite Hshows, Hable. cbn [andb negb].
  unfold generateStoryDisabled in Hable.
  apply orb_false_iff in Hable as [_ Hblank].
  rewrite handleGenerateStory_parts.
  unfold handleGenerateStoryRequest. rewrite Hblank.
  cbn [appState storyTab browser isMounted speechCall storyCall console].
  destruct (handleGenerateStoryAnswer _ _ _ _ _ _) as [[tab' s'] console'].
  repeat split.
Qed.

Lemma story_events_are_one_call_witness :
  let c := run standardBrowser english englishStory
             [ModeChosen Story; StoryPromptTyped (lit "a cat")]
             initialComponent in
  let c' := run standardBrowser english englishStory
              [GenerateStoryClicked;
               StoryAnswered (fun _ => Ok (Some (lit " Once upon a time. ")))] c in
  text (appState c') = lit "Once upon a time."
  /\ mode (storyTab c') = Tts.
Proof.
  intros c c'.
  destruct (story_events_are_one_call standardBrowser english englishStory
              (fun _ => Ok (Some (lit " Once upon a time. "))) c
              ltac:(reflexivity) ltac:(reflexivity) ltac:(reflexivity))
    as (H & _).
  fold c' in H.
  split.
  - change (text (storyTab c', appState c', console (browser c')).1.2
            = lit "Once upon a time.").
    rewrite H. reflexivity.
  - change (mode (storyTab c', appState c', console (browser c')).1.1 = Tts).
    rewrite H. reflexivity.
Defined.

(** ** Events while a request awaits its answer *)

(** The message of a failed request is in the language that was selected
    when the button was clicked, also when another language was selected
    while the request awaited its answer: the state then holds the new
    language and a message in the old one. *)
Theorem failure_message_in_language_of_click (host : Platform)
    (tr : Translations) (str : StoryTranslations) (net : Network)
    (c : Component) (chosen : Language) (e : Thrown) :
  isMounted c = true ->
  shows Tts (storyTab c) = true ->
  generateDisabled (appState c) = false ->
  chainFailure (audioChain host net (text (appState c))
                  (selectedVoice (appState c))
                  (contextInUse (appState c) (browser c))) = Some e ->
  let c' := run host tr str
              [GenerateClicked; LanguageChosen chosen; SpeechAnswered net] c in
  language (appState c') = chosen
  /\ error (appState c')
     = Some (errorText host tr (language (appState c)) e)
  /\ isLoading (appState c') = false
  /\ audioBuffer (appState c') = None.
Proof.
  destruct c as [s tab w m sc stc].
  cbn [appState storyTab browser isMounted speechCall storyCall].
  intros -> Hshows Hable Hfail.
  cbn [run fold_left step appState storyTab browser isMounted speechCall storyCall].
  rewrite Hshows, Hable. cbn [andb negb].
  apply generateDisabled_false in Hable as [_ Hblank].
  rewrite (handleGenerateRequest_run tr s w Hblank). cbv zeta.
  cbn [withState appState storyTab browser isMounted speechCall storyCall fst snd].
  rewrite handleGenerateAnswer_run by reflexivity. cbv zeta.
  cbn [callText callVoice callLanguage callContext text selectedVoice language
       audioBuffer].
  destruct (audioChain _ _ _ _ _) as [[wavBlob [buffer|e']]|e'];
    cbn [chainFailure] in Hfail; try discriminate Hfail;
    injection Hfail as ->; repeat split.
Qed.

Lemma failure_message_in_language_of_click_witness :
  let c := run standardBrowser english englishStory [TextTyped (lit "hi")]
             initialComponent in
  let c' := run standardBrowser english englishStory
              [GenerateClicked; LanguageChosen En; SpeechAnswered (answering "A")]
              c in
  language (appState c) = Ar
  /\ language (appState c') = En
  /\ error (appState c')
     = Some (errorText standardBrowser english Ar
               (PlatformError InvalidCharacterError)).
Proof.
  intros c c'. split; [reflexivity|].
  destruct (failure_message_in_language_of_click standardBrowser english
              englishStory (answering "A") c En
              (PlatformError InvalidCharacterError)
              ltac:(reflexivity) ltac:(reflexivity) ltac:(reflexivity)
              ltac:(reflexivity))
    as (Hlang & Herr & _).
  split; assumption.
Defined.

(** ** Unmounting *)

(** Once the component is unmounted and no call of [handleGenerate] awaits
    its answer, nothing that happens touches the state cells or the object
    URLs any more. *)
Lemma unmounted_step (host : Platform) (tr : Translations)
    (str : StoryTranslations) (ev : Event) (c : Component) :
  isMounted c = false ->
  speechCall c = None ->
  let c' := step host tr str ev c in
  isMounted c' = false
  /\ speechCall c' = None
  /\ appState c' = appState c
  /\ urlLog (browser c') = urlLog (browser c).
Proof.
  destruct c as [s tab w m sc stc].
  cbn [appState storyTab browser isMounted speechCall storyCall].
  intros -> ->.
  destruct ev as [v|v|v|v|v| |net| |net| | |id|id];
    cbn [step withState appState storyTab browser isMounted speechCall storyCall
         andb fst snd urlLog];
    try (repeat split; reflexivity).
  destruct stc as [call|];
    cbn [appState storyTab browser isMounted speechCall storyCall urlLog];
    repeat split; reflexivity.
Qed.

Lemma unmounted_run (host : Platform) (tr : Translations)
    (str : StoryTranslations) (events : list Event) (c : Component) :
  isMounted c = false ->
  speechCall c = None ->
  let c' := run host tr str events c in
  isMounted c' = false
  /\ speechCall c' = None
  /\ appState c' = appState c
  /\ urlLog (browser c') = urlLog (browser c).
Proof.
  revert c. induction events as [|ev events IH]; intros c Hm Hcall;
    [repeat split; assumption|].
  cbn [run fold_left].
  destruct (unmounted_step host tr str ev c Hm Hcall) as (Hm' & Hcall' & Hs & Hlog).
  destruct (IH _ Hm' Hcall') as (Hm'' & Hcall'' & Hs' & Hlog').
  cbv zeta. unfold run in *.
  split; [exact Hm''|]. split; [exact Hcall''|].
  split; [rewrite Hs'; exact Hs|rewrite Hlog'; exact Hlog].
Qed.

(** Whatever has happened since the component was mounted (a request may
    await its answer), when the component is unmounted with its state
    rendered, no object URL is live right afterwards, and at no moment were
    two live.  When no call of [handleGenerate] awaits its answer at that
    moment, no URL is live ever after. *)
Theorem unmount_releases_url (host : Platform) (tr : Translations)
    (str : StoryTranslations) (events : list Event) :
  let c := run host tr str events initialComponent in
  isMounted c = true ->
  let c' := step host tr str Unmounted c in
  isMounted c' = false
  /\ liveUrls (urlLog (browser c')) = ∅
  /\ neverTwoLive (urlLog (browser c'))
  /\ (speechCall c = None ->
        forall later,
          liveUrls (urlLog (browser (run host tr str later c'))) = ∅).
Proof.
  intros c Hm c'.
  pose proof (consistent_run host tr str events _ consistent_initial) as Hc.
  fold c in Hc.
  pose proof (consistent_step host tr str Unmounted c Hc) as Hc'. fold c' in Hc'.
  destruct Hc as (_ & _ & _ & Hmt & _).
  destruct (Hmt Hm) as ((Hlive & _ & _) & _). cbn [fst snd] in Hlive.
  assert (Hm' : isMounted c' = false)
    by (subst c'; cbn [step]; rewrite Hm; reflexivity).
  assert (Hcall : speechCall c' = speechCall c)
    by (subst c'; cbn [step]; rewrite Hm; reflexivity).
  assert (Hempty : liveUrls (urlLog (browser c')) = ∅).
  { subst c'. cbn [step]. rewrite Hm. cbn [browser].
    rewrite unmount_run. cbn [snd].
    destruct (audioUrl (appState c)) as [url|]; cbn [urlLog]; [|exact Hlive].
    rewrite liveUrls_revoke, Hlive. set_solver. }
  split; [exact Hm'|]. split; [exact Hempty|].
  split; [exact (proj1 Hc')|].
  intros Hnone later. rewrite <- Hcall in Hnone.
  destruct (unmounted_run host tr str later c' Hm' Hnone) as (_ & _ & _ & Hlog).
  rewrite Hlog. exact Hempty.
Qed.

Lemma unmount_releases_url_witness :
  let c := run standardBrowser english englishStory
             [TextTyped (lit "hi"); GenerateClicked;
              SpeechAnswered (answering "AAD/fw==")]
             initialComponent in
  audioUrl (appState c) = Some 0%nat
  /\ liveUrls (urlLog (browser (step standardBrowser english englishStory
                                  Unmounted c))) = ∅.
Proof.
  intros c. split; [reflexivity|].
  destruct (unmount_releases_url standardBrowser english englishStory
              [TextTyped (lit "hi"); GenerateClicked;
               SpeechAnswered (answering "AAD/fw==")]
              ltac:(reflexivity)) as (_ & H & _).
  exact H.
Defined.

(** When the component is unmounted while a call of [handleGenerate]
    awaits its answer, and the answer then gets as far as the encoded WAV,
    the URL made for it is never revoked: it is live, and held by no state,
    whatever happens afterwards. *)
Theorem unmount_pending_url_leaks (host : Platform) (tr : Translations)
    (str : StoryTranslations) (events later : list Event) (net : Network)
    (call : SpeechCall) (wavBlob : Blob) (converted : result AudioBuffer) :
  let c := run host tr str events initialComponent in
  isMounted c = true ->
  speechCall c = Some call ->
  audioChain host net (callText call) (callVoice call) (callContext call)
    = Ok (wavBlob, converted) ->
  let c' := run host tr str (Unmounted :: SpeechAnswered net :: later) c in
  exists url,
    liveUrls (urlLog (browser c')) = {[url]}
    /\ Create url wavBlob ∈ urlLog (browser c')
    /\ audioUrl (appState c') = None
    /\ isMounted c' = false.
Proof.
  intros c Hm Hcall Hchain c'.
  pose proof (consistent_run host tr str events _ consistent_initial) as Hc.
  fold c in Hc.
  destruct Hc as (_ & _ & _ & Hmt & _).
  destruct (Hmt Hm) as ((Hlive & _ & _) & _ & _ & Hp).
  destruct (Hp ltac:(rewrite Hcall; discriminate)) as [Hurl _].
  cbn [fst snd] in Hlive. rewrite Hurl in Hlive.
  subst c'. cbn [run fold_left].
  set (c2 := step host tr str (SpeechAnswered net) (step host tr str Unmounted c)).
  assert (H2 : isMounted c2 = false /\ speechCall c2 = None
               /\ appState c2 = appState c
               /\ urlLog (browser c2)
                  = urlLog (browser c)
                    ++ [Create (length (urlLog (browser c))) wavBlob]).
  { subst c2. clearbody c. destruct c as [s tab w m sc stc].
    cbn [appState storyTab browser isMounted speechCall storyCall] in *.
    subst m sc.
    cbn [step appState storyTab browser isMounted speechCall storyCall].
    rewrite unmount_run. cbn [snd]. rewrite Hurl.
    rewrite handleGenerateAnswerUnmounted_run. cbv zeta. rewrite Hchain.
    cbn [fst snd]. destruct converted; repeat split; reflexivity. }
  destruct H2 as (Hm2 & Hcall2 & Hs2 & Hlog2).
  destruct (unmounted_run host tr str later c2 Hm2 Hcall2)
    as (Hm3 & _ & Hs3 & Hlog3).
  cbv zeta in Hm3, Hs3, Hlog3. unfold run in Hm3, Hs3, Hlog3.
  exists (length (urlLog (browser c))).
  rewrite Hlog3, Hlog2, Hs3, Hs2.
  split; [rewrite liveUrls_create, Hlive; set_solver|].
  split; [apply elem_of_app; right; apply list_elem_of_singleton; reflexivity|].
  split; [exact Hurl|exact Hm3].
Qed.

Lemma unmount_pending_url_leaks_witness :
  let c := run standardBrowser english englishStory
             [TextTyped (lit "hi"); GenerateClicked] initialComponent in
  let c' := run standardBrowser english englishStory
              [Unmounted; SpeechAnswered (answering "AAD/fw=="); PlayClicked] c in
  exists url,
    liveUrls (urlLog (browser c')) = {[url]}
    /\ Create url {| blobBytes := wavHeader 4 24000 ++ [0; 0; 255; 127];
                     blobType := "audio/wav" |} ∈ urlLog (browser c')
    /\ audioUrl (appState c') = None
    /\ isMounted c' = false.
Proof.
  apply (unmount_pending_url_leaks standardBrowser english englishStory
           [TextTyped (lit "hi"); GenerateClicked] [PlayClicked]
           (answering "AAD/fw==")
           {| callText := lit "hi"; callVoice := NORA; callLanguage := Ar;
              callContext := {| ctxId := 0; ctxSampleRate := 24000 |} |}
           {| blobBytes := wavHeader 4 24000 ++ [0; 0; 255; 127];
              blobType := "audio/wav" |}
           (Ok {| bufferSampleRate := 24000;
                  channels := [[S754_zero false; sampleFloat 32767]] |})).
  - reflexivity.
  - reflexivity.
  - vm_compute; reflexivity.
Defined.
